(** * GestureVoice: the session coordinator and the translation engine

    A shallow embedding of the backend of GestureVoice
    (backend/src/websocket/RealisticWebSocketHandler.ts and the services
    it drives) together with the properties its specification states.

    Conventions of the embedding:
    - a JavaScript [number] is an exact rational ([Q]); the decimal
      literals of the source ([0.9], [0.7], ...) are the literals here;
    - a JavaScript string is a [string] of ASCII characters;
    - a [Map] or object literal whose iteration order the code relies on
      is an association list in declaration order; the two registries of
      the handler, which are only read by key and by size, are [gmap]s;
    - [Date.now()] is an integer number of milliseconds ([Z]);
    - [null] / [undefined] results are [None];
    - an [async] handler is a resumable computation ([Task]): it runs up
      to its next [await] on an external operation, and is resumed with
      the outcome of that operation on a later turn of the event loop. *)

From Stdlib Require Import QArith Qminmax Qabs ZArith Lia Bool List Ascii String.
From Stdlib Require Import Qround Lqa.
From stdpp Require Import gmap strings.
Import ListNotations.

Local Open Scope Q_scope.

(** ** JavaScript primitives used by the services *)

Module JS.

Definition number := Q.

Definition ltb (a b : number) : bool := negb (Qle_bool b a).
Definition gtb (a b : number) : bool := ltb b a.
Definition leb (a b : number) : bool := Qle_bool a b.
Definition geb (a b : number) : bool := Qle_bool b a.

Definition of_nat (n : nat) : number := inject_Z (Z.of_nat n).

(** [x || d] on numbers: [0] is the only falsy rational. *)
Definition num_or (v d : number) : number := if Qeq_bool v 0 then d else v.

Definition dquote : string := String "034"%char EmptyString.

Definition isUpper (c : ascii) : bool :=
  let n := nat_of_ascii c in (65 <=? n)%nat && (n <=? 90)%nat.

Definition isLower (c : ascii) : bool :=
  let n := nat_of_ascii c in (97 <=? n)%nat && (n <=? 122)%nat.

Definition lowerChar (c : ascii) : ascii :=
  if isUpper c then ascii_of_nat (nat_of_ascii c + 32) else c.

Definition upperChar (c : ascii) : ascii :=
  if isLower c then ascii_of_nat (nat_of_ascii c - 32) else c.

(** [s.toLowerCase()] *)
Fixpoint toLowerCase (s : string) : string :=
  match s with
  | EmptyString => EmptyString
  | String c s' => String (lowerChar c) (toLowerCase s')
  end.

(** [s.toUpperCase()] *)
Fixpoint toUpperCase (s : string) : string :=
  match s with
  | EmptyString => EmptyString
  | String c s' => String (upperChar c) (toUpperCase s')
  end.

(** [s.startsWith(k)] *)
Fixpoint startsWith (s k : string) {struct k} : bool :=
  match k, s with
  | EmptyString, _ => true
  | String _ _, EmptyString => false
  | String a k', String b s' => Ascii.eqb a b && startsWith s' k'
  end.

(** [s.includes(k)]: [k] occurs in [s] at some position. *)
Fixpoint includes (s k : string) : bool :=
  startsWith s k ||
  match s with
  | EmptyString => false
  | String _ s' => includes s' k
  end.

(** The characters matched by [\s], within ASCII. *)
Definition isSpace (c : ascii) : bool :=
  let n := nat_of_ascii c in ((9 <=? n)%nat && (n <=? 13)%nat) || (n =? 32)%nat.

(** [s.split(/\s+/)]: [cur] is the piece being read, [inrun] tells that
    the previous character was matched by the separator. *)
Fixpoint splitSpaces (s cur : string) (inrun : bool) : list string :=
  match s with
  | EmptyString => [cur]
  | String c s' =>
      if isSpace c then
        if inrun then splitSpaces s' cur true
        else cur :: splitSpaces s' EmptyString true
      else splitSpaces s' (cur +:+ String c EmptyString) false
  end.

Definition split_ws (s : string) : list string := splitSpaces s EmptyString false.

(** [s.split(sep)] for a one-character separator. *)
Fixpoint splitChar (sep : ascii) (s cur : string) : list string :=
  match s with
  | EmptyString => [cur]
  | String c s' =>
      if Ascii.eqb c sep then cur :: splitChar sep s' EmptyString
      else splitChar sep s' (cur +:+ String c EmptyString)
  end.

(** [s.split('')] *)
Fixpoint chars (s : string) : list string :=
  match s with
  | EmptyString => []
  | String c s' => String c EmptyString :: chars s'
  end.

(** [l.join(sep)] *)
Fixpoint join (sep : string) (l : list string) : string :=
  match l with
  | [] => EmptyString
  | [a] => a
  | a :: l' => a +:+ sep +:+ join sep l'
  end.

(** A string is truthy when it is not empty. *)
Definition truthy (s : string) : bool := negb (String.eqb s EmptyString).

(** Lookup in a [Map] / object literal kept in declaration order. *)
Fixpoint get {V} (m : list (string * V)) (k : string) : option V :=
  match m with
  | [] => None
  | (k', v) :: m' => if String.eqb k' k then Some v else get m' k
  end.

Definition has {V} (m : list (string * V)) (k : string) : bool :=
  match get m k with Some _ => true | None => false end.

End JS.

(** ** types/index.ts *)

Record SignLanguageData := {
  landmarks : list (list JS.number);
  sd_confidence : JS.number;
  sd_timestamp : Z;
  sd_sessionId : string;
  recognizedGesture : option string;
  gestureDescription : option string
}.

Record VoiceData := {
  audioBuffer : option nat;   (* the buffer's byteLength, when a buffer is present *)
  vd_duration : JS.number;
  sampleRate : JS.number;
  vd_timestamp : Z;
  vd_sessionId : string
}.

Inductive Modality := sign | voice.

Record TranslationResult := {
  originalType : Modality;
  translatedText : string;
  tr_confidence : JS.number;
  tr_timestamp : Z;
  tr_sessionId : string
}.

(** ** services/TranslationService.ts *)

Module TranslationService.

Record Vec3 := { vx : JS.number; vy : JS.number; vz : JS.number }.

Record AnimationKeyframe := {
  kf_timestamp : JS.number;
  handPosition : Vec3;
  fingerPositions : list JS.number;
  kf_description : string
}.

Record SignAnimation := {
  sa_gesture : string;
  sa_duration : JS.number;
  keyframes : list AnimationKeyframe;
  sa_description : string
}.

Record SignTranslationResult := {
  st_text : string;
  st_confidence : JS.number;
  st_gesture : string
}.

Record TextToSignResult := {
  signDescription : string;
  animations : list SignAnimation;
  confidence : JS.number
}.

Record DictionaryEntry := {
  de_description : string;
  de_animations : list SignAnimation;
  category : string
}.

Definition keyframe t px py pz fingers d : AnimationKeyframe :=
  {| kf_timestamp := t; handPosition := {| vx := px; vy := py; vz := pz |};
     fingerPositions := fingers; kf_description := d |}.

Definition createWaveAnimation : list SignAnimation :=
  [ {| sa_gesture := "wave"; sa_duration := 2000;
       keyframes :=
         [ keyframe 0 0 0 0 [1;1;1;1;1] "Raise hand";
           keyframe 500 0.2 0 0 [1;1;1;1;1] "Wave right";
           keyframe 1000 (-0.2) 0 0 [1;1;1;1;1] "Wave left";
           keyframe 1500 0 0 0 [1;1;1;1;1] "Center";
           keyframe 2000 0 (-0.3) 0 [0;0;0;0;0] "Lower hand" ];
       sa_description := "Wave hand side to side" |} ].

Definition createThankYouAnimation : list SignAnimation :=
  [ {| sa_gesture := "thank_you"; sa_duration := 1500;
       keyframes :=
         [ keyframe 0 0 0.2 (-0.1) [1;1;1;1;1] "Touch chin";
           keyframe 1000 0 (-0.1) 0.2 [1;1;1;1;1] "Move forward";
           keyframe 1500 0 (-0.2) 0.3 [1;1;1;1;1] "Complete motion" ];
       sa_description := "Touch chin and move forward" |} ].

Definition createYesAnimation : list SignAnimation :=
  [ {| sa_gesture := "yes"; sa_duration := 1000;
       keyframes :=
         [ keyframe 0 0 0 0 [0;0;0;0;0] "Fist position";
           keyframe 250 0 0.1 0 [0;0;0;0;0] "Nod up";
           keyframe 500 0 (-0.1) 0 [0;0;0;0;0] "Nod down";
           keyframe 750 0 0.05 0 [0;0;0;0;0] "Nod up again";
           keyframe 1000 0 0 0 [0;0;0;0;0] "Return center" ];
       sa_description := "Nod fist up and down" |} ].

Definition createGoodbyeAnimation : list SignAnimation := [].
Definition createMorningAnimation : list SignAnimation := [].
Definition createPleaseAnimation : list SignAnimation := [].
Definition createSorryAnimation : list SignAnimation := [].
Definition createNoAnimation : list SignAnimation := [].
Definition createHelpAnimation : list SignAnimation := [].
Definition createStopAnimation : list SignAnimation := [].

Definition entry d a c : DictionaryEntry :=
  {| de_description := d; de_animations := a; category := c |}.

Definition signLanguageDictionary : list (string * DictionaryEntry) :=
  [ ("hello", entry "Wave hand with open palm, fingers extended" createWaveAnimation "greeting");
    ("goodbye", entry "Wave hand back and forth with palm facing forward" createGoodbyeAnimation "greeting");
    ("good_morning", entry "Touch fingertips to forehead, then extend hand forward" createMorningAnimation "greeting");
    ("thank_you", entry "Touch fingertips to chin, then move hand forward and down" createThankYouAnimation "courtesy");
    ("please", entry "Place palm on chest and move in circular motion" createPleaseAnimation "courtesy");
    ("sorry", entry "Make fist, place on chest, move in circular motion" createSorryAnimation "courtesy");
    ("yes", entry "Make fist and nod up and down" createYesAnimation "response");
    ("no", entry "Extend index and middle finger, shake side to side" createNoAnimation "response");
    ("help", entry "Place one hand palm up, place other hand on top, lift both" createHelpAnimation "action");
    ("stop", entry "Extend palm forward, fingers up, firm gesture" createStopAnimation "action") ]%string.

Definition wordToGestureMap : list (string * string) :=
  [ ("hello", "hello"); ("hi", "hello"); ("hey", "hello");
    ("goodbye", "goodbye"); ("bye", "goodbye");
    ("thanks", "thank_you"); ("thank you", "thank_you");
    ("please", "please"); ("sorry", "sorry");
    ("yes", "yes"); ("no", "no"); ("help", "help"); ("stop", "stop");
    ("good morning", "good_morning"); ("morning", "good_morning") ]%string.

Definition gestureToText : list (string * string) :=
  [ ("hello", "Hello"); ("goodbye", "Goodbye"); ("thank_you", "Thank you");
    ("please", "Please"); ("yes", "Yes"); ("no", "No"); ("help", "Help");
    ("stop", "Stop"); ("good_morning", "Good morning") ]%string.

Definition sequenceTimeoutMs : Z := 3000.

(** The rolling buffer, the only mutable state of the service. *)
Record BufferedGesture := { bg_gesture : string; bg_timestamp : Z }.

Record Classified := { cl_gesture : string; cl_confidence : JS.number }.

Definition classified g c : Classified := {| cl_gesture := g; cl_confidence := c |}.

(** [handPoints[i]]; every index the classifier reads is below the
    length it has checked. *)
Definition at_ (handPoints : list JS.number) (i : nat) : JS.number := nth i handPoints 0.

Definition recognizeGestureFromLandmarks (lm : list (list JS.number)) : option Classified :=
  match lm with
  | [] => None
  | handPoints :: _ =>
      if (length handPoints <? 21 * 3)%nat then None
      else
        let thumbTip := (at_ handPoints (4 * 3), at_ handPoints (4 * 3 + 1)) in
        let indexTip := (at_ handPoints (8 * 3), at_ handPoints (8 * 3 + 1)) in
        let middleTip := (at_ handPoints (12 * 3), at_ handPoints (12 * 3 + 1)) in
        let ringTip := (at_ handPoints (16 * 3), at_ handPoints (16 * 3 + 1)) in
        let pinkyTip := (at_ handPoints (20 * 3), at_ handPoints (20 * 3 + 1)) in
        let wrist := (at_ handPoints 0, at_ handPoints 1) in
        let above (tip : JS.number * JS.number) := JS.ltb (snd tip) (snd wrist) in
        let below (tip : JS.number * JS.number) := JS.gtb (snd tip) (snd wrist) in
        let allFingersUp := forallb above [thumbTip; indexTip; middleTip; ringTip; pinkyTip] in
        let thumbsUp := above thumbTip && forallb below [indexTip; middleTip; ringTip; pinkyTip] in
        let pointingUp := above indexTip && forallb below [thumbTip; middleTip; ringTip; pinkyTip] in
        let okSign :=
          JS.ltb (Qabs (fst thumbTip - fst indexTip)) 0.05 &&
          JS.ltb (Qabs (snd thumbTip - snd indexTip)) 0.05 in
        if allFingersUp then Some (classified "hello" 0.8)
        else if thumbsUp then Some (classified "yes" 0.85)
        else if pointingUp then Some (classified "help" 0.7)
        else if okSign then Some (classified "thank_you" 0.75)
        else Some (classified "unknown" 0.3)
  end.

Definition gestureSequenceToText (buffer : list BufferedGesture) : option string :=
  match last buffer with
  | None => None
  | Some latestGesture =>
      match JS.get gestureToText (bg_gesture latestGesture) with
      | Some t => if JS.truthy t then Some t else None
      | None => None
      end
  end.

Definition cleanGestureBuffer (now : Z) (buffer : list BufferedGesture) : list BufferedGesture :=
  List.filter (fun g => (now - bg_timestamp g <? sequenceTimeoutMs)%Z) buffer.

(** [signToText]: [tPush] and [tClean] are the two readings of the clock
    (when the gesture is buffered, and when the buffer is pruned). *)
Definition signToText (buffer : list BufferedGesture) (signData : SignLanguageData)
    (tPush tClean : Z) : list BufferedGesture * option SignTranslationResult :=
  match recognizeGestureFromLandmarks (landmarks signData) with
  | None => (buffer, None)
  | Some gesture =>
      let buffer1 := buffer ++ [ {| bg_gesture := cl_gesture gesture; bg_timestamp := tPush |} ] in
      let buffer2 := cleanGestureBuffer tClean buffer1 in
      match gestureSequenceToText buffer2 with
      | Some translatedText =>
          (buffer2,
           Some {| st_text := translatedText;
                   st_confidence := Qmin (cl_confidence gesture) (sd_confidence signData);
                   st_gesture := cl_gesture gesture |})
      | None => (buffer2, None)
      end
  end.

Definition findPartialGestureMatch (word : string) : option string :=
  match find (fun kv => JS.includes (fst kv) word || JS.includes word (fst kv)) wordToGestureMap with
  | Some (key, _) =>
      match JS.get wordToGestureMap key with
      | Some g => if JS.truthy g then Some g else None
      | None => None
      end
  | None => None
  end.

Definition letterPositions : list (string * list JS.number) :=
  [ ("a", [0; 1; 1; 1; 1]); ("b", [1; 1; 1; 1; 0]);
    ("c", [0.5; 0.5; 0.5; 0.5; 0.5]) ]%string.

Definition getLetterFingerPosition (letter : string) : list JS.number :=
  match JS.get letterPositions (JS.toLowerCase letter) with
  | Some p => p
  | None => [1; 1; 1; 1; 1]
  end.

Definition createFingerspellingAnimation (word : string) : SignAnimation :=
  {| sa_gesture := "fingerspell";
     sa_duration := JS.of_nat (String.length word) * 800;
     keyframes :=
       imap (fun index letter =>
               keyframe (JS.of_nat index * 800) 0 0 0 (getLetterFingerPosition letter)
                        ("Spell letter: " +:+ JS.toUpperCase letter))
            (JS.chars word);
     sa_description := "Fingerspell the word: " +:+ word |}.

Definition generateSignDescription (originalText : string) (words : list string) : string :=
  let knownGestures :=
    List.filter (fun word => JS.has wordToGestureMap word ||
                        match findPartialGestureMatch word with Some _ => true | None => false end)
           words in
  match knownGestures with
  | [] => "Fingerspell: " +:+ JS.dquote +:+ originalText +:+ JS.dquote
  | _ =>
      JS.join ", then "
        (map (fun word =>
                let gesture :=
                  match JS.get wordToGestureMap word with
                  | Some g => if JS.truthy g then Some g else findPartialGestureMatch word
                  | None => findPartialGestureMatch word
                  end in
                match gesture with
                | Some g =>
                    match JS.get signLanguageDictionary g with
                    | Some e => de_description e
                    | None => "Fingerspell " +:+ JS.dquote +:+ word +:+ JS.dquote
                    end
                | None => "Fingerspell " +:+ JS.dquote +:+ word +:+ JS.dquote
                end)
             knownGestures)
  end.

(** The accumulators of the loop of [textToSign]. *)
Record Acc := {
  signAnimations : list SignAnimation;
  overallConfidence : JS.number;
  matchCount : nat
}.

Definition push (acc : Acc) (anims : list SignAnimation) (c : JS.number) : Acc :=
  {| signAnimations := signAnimations acc ++ anims;
     overallConfidence := overallConfidence acc + c;
     matchCount := S (matchCount acc) |}.

(** One iteration of the loop over the words; [None] is a thrown
    [TypeError] (reading [.animations] of a missing dictionary entry). *)
Definition textToSign_word (acc : Acc) (word : string) : option Acc :=
  let exact :=
    match JS.get wordToGestureMap word with
    | Some gesture =>
        if JS.truthy gesture then JS.get signLanguageDictionary gesture else None
    | None => None
    end in
  match exact with
  | Some signData => Some (push acc (de_animations signData) 0.9)
  | None =>
      match findPartialGestureMatch word with
      | Some partialMatch =>
          match JS.get signLanguageDictionary partialMatch with
          | Some signData => Some (push acc (de_animations signData) 0.6)
          | None => None
          end
      | None => Some (push acc [createFingerspellingAnimation word] 0.4)
      end
  end.

Fixpoint textToSign_loop (acc : Acc) (words : list string) : option Acc :=
  match words with
  | [] => Some acc
  | word :: rest =>
      match textToSign_word acc word with
      | Some acc' => textToSign_loop acc' rest
      | None => None
      end
  end.

Definition textToSign (text : string) : option TextToSignResult :=
  let words := JS.split_ws (JS.toLowerCase text) in
  match textToSign_loop {| signAnimations := []; overallConfidence := 0; matchCount := 0 |} words with
  | None => None                      (* the catch block *)
  | Some acc =>
      if (length (signAnimations acc) =? 0)%nat then None
      else
        let finalConfidence :=
          if (0 <? matchCount acc)%nat
          then overallConfidence acc / JS.of_nat (matchCount acc) else 0 in
        Some {| signDescription := generateSignDescription text words;
                animations := signAnimations acc;
                confidence := Qmin 1 finalConfidence |}
  end.

End TranslationService.

(** ** Synchronous code that may throw *)

Inductive Completion (A : Type) : Type :=
| Normal (a : A)
| Throw (e : string).

Arguments Normal {A} a.
Arguments Throw {A} e.

(** ** services/Avatar3DService.ts *)

(** [Math.atan2], [Math.sin] and [Math.cos] of the platform. *)
Class MathLib := {
  Math_atan2 : JS.number -> JS.number -> JS.number;
  Math_sin : JS.number -> JS.number;
  Math_cos : JS.number -> JS.number
}.

Module Avatar3DService.

Record Vec3 := { x : JS.number; y : JS.number; z : JS.number }.

Definition vec a b c : Vec3 := {| x := a; y := b; z := c |}.

Record AvatarBone := { name : string; position : Vec3; rotation : Vec3 }.

Definition bone n p r : AvatarBone := {| name := n; position := p; rotation := r |}.

Record AvatarPose := {
  timestamp : Z;
  bones : list AvatarBone;
  facialExpression : option string;
  duration : JS.number
}.

Definition pose t bs e d : AvatarPose :=
  {| timestamp := t; bones := bs; facialExpression := Some e; duration := d |}.

(** [Object.values(this.avatarSkeleton)]: name and default position. *)
Definition avatarSkeleton : list (string * Vec3) :=
  [ ("Head", vec 0 1.6 0); ("Neck", vec 0 1.4 0);
    ("Chest", vec 0 1.2 0); ("Spine", vec 0 1.0 0);
    ("LeftShoulder", vec (-0.2) 1.3 0); ("LeftUpperArm", vec (-0.3) 1.1 0);
    ("LeftForearm", vec (-0.4) 0.9 0); ("LeftHand", vec (-0.5) 0.8 0);
    ("RightShoulder", vec 0.2 1.3 0); ("RightUpperArm", vec 0.3 1.1 0);
    ("RightForearm", vec 0.4 0.9 0); ("RightHand", vec 0.5 0.8 0);
    ("LeftThumb", vec (-0.48) 0.82 0.02); ("LeftIndex", vec (-0.52) 0.85 0);
    ("LeftMiddle", vec (-0.53) 0.85 0); ("LeftRing", vec (-0.52) 0.84 0);
    ("LeftPinky", vec (-0.51) 0.82 0);
    ("RightThumb", vec 0.48 0.82 0.02); ("RightIndex", vec 0.52 0.85 0);
    ("RightMiddle", vec 0.53 0.85 0); ("RightRing", vec 0.52 0.84 0);
    ("RightPinky", vec 0.51 0.82 0) ]%string.

Definition createDefaultPose (now : Z) : AvatarPose :=
  pose now (map (fun b => bone (fst b) (snd b) (vec 0 0 0)) avatarSkeleton) "neutral" 1000.

(** The animations are built once, when the service is constructed;
    [now] is the clock at that moment. *)
Definition createHelloAnimation (now : Z) : list AvatarPose :=
  [ pose now
      [ bone "RightUpperArm" (vec 0.3 1.3 0) (vec 0 0 (-0.5));
        bone "RightForearm" (vec 0.2 1.4 0) (vec 0 0 (-0.3));
        bone "RightHand" (vec 0.1 1.5 0) (vec 0 0 0) ] "happy" 500;
    pose (now + 500) [ bone "RightHand" (vec 0.15 1.5 0) (vec 0 0.2 0) ] "happy" 300;
    pose (now + 800) [ bone "RightHand" (vec 0.05 1.5 0) (vec 0 (-0.2) 0) ] "happy" 300 ].

Definition createGoodbyeAnimation (now : Z) : list AvatarPose :=
  createHelloAnimation now ++
  [ pose (now + 1100)
      [ bone "RightUpperArm" (vec 0.3 1.1 0) (vec 0 0 0);
        bone "RightForearm" (vec 0.4 0.9 0) (vec 0 0 0);
        bone "RightHand" (vec 0.5 0.8 0) (vec 0 0 0) ] "neutral" 800 ].

Definition createThankYouAnimation (now : Z) : list AvatarPose :=
  [ pose now [ bone "RightHand" (vec 0.1 1.4 0.1) (vec 0 0 0);
               bone "Head" (vec 0 1.6 0) (vec 0.1 0 0) ] "happy" 1000 ].

Definition createPleaseAnimation (now : Z) : list AvatarPose :=
  [ pose now [ bone "RightHand" (vec 0.1 1.2 0.1) (vec 0 0 0.2) ] "questioning" 1200 ].

Definition createYesAnimation (now : Z) : list AvatarPose :=
  [ pose now [ bone "Head" (vec 0 1.6 0) (vec 0.3 0 0) ] "neutral" 600;
    pose (now + 600) [ bone "Head" (vec 0 1.6 0) (vec (-0.1) 0 0) ] "neutral" 400 ].

Definition createNoAnimation (now : Z) : list AvatarPose :=
  [ pose now [ bone "Head" (vec 0 1.6 0) (vec 0 0.3 0) ] "serious" 400;
    pose (now + 400) [ bone "Head" (vec 0 1.6 0) (vec 0 (-0.3) 0) ] "serious" 400 ].

Definition createHelpAnimation (now : Z) : list AvatarPose :=
  [ pose now [ bone "LeftHand" (vec (-0.3) 1.1 0) (vec 0 0 0);
               bone "RightHand" (vec (-0.2) 1.2 0) (vec 0 0 0.3) ] "concerned" 1200 ].

Definition createStopAnimation (now : Z) : list AvatarPose :=
  [ pose now [ bone "RightUpperArm" (vec 0.2 1.3 0) (vec 0 0 (-0.8));
               bone "RightForearm" (vec 0.1 1.5 0) (vec 0 0 0);
               bone "RightHand" (vec 0 1.6 0) (vec 0 0 0) ] "serious" 1500 ].

Definition createWaterAnimation (now : Z) : list AvatarPose :=
  [ pose now [ bone "RightHand" (vec 0.2 1.3 0) (vec 0 0 0.5) ] "neutral" 1000 ].

Definition createFoodAnimation (now : Z) : list AvatarPose :=
  [ pose now [ bone "RightHand" (vec 0.1 1.4 0.1) (vec 0 0 0.3) ] "questioning" 800 ].

Definition createBathroomAnimation (now : Z) : list AvatarPose :=
  [ pose now [ bone "RightIndex" (vec 0.3 1.2 0) (vec 0 0 0.2) ] "questioning" 1000 ].

Definition createSorryAnimation (now : Z) : list AvatarPose :=
  [ pose now [ bone "RightHand" (vec 0.1 1.2 0.1) (vec 0 0 0.4);
               bone "Head" (vec 0 1.6 0) (vec 0.2 0 0) ] "concerned" 1200 ].

Definition createILoveYouAnimation (now : Z) : list AvatarPose :=
  [ pose now [ bone "RightHand" (vec 0.3 1.3 0) (vec 0 0 0);
               bone "RightThumb" (vec 0.32 1.32 0.02) (vec 0 0.5 0);
               bone "RightIndex" (vec 0.35 1.35 0) (vec 0 0 0.3);
               bone "RightPinky" (vec 0.28 1.32 0) (vec 0 0 (-0.3)) ] "happy" 2000 ].

Definition getExtendedFingersForNumber (number : nat) : list bool :=
  match number with
  | 0%nat => [false; false; false; false; false]
  | 1%nat => [false; true; false; false; false]
  | 2%nat => [false; true; true; false; false]
  | 3%nat => [true; true; true; false; false]
  | 4%nat => [false; true; true; true; true]
  | 5%nat => [true; true; true; true; true]
  | _ => [false; false; false; false; false]
  end.

Definition fingerNames : list string :=
  [ "RightThumb"; "RightIndex"; "RightMiddle"; "RightRing"; "RightPinky" ]%string.

Definition createNumberAnimation (now : Z) (number : nat) : list AvatarPose :=
  let basePosY := 1.3 in
  let bones :=
    imap (fun index (extended : bool) =>
            bone (nth index fingerNames EmptyString)
                 (vec (0.3 + (JS.of_nat index - 2) * 0.02)
                      (if extended then basePosY + 0.08 else basePosY - 0.02)
                      0)
                 (if extended then vec 0 0 0.2 else vec 0.8 0 0))
         (getExtendedFingersForNumber number) in
  [ pose now bones "neutral" 1500 ].

Definition createLetterAnimation (now : Z) (letter : string) : list AvatarPose :=
  [ pose now [ bone "RightHand" (vec 0.3 1.3 0) (vec 0 0 0) ] "neutral" 1000 ].

Definition gestureAnimations (t0 : Z) : list (string * list AvatarPose) :=
  [ ("hello", createHelloAnimation t0); ("goodbye", createGoodbyeAnimation t0);
    ("thank_you", createThankYouAnimation t0); ("please", createPleaseAnimation t0);
    ("yes", createYesAnimation t0); ("no", createNoAnimation t0);
    ("help", createHelpAnimation t0); ("stop", createStopAnimation t0);
    ("water", createWaterAnimation t0); ("food", createFoodAnimation t0);
    ("bathroom", createBathroomAnimation t0); ("sorry", createSorryAnimation t0);
    ("i_love_you", createILoveYouAnimation t0);
    ("one", createNumberAnimation t0 1); ("two", createNumberAnimation t0 2);
    ("three", createNumberAnimation t0 3); ("four", createNumberAnimation t0 4);
    ("five", createNumberAnimation t0 5);
    ("a", createLetterAnimation t0 "A"); ("b", createLetterAnimation t0 "B");
    ("c", createLetterAnimation t0 "C") ]%string.

(** What [generateAvatarPose] may receive at run time: the observation
    itself, its [landmarks] array and the first row of that array can
    each be absent ([undefined]), whatever the declared type says. *)
Record RawSignData := {
  raw_recognizedGesture : option string;
  raw_landmarks : option (list (option (list JS.number)))
}.

Definition typeError : string := "TypeError"%string.

Section Poses.
Context {M : MathLib}.

Definition calculateFingerRotation (landmarks : list JS.number) (startIdx endIdx : nat) : Vec3 :=
  let baseX := nth (startIdx * 3) landmarks 0 in
  let baseY := nth (startIdx * 3 + 1) landmarks 0 in
  let tipX := nth (endIdx * 3) landmarks 0 in
  let tipY := nth (endIdx * 3 + 1) landmarks 0 in
  let dx := tipX - baseX in
  let dy := tipY - baseY in
  let angle := Math_atan2 dy dx in
  vec (Math_sin angle * 0.5) 0 (Math_cos angle * 0.5).

Definition generateGenericPoseFromLandmarks (now : Z)
    (landmarks : option (list (option (list JS.number)))) : Completion AvatarPose :=
  match landmarks with
  | None => Normal (createDefaultPose now)                    (* !landmarks *)
  | Some [] => Normal (createDefaultPose now)                 (* landmarks.length === 0 *)
  | Some (None :: _) => Throw typeError                       (* landmarks[0].length *)
  | Some (Some handLandmarks :: _) =>
      if (length handLandmarks <? 63)%nat then Normal (createDefaultPose now)
      else
        let at_ i := nth i handLandmarks 0 in
        Normal
          {| timestamp := now;
             bones :=
               [ bone "RightHand" (vec (at_ 0%nat) (at_ 1%nat) (JS.num_or (at_ 2%nat) 0)) (vec 0 0 0);
                 bone "RightThumb" (vec (at_ 12%nat) (at_ 13%nat) (JS.num_or (at_ 14%nat) 0))
                      (calculateFingerRotation handLandmarks 1 4);
                 bone "RightIndex" (vec (at_ 24%nat) (at_ 25%nat) (JS.num_or (at_ 26%nat) 0))
                      (calculateFingerRotation handLandmarks 5 8);
                 bone "RightMiddle" (vec (at_ 36%nat) (at_ 37%nat) (JS.num_or (at_ 38%nat) 0))
                      (calculateFingerRotation handLandmarks 9 12);
                 bone "RightRing" (vec (at_ 48%nat) (at_ 49%nat) (JS.num_or (at_ 50%nat) 0))
                      (calculateFingerRotation handLandmarks 13 16);
                 bone "RightPinky" (vec (at_ 60%nat) (at_ 61%nat) (JS.num_or (at_ 62%nat) 0))
                      (calculateFingerRotation handLandmarks 17 20) ];
             facialExpression := Some "neutral"%string;
             duration := 1000 |}
  end.

(** The body of the [try] block of [generateAvatarPose]. *)
Definition generateAvatarPose_try (t0 now : Z) (signData : option RawSignData)
    : Completion AvatarPose :=
  match signData with
  | None => Throw typeError                                   (* signData.recognizedGesture *)
  | Some sd =>
      match raw_recognizedGesture sd with
      | None => generateGenericPoseFromLandmarks now (raw_landmarks sd)
      | Some g =>
          if negb (JS.truthy g) || String.eqb g "unknown"
          then generateGenericPoseFromLandmarks now (raw_landmarks sd)
          else
            match JS.get (gestureAnimations t0) g with
            | Some (first :: rest) =>
                (* gestureAnimations.length > 0: the index is in range *)
                let anims := first :: rest in
                Normal (nth (length anims / 2) anims first)
            | Some [] | None => generateGenericPoseFromLandmarks now (raw_landmarks sd)
            end
      end
  end.

(** [generateAvatarPose]: the [try] block, and the [catch] that answers
    the default pose. *)
Definition generateAvatarPose (t0 now : Z) (signData : option RawSignData)
    : Completion AvatarPose :=
  match generateAvatarPose_try t0 now signData with
  | Normal p => Normal p
  | Throw _ => Normal (createDefaultPose now)
  end.

End Poses.

(** A well-typed observation, as the handler passes it. *)
Definition raw (sd : SignLanguageData) : option RawSignData :=
  Some {| raw_recognizedGesture := recognizedGesture sd;
          raw_landmarks := Some (map Some (landmarks sd)) |}.

End Avatar3DService.

(** ** services/SimpleRealisticSignLanguageService.ts *)

Module SimpleRealisticSignLanguageService.

Record GesturePattern := {
  gp_name : string;
  gp_description : string;
  gp_confidence : JS.number
}.

Definition pattern n d c : string * GesturePattern :=
  (n, {| gp_name := n; gp_description := d; gp_confidence := c |}).

Definition aslGestures : list (string * GesturePattern) :=
  [ pattern "hello" "Open palm, fingers extended, gentle wave motion" 0.9;
    pattern "goodbye" "Palm facing out, fingers closing and opening" 0.85;
    pattern "thank_you" "Fingertips touch lips, then move forward" 0.8;
    pattern "please" "Open palm on chest, circular motion" 0.75;
    pattern "yes" "Fist nodding up and down" 0.85;
    pattern "no" "Index and middle finger extended, side to side motion" 0.8;
    pattern "help" "One hand supports the other, both lift up" 0.7;
    pattern "stop" "Palm forward, fingers up, firm gesture" 0.9;
    pattern "water" "W handshape near mouth" 0.8;
    pattern "food" "Fingertips to mouth" 0.8;
    pattern "sorry" "Fist on chest, circular motion" 0.8;
    pattern "i_love_you" "Pinky, index, and thumb extended" 0.9;
    pattern "one" "Index finger up" 0.95;
    pattern "two" "Index and middle finger up" 0.95;
    pattern "three" "Thumb, index, middle finger up" 0.9;
    pattern "four" "Four fingers up, thumb tucked" 0.9;
    pattern "five" "All fingers extended" 0.95;
    pattern "a" "Closed fist with thumb beside" 0.8;
    pattern "b" "Flat hand, fingers up" 0.85;
    pattern "c" "Curved hand forming C shape" 0.8 ]%string.

Definition getGestureDescription (gesture : string) : string :=
  match JS.get aslGestures gesture with
  | Some gestureData => gp_description gestureData
  | None => "Unknown gesture"
  end.

Definition getSupportedGestures : list (string * string * JS.number) :=
  map (fun e => (fst e, gp_description (snd e), gp_confidence (snd e))) aslGestures.

End SimpleRealisticSignLanguageService.

(** ** services/RealisticVoiceService.ts: the synchronous part *)

Module RealisticVoiceService.

Definition signToVoiceTranslations : list (string * string) :=
  [ ("hello", "Hello there! Nice to meet you."); ("goodbye", "Goodbye! Take care.");
    ("thank_you", "Thank you so much!"); ("please", "Please");
    ("yes", "Yes, absolutely."); ("no", "No, not really.");
    ("help", "Can you help me, please?"); ("stop", "Stop, please!");
    ("sorry", "I am sorry."); ("excuse_me", "Excuse me.");
    ("how_are_you", "How are you doing today?"); ("fine", "I am doing fine, thank you.");
    ("good_morning", "Good morning!"); ("good_afternoon", "Good afternoon!");
    ("good_evening", "Good evening!"); ("good_night", "Good night, sleep well.");
    ("water", "I would like some water, please.");
    ("food", "I am hungry. Can I have some food?");
    ("bathroom", "Where is the bathroom?"); ("doctor", "I need to see a doctor.");
    ("emergency", "This is an emergency! Please help!"); ("pain", "I am in pain.");
    ("tired", "I am feeling tired."); ("happy", "I am very happy!");
    ("sad", "I am feeling sad."); ("confused", "I am confused. Can you explain?");
    ("understand", "I understand now.");
    ("dont_understand", "I don't understand. Can you repeat?");
    ("repeat", "Can you please repeat that?"); ("slow_down", "Please speak more slowly.");
    ("family", "This is my family."); ("friend", "This is my friend.");
    ("work", "I need to go to work."); ("home", "I want to go home.");
    ("school", "I go to school here."); ("money", "How much does this cost?");
    ("time", "What time is it?"); ("today", "Today is a good day.");
    ("tomorrow", "See you tomorrow."); ("yesterday", "Yesterday was interesting.");
    ("zero", "Zero"); ("one", "One"); ("two", "Two"); ("three", "Three");
    ("four", "Four"); ("five", "Five"); ("six", "Six"); ("seven", "Seven");
    ("eight", "Eight"); ("nine", "Nine"); ("ten", "Ten");
    ("a", "The letter A"); ("b", "The letter B"); ("c", "The letter C");
    ("i_love_you", "I love you too!") ]%string.

(** [.replace(/_/g, ' ')] *)
Fixpoint underscoresToSpaces (s : string) : string :=
  match s with
  | EmptyString => EmptyString
  | String c s' =>
      String (if Ascii.eqb c "_" then " "%char else c) (underscoresToSpaces s')
  end.

(** [.replace(/([A-Z])/g, ' $1')] *)
Fixpoint spaceBeforeCapitals (s : string) : string :=
  match s with
  | EmptyString => EmptyString
  | String c s' =>
      if JS.isUpper c then String " " (String c (spaceBeforeCapitals s'))
      else String c (spaceBeforeCapitals s')
  end.

Fixpoint trimStart (s : string) : string :=
  match s with
  | EmptyString => EmptyString
  | String c s' => if JS.isSpace c then trimStart s' else s
  end.

(** Drops the trailing white space: a character is kept when something
    that is kept follows it, or when it is not white space. *)
Fixpoint trimEnd (s : string) : string :=
  match s with
  | EmptyString => EmptyString
  | String c s' =>
      match trimEnd s' with
      | EmptyString => if JS.isSpace c then EmptyString else String c EmptyString
      | rest => String c rest
      end
  end.

Definition trim (s : string) : string := trimEnd (trimStart s).

Definition generateFallbackVoiceText (gesture : string) : string :=
  if String.eqb gesture "unknown" || negb (JS.truthy gesture)
  then "I detected a gesture, but I'm not sure what it means."
  else
    let readable :=
      trim (JS.toLowerCase (spaceBeforeCapitals (underscoresToSpaces gesture))) in
    "I see the gesture: " +:+ readable.

(** The text spoken for a gesture: the table, or the fallback. *)
Definition voiceTextOf (gesture : string) : string :=
  match JS.get signToVoiceTranslations gesture with
  | Some t => if JS.truthy t then t else generateFallbackVoiceText gesture
  | None => generateFallbackVoiceText gesture
  end.

Definition validSampleRates : list JS.number := [16000; 22050; 44100; 48000].

(** [validateAudioFormat]; the payload comes from the socket, so it may
    be absent altogether. *)
Definition validateAudioFormat (audioData : option VoiceData) : bool :=
  match audioData with
  | None => false
  | Some audioData =>
      match audioBuffer audioData with
      | None => false
      | Some byteLength =>
          let minDuration := 0.1 in
          let maxDuration := 30 in
          JS.geb (vd_duration audioData) minDuration &&
          JS.leb (vd_duration audioData) maxDuration &&
          existsb (Qeq_bool (sampleRate audioData)) validSampleRates &&
          (0 <? byteLength)%nat
      end
  end.

End RealisticVoiceService.

(** ** The event loop: state of the handler object and resumable tasks *)

Module Runtime.

Import Avatar3DService.

Inductive AudioPath :=
| OutputPath (timestamp : Z) (counter : nat)    (* temp/audio/voice_<timestamp>_<counter>.aiff *)
| FallbackTtsUsed.                              (* 'fallback_tts_used' *)

(** The events the handler emits on a socket, with their payloads (of
    [system-ready], the avatar model and the list of voices are left
    out). *)
Inductive Event :=
| system_ready (supportedGestures : list (string * string * JS.number))
    (sessionId : string) (timestamp : Z)
| sign_detected (signData : SignLanguageData)
| avatar_pose_update (avatarPose : AvatarPose)
| text_recognized (text : string) (confidence : JS.number) (sessionId : string) (timestamp : Z)
| translation_result (translationResult : TranslationResult)
| auto_voice_played (gesture voiceText : string) (confidence : JS.number) (timestamp : Z)
| auto_avatar_gesture (gesture originalText gestureDescription : string) (timestamp : Z)
| sign_description (originalText signDescription : string) (timestamp : Z)
| health_check (timestamp : Z) (connectedClients : nat)
    (signProcessing voiceProcessing : bool) (systemStatus : string)
| error (message code : string).

Definition eventName (e : Event) : string :=
  match e with
  | system_ready _ _ _ => "system-ready"
  | sign_detected _ => "sign-detected"
  | avatar_pose_update _ => "avatar-pose-update"
  | text_recognized _ _ _ _ => "text-recognized"
  | translation_result _ => "translation-result"
  | auto_voice_played _ _ _ _ => "auto-voice-played"
  | auto_avatar_gesture _ _ _ _ => "auto-avatar-gesture"
  | sign_description _ _ _ => "sign-description"
  | health_check _ _ _ _ _ => "health-check"
  | error _ _ => "error"
  end.

Record ClientInfo := { id : string; sessionId : string; lastActivity : Z }.

(** The mutable fields of the handler and of the services it owns, the
    clock, and the log of every [socket.emit] (socket id, event). *)
Record State := {
  connectedClients : gmap string ClientInfo;
  processingQueue : gmap string bool;
  (* the clients whose healthCheckInterval timer is live *)
  healthCheckIntervals : gset string;
  (* Date.now(), and every socket.emit so far *)
  clock : Z;
  outbox : list (string * Event);
  (* RealisticVoiceService *)
  isProcessing : bool;
  tempFileCounter : nat;
  (* Avatar3DService; avatarT0 is the time the animation table was built *)
  avatarT0 : Z;
  currentPose : option AvatarPose;
  poseSequence : list AvatarPose;
  isAnimating : bool
}.

Definition set_connectedClients (f : gmap string ClientInfo -> gmap string ClientInfo) (s : State) : State :=
  {| connectedClients := f (connectedClients s);
     processingQueue := processingQueue s;
     healthCheckIntervals := healthCheckIntervals s; clock := clock s;
     outbox := outbox s; isProcessing := isProcessing s;
     tempFileCounter := tempFileCounter s; avatarT0 := avatarT0 s;
     currentPose := currentPose s; poseSequence := poseSequence s;
     isAnimating := isAnimating s |}.

Definition set_processingQueue (f : gmap string bool -> gmap string bool) (s : State) : State :=
  {| connectedClients := connectedClients s;
     processingQueue := f (processingQueue s);
     healthCheckIntervals := healthCheckIntervals s; clock := clock s;
     outbox := outbox s; isProcessing := isProcessing s;
     tempFileCounter := tempFileCounter s; avatarT0 := avatarT0 s;
     currentPose := currentPose s; poseSequence := poseSequence s;
     isAnimating := isAnimating s |}.

Definition set_healthCheckIntervals (f : gset string -> gset string) (s : State) : State :=
  {| connectedClients := connectedClients s;
     processingQueue := processingQueue s;
     healthCheckIntervals := f (healthCheckIntervals s); clock := clock s;
     outbox := outbox s; isProcessing := isProcessing s;
     tempFileCounter := tempFileCounter s; avatarT0 := avatarT0 s;
     currentPose := currentPose s; poseSequence := poseSequence s;
     isAnimating := isAnimating s |}.

Definition set_clock (f : Z -> Z) (s : State) : State :=
  {| connectedClients := connectedClients s;
     processingQueue := processingQueue s;
     healthCheckIntervals := healthCheckIntervals s; clock := f (clock s);
     outbox := outbox s; isProcessing := isProcessing s;
     tempFileCounter := tempFileCounter s; avatarT0 := avatarT0 s;
     currentPose := currentPose s; poseSequence := poseSequence s;
     isAnimating := isAnimating s |}.

Definition set_outbox (f : list (string * Event) -> list (string * Event)) (s : State) : State :=
  {| connectedClients := connectedClients s;
     processingQueue := processingQueue s;
     healthCheckIntervals := healthCheckIntervals s; clock := clock s;
     outbox := f (outbox s); isProcessing := isProcessing s;
     tempFileCounter := tempFileCounter s; avatarT0 := avatarT0 s;
     currentPose := currentPose s; poseSequence := poseSequence s;
     isAnimating := isAnimating s |}.

Definition set_isProcessing (f : bool -> bool) (s : State) : State :=
  {| connectedClients := connectedClients s;
     processingQueue := processingQueue s;
     healthCheckIntervals := healthCheckIntervals s; clock := clock s;
     outbox := outbox s; isProcessing := f (isProcessing s);
     tempFileCounter := tempFileCounter s; avatarT0 := avatarT0 s;
     currentPose := currentPose s; poseSequence := poseSequence s;
     isAnimating := isAnimating s |}.

Definition set_tempFileCounter (f : nat -> nat) (s : State) : State :=
  {| connectedClients := connectedClients s;
     processingQueue := processingQueue s;
     healthCheckIntervals := healthCheckIntervals s; clock := clock s;
     outbox := outbox s; isProcessing := isProcessing s;
     tempFileCounter := f (tempFileCounter s); avatarT0 := avatarT0 s;
     currentPose := currentPose s; poseSequence := poseSequence s;
     isAnimating := isAnimating s |}.

Definition set_avatarT0 (f : Z -> Z) (s : State) : State :=
  {| connectedClients := connectedClients s;
     processingQueue := processingQueue s;
     healthCheckIntervals := healthCheckIntervals s; clock := clock s;
     outbox := outbox s; isProcessing := isProcessing s;
     tempFileCounter := tempFileCounter s; avatarT0 := f (avatarT0 s);
     currentPose := currentPose s; poseSequence := poseSequence s;
     isAnimating := isAnimating s |}.

Definition set_currentPose (f : option AvatarPose -> option AvatarPose) (s : State) : State :=
  {| connectedClients := connectedClients s;
     processingQueue := processingQueue s;
     healthCheckIntervals := healthCheckIntervals s; clock := clock s;
     outbox := outbox s; isProcessing := isProcessing s;
     tempFileCounter := tempFileCounter s; avatarT0 := avatarT0 s;
     currentPose := f (currentPose s); poseSequence := poseSequence s;
     isAnimating := isAnimating s |}.

Definition set_poseSequence (f : list AvatarPose -> list AvatarPose) (s : State) : State :=
  {| connectedClients := connectedClients s;
     processingQueue := processingQueue s;
     healthCheckIntervals := healthCheckIntervals s; clock := clock s;
     outbox := outbox s; isProcessing := isProcessing s;
     tempFileCounter := tempFileCounter s; avatarT0 := avatarT0 s;
     currentPose := currentPose s; poseSequence := f (poseSequence s);
     isAnimating := isAnimating s |}.

Definition set_isAnimating (f : bool -> bool) (s : State) : State :=
  {| connectedClients := connectedClients s;
     processingQueue := processingQueue s;
     healthCheckIntervals := healthCheckIntervals s; clock := clock s;
     outbox := outbox s; isProcessing := isProcessing s;
     tempFileCounter := tempFileCounter s; avatarT0 := avatarT0 s;
     currentPose := currentPose s; poseSequence := poseSequence s;
     isAnimating := f (isAnimating s) |}.

(** The operations a task waits for: each is answered by the world
    outside the handler, on a later turn of the event loop. *)
Inductive Command :=
| say (text voice : string) (rate : JS.number) (outputPath : AudioPath)
| displayNotification (text : string).

Inductive Request :=
| ProcessFrame (frame : string)          (* signLanguageService.processFrame *)
| SimulatedRecognition (data : VoiceData) (* the delay and the draw of speechToText *)
| Exec (cmd : Command)                   (* execAsync *)
| FsAccess (path : AudioPath)            (* fs.access *)
| WaitForProcessing                      (* the polling loop of waitForProcessing *)
| Sleep (ms : JS.number).                (* new Promise(resolve => setTimeout(resolve, ms)) *)

(** What comes back: the perception call may resolve to an observation,
    resolve to [null], or reject; a command or a file access succeeds or
    fails; waiting only ends. *)
Definition Answer (r : Request) : Type :=
  match r with
  | ProcessFrame _ => Completion (option SignLanguageData)
  | SimulatedRecognition _ => (string * JS.number)%type
  | Exec _ => bool
  | FsAccess _ => bool
  | WaitForProcessing => unit
  | Sleep _ => unit
  end.

(** A task has either run to its end, or is suspended on a request with
    the rest of the code as a continuation, which is resumed with the
    answer and with the state as it is by then. *)
Inductive Task (A : Type) : Type :=
| Done (s : State) (c : Completion A)
| Await (s : State) (r : Request) (k : Answer r -> State -> Task A).

Arguments Done {A} s c.
Arguments Await {A} s r k.

Definition M (A : Type) : Type := State -> Task A.

Definition ret {A} (a : A) : M A := fun s => Done s (Normal a).
Definition throw {A} (e : string) : M A := fun s => Done s (Throw e).

Fixpoint bindT {A B} (t : Task A) (f : A -> M B) : Task B :=
  match t with
  | Done s (Normal a) => f a s
  | Done s (Throw e) => Done s (Throw e)
  | Await s r k => Await s r (fun ans s' => bindT (k ans s') f)
  end.

Definition bind {A B} (m : M A) (f : A -> M B) : M B := fun s => bindT (m s) f.

(** [try { m } catch (e) { h e }] *)
Fixpoint catchT {A} (t : Task A) (h : string -> M A) : Task A :=
  match t with
  | Done s (Normal a) => Done s (Normal a)
  | Done s (Throw e) => h e s
  | Await s r k => Await s r (fun ans s' => catchT (k ans s') h)
  end.

Definition tryCatch {A} (m : M A) (h : string -> M A) : M A := fun s => catchT (m s) h.

(** [try { m } finally { fin }]: [fin] runs however [m] ends, and the
    completion of [m] stands unless [fin] itself throws. *)
Fixpoint finallyT {A} (t : Task A) (fin : M unit) : Task A :=
  match t with
  | Done s c => bindT (fin s) (fun _ s' => Done s' c)
  | Await s r k => Await s r (fun ans s' => finallyT (k ans s') fin)
  end.

Definition tryFinally {A} (m : M A) (fin : M unit) : M A := fun s => finallyT (m s) fin.

Definition await (r : Request) : M (Answer r) :=
  fun s => Await s r (fun ans s' => Done s' (Normal ans)).

Definition gets {A} (f : State -> A) : M A := fun s => Done s (Normal (f s)).
Definition modify (f : State -> State) : M unit := fun s => Done (f s) (Normal tt).

(** A synchronous call that may throw. *)
Definition lift {A} (c : Completion A) : M A := fun s => Done s c.

(** [socket.emit(name, payload)] on the socket of client [cid]. *)
Definition emit (cid : string) (e : Event) : M unit :=
  modify (set_outbox (fun o => o ++ [(cid, e)])).

Definition Date_now : M Z := gets clock.

(** An answer to every request: how the world outside reacts. *)
Definition Oracle : Type := forall r : Request, Answer r.

(** Runs a task to its end, every request answered at once by [o]. *)
Fixpoint run {A} (o : Oracle) (t : Task A) : State * Completion A :=
  match t with
  | Done s c => (s, c)
  | Await s r k => run o (k (o r) s)
  end.

(** Every way the task can go, whatever the answers and whatever has
    happened to the state while it was suspended, ends in a state
    satisfying [P]. *)
Inductive always_ends {A} (P : State -> Prop) : Task A -> Prop :=
| ends_done s c : P s -> always_ends P (Done s c)
| ends_await s r k :
    (forall (ans : Answer r) (s' : State), always_ends P (k ans s')) ->
    always_ends P (Await s r k).

End Runtime.

Declare Scope task_scope.
Delimit Scope task_scope with task.
Notation "x <- m ;; k" := (Runtime.bind m (fun x => k))
  (at level 100, m at next level, k at level 200, right associativity) : task_scope.
Notation "m ;; k" := (Runtime.bind m (fun _ => k))
  (at level 100, k at level 200, right associativity) : task_scope.

(** ** The asynchronous methods of the services *)

Module Services.

Import Runtime Avatar3DService.
Local Open Scope task_scope.

(** *** RealisticVoiceService *)

Definition voiceSettings_rate : JS.number := 0.9.
Definition voiceSettings_voice : string := "Samantha".

(** [playAudioFile]: [exec(playCommand, callback)] is not awaited; the
    player process and the clean-up timer of its callback touch nothing
    the handler reads, and the call sits in a [try] that swallows a
    failure to start it. *)
Definition playAudioFile (audioPath : AudioPath) : M unit := ret tt.

Definition playTextAsSound (text : string) : M unit :=
  tryCatch
    (ok <- await (Exec (displayNotification text)) ;;
     if ok : bool then ret tt else throw "exec failed")
    (fun _ => ret tt).

Definition textToSpeech (text : string) (voice : option string) (speed : option JS.number)
    : M AudioPath :=
  tryCatch
    (busy <- gets isProcessing ;;
     (if busy : bool then await WaitForProcessing else ret tt) ;;
     modify (set_isProcessing (fun _ => true)) ;;
     timestamp <- Date_now ;;
     modify (set_tempFileCounter (fun c => (c + 1) mod 1000)%nat) ;;
     counter <- gets tempFileCounter ;;
     let outputPath := OutputPath timestamp counter in
     let voice :=
       match voice with
       | Some v => if JS.truthy v then v else voiceSettings_voice
       | None => voiceSettings_voice
       end in
     let rate :=
       match speed with
       | Some r => JS.num_or r voiceSettings_rate
       | None => voiceSettings_rate
       end in
     tryCatch
       (ok <- await (Exec (say text voice (rate * 200) outputPath)) ;;
        (if ok : bool then ret tt else throw "exec failed") ;;
        found <- await (FsAccess outputPath) ;;
        (if found : bool then ret tt else throw "ENOENT") ;;
        playAudioFile outputPath ;;
        modify (set_isProcessing (fun _ => false)) ;;
        ret outputPath)
       (fun execError =>
          playTextAsSound text ;;
          modify (set_isProcessing (fun _ => false)) ;;
          ret FallbackTtsUsed))
    (fun err =>
       modify (set_isProcessing (fun _ => false)) ;;
       throw err).

Definition generateVoiceFromGesture (gesture : string) : M string :=
  tryCatch
    (let voiceText := RealisticVoiceService.voiceTextOf gesture in
     audioPath <- textToSpeech voiceText None None ;;
     ret voiceText)
    (fun err => throw err).

(** [speechToText]: the recognition is simulated; the delay and the
    random draw of the transcription are one request to the world. *)
Definition speechToText (audioData : VoiceData) : M (string * JS.number) :=
  tryCatch
    (busy <- gets isProcessing ;;
     (if busy : bool then await WaitForProcessing else ret tt) ;;
     modify (set_isProcessing (fun _ => true)) ;;
     result <- await (SimulatedRecognition audioData) ;;
     modify (set_isProcessing (fun _ => false)) ;;
     ret result)
    (fun err =>
       modify (set_isProcessing (fun _ => false)) ;;
       throw err).

(** *** Avatar3DService *)

(** The loop of [playGestureSequence] over the poses. *)
Fixpoint playPoses (animations : list AvatarPose) : M unit :=
  match animations with
  | [] => ret tt
  | pose :: rest =>
      modify (set_currentPose (fun _ => Some pose)) ;;
      await (Sleep (duration pose)) ;;
      playPoses rest
  end.

Definition playGestureSequence (gesture : string) : M unit :=
  tryCatch
    (t0 <- gets avatarT0 ;;
     match JS.get (gestureAnimations t0) gesture with
     | None | Some [] => ret tt
     | Some animations =>
         modify (set_isAnimating (fun _ => true)) ;;
         modify (set_poseSequence (fun _ => animations)) ;;
         playPoses animations ;;
         now <- Date_now ;;
         modify (set_currentPose (fun _ => Some (createDefaultPose now))) ;;
         modify (set_isAnimating (fun _ => false))
     end)
    (fun err => modify (set_isAnimating (fun _ => false))).

Section WithMath.
Context {ML : MathLib}.

(** [generateAvatarPose] is [async] but waits for nothing. *)
Definition generateAvatarPose (signData : SignLanguageData) : M AvatarPose :=
  t0 <- gets avatarT0 ;;
  now <- Date_now ;;
  lift (Avatar3DService.generateAvatarPose t0 now (Avatar3DService.raw signData)).

End WithMath.

End Services.

(** ** websocket/RealisticWebSocketHandler.ts *)

Module RealisticWebSocketHandler.

Import Runtime Services.
Local Open Scope task_scope.

Definition gestureKeywords : list (string * string) :=
  [ (* Greetings *)
    ("hello", "hello"); ("hi", "hello"); ("hey", "hello");
    ("goodbye", "goodbye"); ("bye", "goodbye"); ("see you", "goodbye");
    ("good morning", "good_morning"); ("good afternoon", "good_afternoon");
    ("good evening", "good_evening"); ("good night", "good_night");
    (* Courtesy *)
    ("thank you", "thank_you"); ("thanks", "thank_you"); ("thank", "thank_you");
    ("please", "please"); ("sorry", "sorry"); ("excuse me", "excuse_me");
    (* Basic responses *)
    ("yes", "yes"); ("yeah", "yes"); ("okay", "yes"); ("ok", "yes");
    ("no", "no"); ("nope", "no"); ("not", "no");
    (* Actions *)
    ("help", "help"); ("stop", "stop"); ("wait", "stop");
    (* Needs *)
    ("water", "water"); ("drink", "water"); ("thirsty", "water");
    ("food", "food"); ("eat", "food"); ("hungry", "food");
    ("bathroom", "bathroom"); ("restroom", "bathroom"); ("toilet", "bathroom");
    (* Emotions *)
    ("happy", "happy"); ("sad", "sad"); ("tired", "tired");
    ("pain", "pain"); ("hurt", "pain");
    (* Relationships *)
    ("love you", "i_love_you"); ("love", "i_love_you");
    ("family", "family"); ("friend", "friend");
    (* Places *)
    ("home", "home"); ("work", "work"); ("school", "school");
    (* Time *)
    ("time", "time"); ("today", "today"); ("tomorrow", "tomorrow");
    ("yesterday", "yesterday");
    (* Understanding *)
    ("understand", "understand"); ("confused", "confused"); ("repeat", "repeat");
    ("dont understand", "dont_understand"); ("don't understand", "dont_understand");
    ("slow down", "slow_down"); ("slower", "slow_down") ]%string.

(** [numbers[i]] with [i.toString()]. *)
Definition numbers : list (string * string) :=
  [ ("zero", "0"); ("one", "1"); ("two", "2"); ("three", "3"); ("four", "4");
    ("five", "5"); ("six", "6"); ("seven", "7"); ("eight", "8"); ("nine", "9");
    ("ten", "10") ]%string.

Definition letters : list string := [ "a"; "b"; "c"; "d"; "e" ]%string.

Definition extractGestureFromText (text : string) : option string :=
  let lowerText := JS.toLowerCase text in
  match find (fun kv => JS.includes lowerText (fst kv)) gestureKeywords with
  | Some (keyword, gesture) => Some gesture
  | None =>
      match find (fun n => JS.includes lowerText (fst n) || JS.includes lowerText (snd n)) numbers with
      | Some (word, _) => Some word
      | None =>
          find (fun letter => JS.includes lowerText ("letter " +:+ letter) ||
                              String.eqb lowerText letter) letters
      end
  end.

Definition generateSignDescription (text : string) : string :=
  let words := JS.splitChar " " text EmptyString in
  let shortText := JS.join " " (firstn 6 words) in
  if (length words <=? 3)%nat
  then "Spell out: " +:+ JS.dquote +:+ shortText +:+ JS.dquote +:+ " using fingerspelling"
  else "Sign language representation: " +:+ JS.dquote +:+ shortText +:+ JS.dquote +:+
       " - Use combination of gestures and fingerspelling".

Definition signKey (clientId : string) : string := "sign-" +:+ clientId.
Definition voiceKey (clientId : string) : string := "voice-" +:+ clientId.

(** [this.processingQueue.get(key)] read as a condition. *)
Definition isBusy (key : string) (s : State) : bool :=
  match processingQueue s !! key with
  | Some true => true
  | _ => false
  end.

Definition setBusy (key : string) (b : bool) : M unit :=
  modify (set_processingQueue (fun q => <[key := b]> q)).

Definition updateClientActivity (clientId : string) : M unit :=
  modify (fun s =>
    match connectedClients s !! clientId with
    | Some client =>
        set_connectedClients
          (fun m => <[clientId := {| id := id client; sessionId := sessionId client;
                                     lastActivity := clock s |}]> m) s
    | None => s
    end).

(** A gesture name that is present and is not ['unknown']. *)
Definition knownGesture (g : option string) : option string :=
  match g with
  | Some name => if JS.truthy name && negb (String.eqb name "unknown") then Some name else None
  | None => None
  end.

Definition processSignToVoiceAuto (signData : SignLanguageData) (socket : string) : M unit :=
  tryCatch
    (match knownGesture (recognizedGesture signData) with
     | None => ret tt
     | Some gesture =>
         voiceText <- generateVoiceFromGesture gesture ;;
         now <- Date_now ;;
         emit socket (translation_result
           {| originalType := sign; translatedText := voiceText;
              tr_confidence := sd_confidence signData; tr_timestamp := now;
              tr_sessionId := sd_sessionId signData |}) ;;
         now' <- Date_now ;;
         emit socket (auto_voice_played gesture voiceText (sd_confidence signData) now')
     end)
    (fun err =>
       emit socket (error "Failed to auto-convert sign to voice" "AUTO_SIGN_TO_VOICE_ERROR")).

Definition processVoiceToSignAuto (text : string) (socket : string) (sessionId : string) : M unit :=
  tryCatch
    (match extractGestureFromText text with
     | Some gesture =>
         (* every gesture name of the tables is a non-empty string *)
         playGestureSequence gesture ;;
         now <- Date_now ;;
         emit socket (translation_result
           {| originalType := voice; translatedText := "Sign gesture: " +:+ gesture;
              tr_confidence := 0.85; tr_timestamp := now; tr_sessionId := sessionId |}) ;;
         now' <- Date_now ;;
         emit socket (auto_avatar_gesture gesture text
           (SimpleRealisticSignLanguageService.getGestureDescription gesture) now')
     | None =>
         let signDescription := generateSignDescription text in
         now <- Date_now ;;
         emit socket (translation_result
           {| originalType := voice; translatedText := signDescription;
              tr_confidence := 0.6; tr_timestamp := now; tr_sessionId := sessionId |}) ;;
         now' <- Date_now ;;
         emit socket (sign_description text signDescription now')
     end)
    (fun err =>
       emit socket (error "Failed to auto-convert voice to sign" "AUTO_VOICE_TO_SIGN_ERROR")).

Section Handlers.
Context {ML : MathLib}.

(** The part of the ['video-frame'] handler that follows the busy test. *)
Definition processVideoFrame (clientId sessionId frame : string) : M unit :=
  setBusy (signKey clientId) true ;;
  updateClientActivity clientId ;;
  outcome <- await (ProcessFrame frame) ;;
  result <- lift outcome ;;
  match result with
  | None => ret tt
  | Some signData =>
      let signData :=
        {| landmarks := landmarks signData; sd_confidence := sd_confidence signData;
           sd_timestamp := sd_timestamp signData; sd_sessionId := sessionId;
           recognizedGesture := recognizedGesture signData;
           gestureDescription :=
             match knownGesture (recognizedGesture signData) with
             | Some g => Some (SimpleRealisticSignLanguageService.getGestureDescription g)
             | None => gestureDescription signData
             end |} in
      emit clientId (sign_detected signData) ;;
      avatarPose <- generateAvatarPose signData ;;
      emit clientId (avatar_pose_update avatarPose) ;;
      match knownGesture (recognizedGesture signData) with
      | Some _ =>
          if JS.gtb (sd_confidence signData) 0.7
          then processSignToVoiceAuto signData clientId
          else ret tt
      | None => ret tt
      end
  end.

(** [socket.on('video-frame', ...)] *)
Definition onVideoFrame (clientId sessionId frame : string) : M unit :=
  tryFinally
    (tryCatch
       (busy <- gets (isBusy (signKey clientId)) ;;
        if busy : bool then ret tt      (* return: skip if already processing *)
        else processVideoFrame clientId sessionId frame)
       (fun err =>
          emit clientId (error "Failed to process video frame" "REALISTIC_SIGN_PROCESSING_ERROR")))
    (setBusy (signKey clientId) false).

(** The part of the ['audio-data'] handler that follows the busy test. *)
Definition processAudioData (clientId sessionId : string) (data : option VoiceData) : M unit :=
  setBusy (voiceKey clientId) true ;;
  updateClientActivity clientId ;;
  match data with
  | Some audioData =>
      if RealisticVoiceService.validateAudioFormat data then
        speechResult <- speechToText audioData ;;
        now <- Date_now ;;
        emit clientId (text_recognized (fst speechResult) (snd speechResult) sessionId now) ;;
        processVoiceToSignAuto (fst speechResult) clientId sessionId
      else emit clientId (error "Invalid audio format" "AUDIO_FORMAT_ERROR")   (* return *)
  | None => emit clientId (error "Invalid audio format" "AUDIO_FORMAT_ERROR")  (* return *)
  end.

(** [socket.on('audio-data', ...)] *)
Definition onAudioData (clientId sessionId : string) (data : option VoiceData) : M unit :=
  tryFinally
    (tryCatch
       (busy <- gets (isBusy (voiceKey clientId)) ;;
        if busy : bool then ret tt      (* return: skip if already processing *)
        else processAudioData clientId sessionId data)
       (fun err =>
          emit clientId (error "Failed to process audio data" "REALISTIC_VOICE_PROCESSING_ERROR")))
    (setBusy (voiceKey clientId) false).

End Handlers.

(** [socket.on('disconnect', ...)] *)
Definition onDisconnect (clientId : string) : M unit :=
  modify (set_connectedClients (fun m => delete clientId m)) ;;
  modify (set_processingQueue (fun q => delete (signKey clientId) q)) ;;
  modify (set_processingQueue (fun q => delete (voiceKey clientId) q)).

Definition healthCheckPeriod : Z := 10000.

(** The callback of [healthCheckInterval]. *)
Definition healthCheck (clientId : string) : M unit :=
  registered <- gets (fun s => bool_decide (is_Some (connectedClients s !! clientId))) ;;
  if registered : bool then
    now <- Date_now ;;
    n <- gets (fun s => size (connectedClients s)) ;;
    signProcessing <- gets (isBusy (signKey clientId)) ;;
    voiceProcessing <- gets (isBusy (voiceKey clientId)) ;;
    emit clientId (health_check now n signProcessing voiceProcessing "operational")
  else
    (* clearInterval(healthCheckInterval) *)
    modify (set_healthCheckIntervals (fun t => t ∖ {[clientId]})).

(** [this.io.on('connection', ...)]: the part that runs at once. *)
Definition onConnection (clientId sessionId : string) : M unit :=
  now <- Date_now ;;
  modify (set_connectedClients
    (fun m => <[clientId := {| id := clientId; sessionId := sessionId; lastActivity := now |}]> m)) ;;
  now' <- Date_now ;;
  emit clientId (system_ready SimpleRealisticSignLanguageService.getSupportedGestures sessionId now') ;;
  (* setInterval(..., 10000) *)
  modify (set_healthCheckIntervals (fun t => t ∪ {[clientId]})).

End RealisticWebSocketHandler.

(** ** The event loop around the handler *)

Module EventLoop.

Import Runtime RealisticWebSocketHandler.

Inductive Stage := GestureProcessing | SpeechProcessing.

Definition Stage_eqb (a b : Stage) : bool :=
  match a, b with
  | GestureProcessing, GestureProcessing | SpeechProcessing, SpeechProcessing => true
  | _, _ => false
  end.

(** A dispatch that is waiting for the answer to a request. *)
Record Suspended := {
  owner : string;
  stage : Stage;
  request : Request;
  resume : Answer request -> State -> Task unit
}.

(** The handler object, the sockets that are open (with the session id
    their closures hold), and the dispatches in flight. *)
Record World := {
  state : State;
  sockets : gmap string string;
  suspended : list Suspended
}.

(** What a turn of the event loop can be. *)
Inductive Input :=
| Connection (clientId sessionId : string)
| VideoFrame (clientId frame : string)
| AudioData (clientId : string) (data : option VoiceData)
| Disconnect (clientId : string)
| Settle (i : nat) (o : Oracle)       (* the request of the i-th dispatch in flight is answered *)
| IntervalFires (clientId : string)   (* a period of the client's health check timer has elapsed *)
| ClockAdvances (t : Z).

(** Takes a task as far as it goes in this turn. *)
Definition advance (clientId : string) (stg : Stage) (t : Task unit) (w : World) : World :=
  match t with
  | Done s _ => {| state := s; sockets := sockets w; suspended := suspended w |}
  | Await s r k =>
      {| state := s; sockets := sockets w;
         suspended := suspended w ++
           [ {| owner := clientId; stage := stg; request := r; resume := k |} ] |}
  end.

Section Loop.
Context {ML : MathLib}.

Definition step (w : World) (i : Input) : World :=
  match i with
  | Connection clientId sessionId =>
      match sockets w !! clientId with
      | Some _ => w
      | None =>
          advance clientId GestureProcessing (onConnection clientId sessionId (state w))
            {| state := state w; sockets := <[clientId := sessionId]> (sockets w);
               suspended := suspended w |}
      end
  | VideoFrame clientId frame =>
      match sockets w !! clientId with
      | Some sessionId =>
          advance clientId GestureProcessing (onVideoFrame clientId sessionId frame (state w)) w
      | None => w
      end
  | AudioData clientId data =>
      match sockets w !! clientId with
      | Some sessionId =>
          advance clientId SpeechProcessing (onAudioData clientId sessionId data (state w)) w
      | None => w
      end
  | Disconnect clientId =>
      match sockets w !! clientId with
      | Some _ =>
          advance clientId GestureProcessing (onDisconnect clientId (state w))
            {| state := state w; sockets := delete clientId (sockets w);
               suspended := suspended w |}
      | None => w
      end
  | Settle i o =>
      match suspended w !! i with
      | Some d =>
          advance (owner d) (stage d) (resume d (o (request d)) (state w))
            {| state := state w; sockets := sockets w;
               suspended := take i (suspended w) ++ drop (S i) (suspended w) |}
      | None => w
      end
  | IntervalFires clientId =>
      if bool_decide (clientId ∈ healthCheckIntervals (state w))
      then advance clientId GestureProcessing (healthCheck clientId (state w)) w
      else w
  | ClockAdvances t =>
      {| state := set_clock (fun _ => t) (state w); sockets := sockets w;
         suspended := suspended w |}
  end.

Definition steps (w : World) (l : list Input) : World := fold_left step l w.

End Loop.

(** The dispatches of a stage that a client has in flight. *)
Definition inFlight (stg : Stage) (clientId : string) (w : World) : nat :=
  length (List.filter (fun d => String.eqb (owner d) clientId && Stage_eqb (stage d) stg)
                 (suspended w)).

(** Those of them that wait for the perception call itself. *)
Definition awaitingPerception (clientId : string) (w : World) : nat :=
  length (List.filter (fun d => String.eqb (owner d) clientId &&
                           match request d with ProcessFrame _ => true | _ => false end)
                 (suspended w)).

(** The events emitted on the socket of a client. *)
Definition emitted (clientId : string) (s : State) : list Event :=
  map snd (List.filter (fun e => String.eqb (fst e) clientId) (outbox s)).

(** The time stamps of the health checks in a list of events. *)
Definition healthChecks (l : list Event) : list Z :=
  omap (fun e => match e with health_check t _ _ _ _ => Some t | _ => None end) l.

(** The handler as constructed at time [now], nobody connected. *)
Definition initialState (now : Z) : State :=
  {| connectedClients := ∅; processingQueue := ∅; healthCheckIntervals := ∅;
     clock := now; outbox := []; isProcessing := false; tempFileCounter := 0;
     avatarT0 := now; currentPose := Some (Avatar3DService.createDefaultPose now);
     poseSequence := []; isAnimating := false |}.

Definition initialWorld (now : Z) : World :=
  {| state := initialState now; sockets := ∅; suspended := [] |}.

(** [n] periods of the health check timer of a client, the first one
    ending [healthCheckPeriod] after [start]. *)
Fixpoint periods (clientId : string) (start : Z) (n : nat) : list Input :=
  match n with
  | O => []
  | S n' =>
      ClockAdvances (start + healthCheckPeriod) :: IntervalFires clientId ::
      periods clientId (start + healthCheckPeriod) n'
  end.

(** The life of a session over [N] milliseconds from its connection at
    time [c]: the timer periods that fit, and the disconnection at time
    [t] when there is one. *)
Definition session (clientId sessionId : string) (c N : Z) (disconnectAt : option Z) : list Input :=
  let n := Z.to_nat (N / healthCheckPeriod) in
  match disconnectAt with
  | None => Connection clientId sessionId :: periods clientId c n
  | Some t =>
      let k := Z.to_nat ((t - c) / healthCheckPeriod) in
      Connection clientId sessionId :: periods clientId c k ++
      ClockAdvances t :: Disconnect clientId ::
      periods clientId (c + Z.of_nat k * healthCheckPeriod) (n - k)
  end.

End EventLoop.

(** ** services/SimpleRealisticSignLanguageService.ts: the simulated detector *)

Module SimulatedDetection.

Import SimpleRealisticSignLanguageService.

Definition bufferSize : nat := 10.

Record BufferedFrame := {
  bf_landmarks : list (list JS.number);
  bf_timestamp : Z;
  bf_gesture : string
}.

(** [calculateRealisticConfidence]; [random] is the draw of
    [Math.random()]. *)
Definition calculateRealisticConfidence (random baseConfidence : JS.number) : JS.number :=
  let variance := (random - 0.5) * 0.2 in
  Qmax 0.1 (Qmin 1.0 (baseConfidence + variance)).

Section WithMath.
Context {ML : MathLib}.

(** The three coordinates pushed for landmark [i]; [random] is the draw
    made for this landmark (the wrist makes none). *)
Definition landmarkPoint (baseX baseY baseZ : JS.number) (i : nat) (random : JS.number)
    : list JS.number :=
  if (i =? 0)%nat then [ baseX; baseY + 0.1; baseZ ]
  else if (i <=? 4)%nat then
    let angle := (JS.of_nat i - 1) * 0.3 - 0.5 in
    [ baseX - 0.05 + Math_cos angle * 0.08; baseY + Math_sin angle * 0.06;
      baseZ + random * 0.02 ]
  else if (i <=? 8)%nat then
    let progress := (JS.of_nat i - 5) / 3 in
    [ baseX + 0.02 + progress * 0.08; baseY - progress * 0.12; baseZ + random * 0.01 ]
  else if (i <=? 12)%nat then
    let progress := (JS.of_nat i - 9) / 3 in
    [ baseX + progress * 0.08; baseY - progress * 0.14; baseZ + random * 0.01 ]
  else if (i <=? 16)%nat then
    let progress := (JS.of_nat i - 13) / 3 in
    [ baseX - 0.02 + progress * 0.08; baseY - progress * 0.12; baseZ + random * 0.01 ]
  else
    let progress := (JS.of_nat i - 17) / 3 in
    [ baseX - 0.04 + progress * 0.06; baseY - progress * 0.10; baseZ + random * 0.01 ].

(** [generateRealisticLandmarks]; [rnd n] is the [n]-th draw of
    [Math.random()] in the call: three for the base position, then one
    for each landmark after the wrist. *)
Definition generateRealisticLandmarks (rnd : nat -> JS.number) : list (list JS.number) :=
  let baseX := 0.5 + (rnd 0%nat - 0.5) * 0.3 in
  let baseY := 0.6 + (rnd 1%nat - 0.5) * 0.2 in
  let baseZ := rnd 2%nat * 0.1 in
  [ flat_map (fun i => landmarkPoint baseX baseY baseZ i (rnd (2 + i)%nat)) (seq 0 21) ].

(** [processFrame]; [rnd n] is the [n]-th draw of the call, [tPush] and
    [tReturn] are the two readings of the clock. An index outside the
    vocabulary leaves [gestureInfo] undefined, and reading its confidence
    throws into the [catch], which answers [null]. *)
Definition processFrame (rnd : nat -> JS.number) (gestureBuffer : list BufferedFrame)
    (tPush tReturn : Z) : list BufferedFrame * option SignLanguageData :=
  let shouldDetectGesture := JS.gtb (rnd 0%nat) 0.7 in
  if negb shouldDetectGesture then (gestureBuffer, None)
  else
    let gestureNames := map fst aslGestures in
    let index := Qfloor (rnd 1%nat * JS.of_nat (length gestureNames)) in
    let randomGesture :=
      if (index <? 0)%Z then None else nth_error gestureNames (Z.to_nat index) in
    match randomGesture with
    | None => (gestureBuffer, None)
    | Some randomGesture =>
        match JS.get aslGestures randomGesture with
        | None => (gestureBuffer, None)
        | Some gestureInfo =>
            let landmarks := generateRealisticLandmarks (fun n => rnd (2 + n)%nat) in
            let confidence :=
              calculateRealisticConfidence (rnd 25%nat) (gp_confidence gestureInfo) in
            let pushed :=
              gestureBuffer ++
              [ {| bf_landmarks := landmarks; bf_timestamp := tPush;
                   bf_gesture := randomGesture |} ] in
            let gestureBuffer' :=
              if (bufferSize <? length pushed)%nat then tail pushed else pushed in
            (gestureBuffer',
             Some {| landmarks := landmarks; sd_confidence := confidence;
                     sd_timestamp := tReturn; sd_sessionId := "";
                     recognizedGesture := Some randomGesture;
                     gestureDescription := Some (gp_description gestureInfo) |})
        end
    end.

End WithMath.

End SimulatedDetection.

(** ** What a task guarantees *)

Module Outcomes.

Import Runtime.

(** Every way the task can go, whatever the answers and whatever has
    happened to the state while it was suspended, ends in a state and
    with a completion that satisfy [P]. *)
Inductive always_completes {A} (P : State -> Completion A -> Prop) : Task A -> Prop :=
| completes_done s c : P s c -> always_completes P (Done s c)
| completes_await s r k :
    (forall (ans : Answer r) (s' : State), always_completes P (k ans s')) ->
    always_completes P (Await s r k).

(** The task keeps [Q]: as long as what happens to the state while the
    task is suspended keeps [Q], so does every state the task leaves. *)
Inductive keeps {A} (Q : State -> Prop) : Task A -> Prop :=
| keeps_done s c : Q s -> keeps Q (Done s c)
| keeps_await s r k :
    Q s ->
    (forall (ans : Answer r) (s' : State), Q s' -> keeps Q (k ans s')) ->
    keeps Q (Await s r k).

(** The task keeps [Q] and ends with [P]: as long as what happens to
    the state while the task is suspended keeps [Q], every state the task
    leaves satisfies [Q], and its end satisfies [P]. *)
Inductive keeps_until {A} (Q : State -> Prop) (P : State -> Completion A -> Prop)
    : Task A -> Prop :=
| until_done s c : Q s -> P s c -> keeps_until Q P (Done s c)
| until_await s r k :
    Q s ->
    (forall (ans : Answer r) (s' : State), Q s' -> keeps_until Q P (k ans s')) ->
    keeps_until Q P (Await s r k).

End Outcomes.

(** ** Vocabulary of the properties *)

(** The condition under which a clip is accepted. *)
Definition acceptableAudio (audioData : option VoiceData) : Prop :=
  exists d byteLength,
    audioData = Some d /\ audioBuffer d = Some byteLength /\ (0 < byteLength)%nat /\
    0.1 <= vd_duration d /\ vd_duration d <= 30 /\
    (sampleRate d == 16000 \/ sampleRate d == 22050 \/
     sampleRate d == 44100 \/ sampleRate d == 48000).

(** Landmark data from which no pose can be read: absent, empty, or
    with a first row that is absent or shorter than 21 points. *)
Definition noUsableLandmarks (lm : option (list (option (list JS.number)))) : Prop :=
  lm = None \/ lm = Some [] \/
  (exists rest, lm = Some (None :: rest)) \/
  (exists row rest, lm = Some (Some row :: rest) /\ (length row < 63)%nat).

(** The trace on which a third frame overtakes the first one: the
    client connects and sends three frames before the perception call of
    the first has been answered. *)
Definition threeFrames : list EventLoop.Input :=
  [ EventLoop.Connection "c1" "s1"; EventLoop.VideoFrame "c1" "frame1";
    EventLoop.VideoFrame "c1" "frame2"; EventLoop.VideoFrame "c1" "frame3" ]%string.

(** The times at which a timer started at [start] fires in its first
    [n] periods. *)
Fixpoint tickTimes (start : Z) (n : nat) : list Z :=
  match n with
  | O => []
  | S n' =>
      (start + RealisticWebSocketHandler.healthCheckPeriod)%Z ::
      tickTimes (start + RealisticWebSocketHandler.healthCheckPeriod) n'
  end.

(** The world outside answering every perception call with [result],
    and every command and file check with [ok]. *)
Definition answering (result : option SignLanguageData) (ok : bool) : Runtime.Oracle :=
  fun r =>
    match r with
    | Runtime.ProcessFrame _ => Normal result
    | Runtime.SimulatedRecognition _ => ("Hello, how are you today?"%string, 0.9)
    | Runtime.Exec _ => ok
    | Runtime.FsAccess _ => ok
    | Runtime.WaitForProcessing => tt
    | Runtime.Sleep _ => tt
    end.

(** The world outside at its worst: the perception call rejects and
    every command fails. *)
Definition failing : Runtime.Oracle :=
  fun r =>
    match r with
    | Runtime.ProcessFrame _ => Throw "perception failed"
    | Runtime.SimulatedRecognition _ => (EmptyString, 0)
    | Runtime.Exec _ => false
    | Runtime.FsAccess _ => false
    | Runtime.WaitForProcessing => tt
    | Runtime.Sleep _ => tt
    end.

(** An observation of "hello" with a given confidence. *)
Definition helloObservation (c : JS.number) : SignLanguageData :=
  {| landmarks := []; sd_confidence := c; sd_timestamp := 0; sd_sessionId := "";
     recognizedGesture := Some "hello"%string; gestureDescription := None |}.

(** The same with a perception call that is answered at once (as the
    simulated detector does): the first dispatch is then waiting for the
    synthesiser when the other two frames arrive. *)
Definition threeFramesWhileSpeaking : list EventLoop.Input :=
  [ EventLoop.Connection "c1" "s1"; EventLoop.VideoFrame "c1" "frame1";
    EventLoop.Settle 0 (answering (Some (helloObservation 0.9)) true);
    EventLoop.VideoFrame "c1" "frame2"; EventLoop.VideoFrame "c1" "frame3" ]%string.

(** The landmarks of an open hand held up: the wrist below every
    finger tip (a larger [y] is lower in the image). *)
Definition openHand : list (list JS.number) := [ 0 :: 1 :: repeat 0 61 ].

(** A stand-in for the trigonometry of the platform, for the examples:
    the events of a dispatch do not depend on it. *)
Definition plainMath : MathLib :=
  {| Math_atan2 := fun _ _ => 0; Math_sin := fun _ => 0; Math_cos := fun _ => 1 |}.

(** The codes of the errors whose [catch] block no dispatch reaches. *)
Definition unreachableErrors : list string :=
  [ "REALISTIC_VOICE_PROCESSING_ERROR"; "AUTO_VOICE_TO_SIGN_ERROR";
    "AUTO_SIGN_TO_VOICE_ERROR" ]%string.

(** No socket has been sent an error with one of the [codes]. *)
Definition neverSent (codes : list string) (s : Runtime.State) : Prop :=
  forall cid message code,
    In (cid, Runtime.error message code) (Runtime.outbox s) -> ~ In code codes.

(** * Properties *)

Import Runtime Services RealisticWebSocketHandler EventLoop.

(** ** The translation engine *)

Section TranslationProperties.
Import TranslationService.

(** What [.includes] computes: the keyword occurs somewhere in the text. *)
Lemma startsWith_spec (s k : string) :
  JS.startsWith s k = true <-> exists b, s = k +:+ b.
Proof.
  revert s; induction k as [|a k IH]; intros s; simpl.
  - split; [intros _; exists s; reflexivity | reflexivity].
  - destruct s as [|c s]; simpl.
    + split; [discriminate | intros [b Hb]; discriminate].
    + rewrite andb_true_iff, IH. split.
      * intros [Hac [b ->]]. apply Ascii.eqb_eq in Hac as ->. exists b; reflexivity.
      * intros [b Hb]. injection Hb as -> ->. split; [apply Ascii.eqb_refl | eauto].
Qed.

Lemma includes_spec (s k : string) :
  JS.includes s k = true <-> exists a b, s = a +:+ k +:+ b.
Proof.
  induction s as [|c s IH].
  - cbn [JS.includes]. rewrite orb_false_r, startsWith_spec. split.
    + intros [b Hb]. exists EmptyString, b. exact Hb.
    + intros [a [b Hab]]. destruct a; [eauto | discriminate].
  - cbn [JS.includes]. rewrite orb_true_iff, startsWith_spec, IH. split.
    + intros [[b Hb] | [a [b Hab]]].
      * exists EmptyString, b. exact Hb.
      * exists (String c a), b. simpl. now rewrite Hab.
    + intros [a [b Hab]]. destruct a as [|c' a].
      * left. exists b. exact Hab.
      * right. simpl in Hab. injection Hab as _ ->. eauto.
Qed.

(** C4 (the code departs from the claim). [textToSign] of the empty
    string, and of white space only, does not answer "no result": the
    split yields empty tokens, every key of the word map [includes] the
    empty token, and so each of them is taken for a partial match of the
    first key, "hello". The result carries the wave animation and the
    confidence 0.6. *)
Theorem C4_textToSign_blank_input_yields_a_result :
  (exists r, textToSign "" = Some r /\
             animations r = createWaveAnimation /\ confidence r == 0.6) /\
  (exists r, textToSign "   " = Some r /\
             animations r = createWaveAnimation ++ createWaveAnimation /\
             confidence r == 0.6) /\
  JS.split_ws "" = [EmptyString] /\
  findPartialGestureMatch "" = Some "hello"%string.
Proof.
  repeat split.
  - eexists. split; [vm_compute; reflexivity |]. split; reflexivity.
  - eexists. split; [vm_compute; reflexivity |]. split; reflexivity.
Qed.

(** C6. [textToSign("hello")] is a result of confidence at least 0.9
    with a non-empty animation sequence; [textToSign("xyzzyqq")], whose
    token matches no key of the word map in either direction, is a
    result of confidence 0.4 whose animation is the fingerspelling of the
    token. *)
Theorem C6_textToSign_hello_and_fallback :
  (exists r, textToSign "hello" = Some r /\
             0.9 <= confidence r /\ animations r <> []) /\
  (JS.get wordToGestureMap "xyzzyqq" = None /\
   findPartialGestureMatch "xyzzyqq" = None /\
   exists r, textToSign "xyzzyqq" = Some r /\
             confidence r == 0.4 /\
             animations r = [createFingerspellingAnimation "xyzzyqq"]).
Proof.
  split.
  - eexists. split; [vm_compute; reflexivity |]. split.
    + vm_compute. discriminate.
    + discriminate.
  - split; [reflexivity |]. split; [reflexivity |].
    eexists. split; [vm_compute; reflexivity |]. split; reflexivity.
Qed.

(** C7. Whenever [signToText] answers a result, the classifier has
    recognised a gesture, and the confidence of the result is the
    minimum of the classifier's confidence and the confidence declared
    by the observation; it never exceeds the latter. *)
Theorem C7_signToText_confidence_is_minimum
    (buffer buffer' : list BufferedGesture) (signData : SignLanguageData)
    (tPush tClean : Z) (r : SignTranslationResult) :
  signToText buffer signData tPush tClean = (buffer', Some r) ->
  exists g, recognizeGestureFromLandmarks (landmarks signData) = Some g /\
            st_confidence r = Qmin (cl_confidence g) (sd_confidence signData) /\
            st_confidence r <= cl_confidence g /\
            st_confidence r <= sd_confidence signData.
Proof.
  unfold signToText. intros H.
  destruct (recognizeGestureFromLandmarks (landmarks signData)) as [g|]; [|discriminate].
  destruct (gestureSequenceToText _) as [t|]; [|discriminate].
  injection H as _ <-. exists g. cbn [st_confidence].
  split; [reflexivity |]. split; [reflexivity |].
  split; [apply Q.le_min_l | apply Q.le_min_r].
Qed.

Lemma C7_signToText_confidence_is_minimum_witness :
  let signData :=
    {| landmarks := openHand; sd_confidence := 0.5; sd_timestamp := 1000;
       sd_sessionId := "s1"; recognizedGesture := None; gestureDescription := None |} in
  let result := {| st_text := "Hello"; st_confidence := 0.5; st_gesture := "hello" |} in
  signToText [] signData 1000 1001 =
    ([ {| bg_gesture := "hello"; bg_timestamp := 1000 |} ], Some result) /\
  st_confidence result <= sd_confidence signData.
Proof.
  cbv zeta. split; [vm_compute; reflexivity |].
  destruct (C7_signToText_confidence_is_minimum [] _ _ 1000 1001 _
              (eq_refl : signToText []
                 {| landmarks := openHand; sd_confidence := 0.5; sd_timestamp := 1000;
                    sd_sessionId := "s1"; recognizedGesture := None;
                    gestureDescription := None |} 1000 1001 =
                 ([ {| bg_gesture := "hello"; bg_timestamp := 1000 |} ],
                  Some {| st_text := "Hello"; st_confidence := 0.5; st_gesture := "hello" |})))
    as (g & _ & _ & _ & H).
  exact H.
Defined.

End TranslationProperties.

(** ** Keyword extraction *)

Section ExtractionProperties.
Import RealisticWebSocketHandler.

Lemma find_first_match {A} (f : A -> bool) (pre post : list A) (a : A) :
  Forall (fun b => f b = false) pre -> f a = true ->
  find f (pre ++ a :: post) = Some a.
Proof.
  induction 1 as [|b pre Hb _ IH]; intros Ha; simpl.
  - now rewrite Ha.
  - rewrite Hb. exact (IH Ha).
Qed.

(** C5. The gesture extracted from a text is the gesture of the first
    entry of [gestureKeywords], in the order of its declaration, whose
    keyword the lower-cased text includes; and "thank you so much"
    yields "thank_you". *)
Theorem C5_extractGestureFromText_first_keyword
    (text keyword gesture : string) (pre post : list (string * string)) :
  gestureKeywords = pre ++ (keyword, gesture) :: post ->
  Forall (fun kv => JS.includes (JS.toLowerCase text) (fst kv) = false) pre ->
  JS.includes (JS.toLowerCase text) keyword = true ->
  extractGestureFromText text = Some gesture /\
  extractGestureFromText "thank you so much" = Some "thank_you"%string.
Proof.
  intros Hsplit Hpre Hkw. split; [|reflexivity].
  unfold extractGestureFromText. rewrite Hsplit.
  rewrite (find_first_match _ pre post (keyword, gesture) Hpre Hkw).
  reflexivity.
Qed.

Lemma C5_extractGestureFromText_first_keyword_witness :
  extractGestureFromText "Well, THANK you so much" = Some "thank_you"%string /\
  extractGestureFromText "thank you so much" = Some "thank_you"%string.
Proof.
  apply (C5_extractGestureFromText_first_keyword
           "Well, THANK you so much" "thank you" "thank_you"
           (firstn 10 gestureKeywords) (skipn 11 gestureKeywords)).
  - reflexivity.
  - repeat constructor.
  - reflexivity.
Defined.

End ExtractionProperties.

(** ** Validation of an audio clip *)

Section ValidationProperties.
Import RealisticVoiceService.

Lemma validateAudioFormat_true (audioData : option VoiceData) :
  validateAudioFormat audioData = true <-> acceptableAudio audioData.
Proof.
  unfold validateAudioFormat, acceptableAudio.
  destruct audioData as [d|].
  2:{ split; [discriminate | intros (d & n & H & _); discriminate]. }
  destruct (audioBuffer d) as [n|] eqn:Hbuf.
  2:{ split; [discriminate | intros (d' & n & H & Hb & _)].
      injection H as <-. congruence. }
  unfold JS.geb, JS.leb, validSampleRates. cbn [existsb]. rewrite orb_false_r.
  rewrite !andb_true_iff, !orb_true_iff, !Qle_bool_iff, !Qeq_bool_iff, Nat.ltb_lt.
  split.
  - intros [[[H1 H2] H3] H4]. exists d, n.
    repeat split; assumption.
  - intros (d' & n' & H & Hb & Hn & H1 & H2 & H3).
    injection H as <-. rewrite Hbuf in Hb. injection Hb as <-. tauto.
Qed.

(** C10. [validateAudioFormat] answers [true] exactly when the payload
    is present with a buffer that is not empty, a duration between 0.1
    and 30, and one of the four sample rates; on every other payload,
    one without a buffer included, it answers [false]. *)
Theorem C10_validateAudioFormat_exact (audioData : option VoiceData) :
  (validateAudioFormat audioData = true <-> acceptableAudio audioData) /\
  (validateAudioFormat audioData = false <-> ~ acceptableAudio audioData).
Proof.
  split; [apply validateAudioFormat_true |].
  rewrite <- validateAudioFormat_true.
  destruct (validateAudioFormat audioData); split; congruence.
Qed.

End ValidationProperties.

(** ** The avatar pose generator *)

Section AvatarProperties.
Import Avatar3DService.
Context {ML : MathLib}.

Lemma generateGenericPose_unusable (now : Z) lm :
  noUsableLandmarks lm ->
  generateGenericPoseFromLandmarks now lm = Normal (createDefaultPose now) \/
  exists e, generateGenericPoseFromLandmarks now lm = Throw e.
Proof.
  intros [-> | [-> | [[rest ->] | (row & rest & -> & Hlen)]]];
    unfold generateGenericPoseFromLandmarks.
  - now left.
  - now left.
  - right. now eexists.
  - left. apply Nat.ltb_lt in Hlen. now rewrite Hlen.
Qed.

(** C8. [generateAvatarPose] always answers a pose and never throws:
    whatever the [try] block does, and whenever it throws (the
    observation or the first landmark row is absent), the answer is the
    default pose; so it is for an observation without a known gesture
    whose landmark data is absent, empty or too short. *)
Theorem C8_generateAvatarPose_never_throws (t0 now : Z) (signData : option RawSignData) :
  exists pose,
    generateAvatarPose t0 now signData = Normal pose /\
    ((exists e, generateAvatarPose_try t0 now signData = Throw e) ->
     pose = createDefaultPose now) /\
    (forall sd, signData = Some sd ->
       RealisticWebSocketHandler.knownGesture (raw_recognizedGesture sd) = None ->
       noUsableLandmarks (raw_landmarks sd) ->
       pose = createDefaultPose now).
Proof.
  unfold generateAvatarPose.
  destruct (generateAvatarPose_try t0 now signData) as [p|e] eqn:Htry.
  - exists p. split; [reflexivity |]. split.
    + intros [e He]. discriminate.
    + intros sd -> Hg Hlm. unfold generateAvatarPose_try in Htry.
      unfold RealisticWebSocketHandler.knownGesture in Hg.
      assert (Hgen : generateGenericPoseFromLandmarks now (raw_landmarks sd) = Normal p).
      { destruct (raw_recognizedGesture sd) as [g|]; [|exact Htry].
        destruct (JS.truthy g); cbn in Hg, Htry; [|exact Htry].
        destruct (String.eqb g "unknown"); cbn in Hg, Htry; [exact Htry | discriminate]. }
      destruct (generateGenericPose_unusable now _ Hlm) as [H | [e H]];
        rewrite H in Hgen; [now injection Hgen | discriminate].
  - exists (createDefaultPose now). split; [reflexivity |]. split; reflexivity.
Qed.

End AvatarProperties.

(** ** The busy flags *)

Section BusyFlagProperties.
Context {ML : MathLib}.

Lemma finallyT_always_ends {A} (t : Task A) (f : State -> State) (P : State -> Prop) :
  (forall s, P (f s)) -> always_ends P (finallyT t (modify f)).
Proof.
  intros HP. induction t as [s c | s r k IH]; cbn.
  - constructor. apply HP.
  - constructor. intros ans s'. apply IH.
Qed.

(** C3. However a ['video-frame'] or an ['audio-data'] dispatch goes
    (whatever the answers to its requests, whatever happens to the state
    while it waits, and whether it ends normally, by a thrown error or
    by an early return), it ends, and it ends with its busy flag
    [false]. *)
Theorem C3_busy_flag_cleared_on_every_exit
    (clientId sessionId frame : string) (data : option VoiceData) (s : State) :
  always_ends (fun s' => processingQueue s' !! signKey clientId = Some false)
              (onVideoFrame clientId sessionId frame s) /\
  always_ends (fun s' => processingQueue s' !! voiceKey clientId = Some false)
              (onAudioData clientId sessionId data s).
Proof.
  split.
  - unfold onVideoFrame, tryFinally, setBusy. apply finallyT_always_ends.
    intros s0. cbn. apply lookup_insert_eq.
  - unfold onAudioData, tryFinally, setBusy. apply finallyT_always_ends.
    intros s0. cbn. apply lookup_insert_eq.
Qed.

(** The three kinds of exit, on examples: the early return on a clip of
    invalid format, the error thrown by a rejected perception call, and
    the normal completion of a frame in which nothing is detected. *)
Example busy_flag_exit_paths :
  let audio := fst (run failing (onAudioData "c1" "s1" None (initialState 0))) in
  let thrown := fst (run failing (onVideoFrame (ML:=plainMath) "c1" "s1" "frame" (initialState 0))) in
  let normal :=
    fst (run (answering None true) (onVideoFrame (ML:=plainMath) "c1" "s1" "frame" (initialState 0))) in
  (emitted "c1" audio = [ error "Invalid audio format" "AUDIO_FORMAT_ERROR" ] /\
   processingQueue audio !! voiceKey "c1" = Some false) /\
  (emitted "c1" thrown =
     [ error "Failed to process video frame" "REALISTIC_SIGN_PROCESSING_ERROR" ] /\
   processingQueue thrown !! signKey "c1" = Some false) /\
  (emitted "c1" normal = [] /\
   processingQueue normal !! signKey "c1" = Some false).
Proof. vm_compute. repeat split; reflexivity. Qed.

(** A frame that arrives while the flag is set is dropped: the handler
    ends at once, with no request and no event; the only thing it does
    is to run its [finally] block, which writes [false] into the flag. *)
Lemma video_frame_dropped_when_busy (clientId sessionId frame : string) (s : State) :
  isBusy (signKey clientId) s = true ->
  onVideoFrame clientId sessionId frame s =
  Done (set_processingQueue (fun q => <[signKey clientId := false]> q) s) (Normal tt).
Proof.
  intros Hbusy. unfold onVideoFrame, tryFinally, tryCatch, bind, gets. cbn.
  rewrite Hbusy. reflexivity.
Qed.

(** C1 (the code departs from the claim). On [threeFrames], the second
    frame finds the flag set and is dropped without any event, but its
    [finally] block clears the flag of the first frame, which is still
    waiting for the perception call; the third frame is therefore
    accepted, and two perception calls of the same session are in
    flight. On [threeFramesWhileSpeaking] the same happens while the
    first dispatch waits for the synthesiser: two gesture dispatches of
    the session are in flight together. *)
Theorem C1_dropped_frame_releases_the_flag :
  let w1 := steps (initialWorld 0) (take 2 threeFrames) in
  let w2 := steps (initialWorld 0) (take 3 threeFrames) in
  let w3 := steps (initialWorld 0) threeFrames in
  (awaitingPerception "c1" w1 = 1%nat /\
   processingQueue (state w1) !! signKey "c1" = Some true) /\
  (awaitingPerception "c1" w2 = 1%nat /\
   outbox (state w2) = outbox (state w1) /\
   processingQueue (state w2) !! signKey "c1" = Some false) /\
  (awaitingPerception "c1" w3 = 2%nat /\
   inFlight GestureProcessing "c1" w3 = 2%nat) /\
  (let w := steps (initialWorld 0) threeFramesWhileSpeaking in
   inFlight GestureProcessing "c1" w = 2%nat /\
   awaitingPerception "c1" w = 1%nat /\
   map eventName (emitted "c1" (state w)) =
     [ "system-ready"; "sign-detected"; "avatar-pose-update" ]%string).
Proof.
  vm_compute. repeat split; reflexivity.
Qed.

End BusyFlagProperties.

(** ** Running a dispatch to its end *)

Section RunLemmas.
Variable o : Oracle.

Lemma run_bindT {A B} (t : Task A) (f : A -> M B) :
  run o (bindT t f) =
  match run o t with
  | (s1, Normal a) => run o (f a s1)
  | (s1, Throw e) => (s1, Throw e)
  end.
Proof.
  induction t as [s [a|e] | s r k IH]; cbn; try reflexivity. apply IH.
Qed.

Lemma run_catchT {A} (t : Task A) (h : string -> M A) :
  run o (catchT t h) =
  match run o t with
  | (s1, Normal a) => (s1, Normal a)
  | (s1, Throw e) => run o (h e s1)
  end.
Proof.
  induction t as [s [a|e] | s r k IH]; cbn; try reflexivity. apply IH.
Qed.

Lemma run_finallyT {A} (t : Task A) (f : State -> State) :
  run o (finallyT t (modify f)) =
  match run o t with (s1, c) => (f s1, c) end.
Proof.
  induction t as [s c | s r k IH]; cbn; try reflexivity. apply IH.
Qed.

Lemma run_bind {A B} (m : M A) (f : A -> M B) (s : State) :
  run o (bind m f s) =
  match run o (m s) with
  | (s1, Normal a) => run o (f a s1)
  | (s1, Throw e) => (s1, Throw e)
  end.
Proof. apply run_bindT. Qed.

Lemma run_tryCatch {A} (m : M A) (h : string -> M A) (s : State) :
  run o (tryCatch m h s) =
  match run o (m s) with
  | (s1, Normal a) => (s1, Normal a)
  | (s1, Throw e) => run o (h e s1)
  end.
Proof. apply run_catchT. Qed.

Lemma run_tryFinally {A} (m : M A) (f : State -> State) (s : State) :
  run o (tryFinally m (modify f) s) =
  match run o (m s) with (s1, c) => (f s1, c) end.
Proof. apply run_finallyT. Qed.

Lemma run_ret {A} (a : A) (s : State) : run o (ret a s) = (s, Normal a).
Proof. reflexivity. Qed.

Lemma run_throw {A} (e : string) (s : State) : run o (throw (A:=A) e s) = (s, Throw e).
Proof. reflexivity. Qed.

Lemma run_gets {A} (f : State -> A) (s : State) : run o (gets f s) = (s, Normal (f s)).
Proof. reflexivity. Qed.

Lemma run_modify (f : State -> State) (s : State) : run o (modify f s) = (f s, Normal tt).
Proof. reflexivity. Qed.

Lemma run_lift {A} (c : Completion A) (s : State) : run o (lift c s) = (s, c).
Proof. reflexivity. Qed.

Lemma run_await (r : Request) (s : State) : run o (await r s) = (s, Normal (o r)).
Proof. reflexivity. Qed.

Lemma run_emit (cid : string) (e : Event) (s : State) :
  run o (emit cid e s) = (set_outbox (fun l => l ++ [(cid, e)]) s, Normal tt).
Proof. reflexivity. Qed.

Lemma run_Date_now (s : State) : run o (Date_now s) = (s, Normal (clock s)).
Proof. reflexivity. Qed.

End RunLemmas.

Ltac run_step :=
  first
    [ rewrite run_bind | rewrite run_tryCatch | rewrite run_tryFinally
    | rewrite run_ret | rewrite run_throw | rewrite run_gets
    | rewrite run_modify | rewrite run_lift | rewrite run_await
    | rewrite run_emit | rewrite run_Date_now ];
  cbv beta iota.

Section VoiceProperties.
Variable o : Oracle.

(** The synthesiser never rejects: a failure of the [say] command or of
    the file check is caught and answered by the fallback, and a failure
    of the fallback is swallowed. It emits nothing and leaves the clock
    alone. *)
Lemma textToSpeech_resolves (text : string) (voice : option string)
    (speed : option JS.number) (s : State) :
  exists s' path,
    run o (textToSpeech text voice speed s) = (s', Normal path) /\
    outbox s' = outbox s /\ clock s' = clock s.
Proof.
  unfold textToSpeech, playTextAsSound, playAudioFile.
  repeat run_step.
  destruct (isProcessing s); repeat run_step.
  all: match goal with |- context [o (Exec ?c)] => destruct (o (Exec c)) end;
       repeat run_step.
  all: try (match goal with |- context [o (FsAccess ?c)] => destruct (o (FsAccess c)) end;
            repeat run_step).
  all: try (match goal with |- context [o (Exec ?c)] => destruct (o (Exec c)) end;
            repeat run_step).
  all: eexists; eexists; split; [reflexivity | split; reflexivity].
Qed.

Lemma generateVoiceFromGesture_resolves (gesture : string) (s : State) :
  exists s',
    run o (generateVoiceFromGesture gesture s) =
      (s', Normal (RealisticVoiceService.voiceTextOf gesture)) /\
    outbox s' = outbox s /\ clock s' = clock s.
Proof.
  unfold generateVoiceFromGesture.
  destruct (textToSpeech_resolves (RealisticVoiceService.voiceTextOf gesture) None None s)
    as (s' & path & Hrun & Hout & Hclock).
  run_step. run_step. rewrite Hrun. cbv beta iota. run_step.
  exists s'. repeat split; assumption.
Qed.

End VoiceProperties.

(** ** Auto-chaining of a recognised gesture *)

Section ChainingProperties.
Context {ML : MathLib}.
Variable o : Oracle.

Lemma gtb_of_Qeq (a b c : Q) : a == b -> JS.gtb a c = JS.gtb b c.
Proof.
  intros H. unfold JS.gtb, JS.ltb. f_equal.
  destruct (Qle_bool a c) eqn:Ha, (Qle_bool b c) eqn:Hb; try reflexivity.
  - apply Qle_bool_iff in Ha. rewrite H in Ha. apply Qle_bool_iff in Ha. congruence.
  - apply Qle_bool_iff in Hb. rewrite <- H in Hb. apply Qle_bool_iff in Hb. congruence.
Qed.

(** What [updateClientActivity] leaves alone. *)
Lemma updateClientActivity_frame (clientId : string) (s : State) :
  exists s', run o (updateClientActivity clientId s) = (s', Normal tt) /\
             outbox s' = outbox s /\ clock s' = clock s /\ avatarT0 s' = avatarT0 s.
Proof.
  unfold updateClientActivity. run_step.
  destruct (connectedClients s !! clientId); eexists; repeat split; reflexivity.
Qed.

(** The voice step of the chain: the text of the gesture is spoken, then
    the translation and the confirmation are emitted, in this order. *)
Lemma processSignToVoiceAuto_emits (signData : SignLanguageData) (socket gesture : string)
    (s : State) :
  knownGesture (recognizedGesture signData) = Some gesture ->
  exists s',
    run o (processSignToVoiceAuto signData socket s) = (s', Normal tt) /\
    outbox s' = outbox s ++
      [ (socket, translation_result
           {| originalType := sign;
              translatedText := RealisticVoiceService.voiceTextOf gesture;
              tr_confidence := sd_confidence signData; tr_timestamp := clock s;
              tr_sessionId := sd_sessionId signData |});
        (socket, auto_voice_played gesture (RealisticVoiceService.voiceTextOf gesture)
                   (sd_confidence signData) (clock s)) ].
Proof.
  intros Hg. unfold processSignToVoiceAuto. rewrite Hg.
  destruct (generateVoiceFromGesture_resolves o gesture s) as (s1 & Hrun & Hout & Hclock).
  run_step. run_step. rewrite Hrun. cbv beta iota. repeat run_step.
  eexists. split; [reflexivity |].
  cbn [outbox set_outbox clock]. rewrite Hout, Hclock, <- app_assoc. reflexivity.
Qed.

Lemma generateAvatarPose_hello (t0 now : Z) (signData : SignLanguageData) :
  recognizedGesture signData = Some "hello"%string ->
  Avatar3DService.generateAvatarPose t0 now (Avatar3DService.raw signData) =
  Normal (Avatar3DService.pose (t0 + 500)
            [ Avatar3DService.bone "RightHand" (Avatar3DService.vec 0.15 1.5 0)
                (Avatar3DService.vec 0 0.2 0) ] "happy" 300).
Proof.
  intros Hg.
  unfold Avatar3DService.generateAvatarPose, Avatar3DService.generateAvatarPose_try,
    Avatar3DService.raw.
  cbn [Avatar3DService.raw_recognizedGesture]. rewrite Hg. reflexivity.
Qed.

(** C2. A dispatch of a video frame whose perception call answers an
    observation of "hello" emits, on the socket of the client and in
    this order: with confidence 0.75, one [sign-detected], one
    [avatar-pose-update], one [translation-result] of original type
    [sign] and one [auto-voice-played], and nothing else; with
    confidence 0.5, one [sign-detected] and one [avatar-pose-update], and
    nothing else. This holds whatever the commands of the synthesiser
    answer. *)
Theorem C2_gesture_auto_chaining
    (s : State) (clientId sessionId frame : string) (signData : SignLanguageData) :
  isBusy (signKey clientId) s = false ->
  o (ProcessFrame frame) = Normal (Some signData) ->
  recognizedGesture signData = Some "hello"%string ->
  let s' := fst (run o (onVideoFrame clientId sessionId frame s)) in
  let detected :=
    {| landmarks := landmarks signData; sd_confidence := sd_confidence signData;
       sd_timestamp := sd_timestamp signData; sd_sessionId := sessionId;
       recognizedGesture := Some "hello"%string;
       gestureDescription := Some "Open palm, fingers extended, gentle wave motion"%string |} in
  let mainPose :=
    Avatar3DService.pose (avatarT0 s + 500)
      [ Avatar3DService.bone "RightHand" (Avatar3DService.vec 0.15 1.5 0)
          (Avatar3DService.vec 0 0.2 0) ] "happy" 300 in
  let voiceText := "Hello there! Nice to meet you."%string in
  (sd_confidence signData == 0.75 ->
   outbox s' = outbox s ++
     [ (clientId, sign_detected detected);
       (clientId, avatar_pose_update mainPose);
       (clientId, translation_result
          {| originalType := sign; translatedText := voiceText;
             tr_confidence := sd_confidence signData; tr_timestamp := clock s;
             tr_sessionId := sessionId |});
       (clientId, auto_voice_played "hello" voiceText (sd_confidence signData) (clock s)) ]) /\
  (sd_confidence signData == 0.5 ->
   outbox s' = outbox s ++
     [ (clientId, sign_detected detected);
       (clientId, avatar_pose_update mainPose) ]).
Proof.
  intros Hidle Ho Hg. destruct signData as [lm conf ts sid g gd].
  cbn [recognizedGesture] in Hg. subst g. cbn [sd_confidence landmarks sd_timestamp].
  cbv zeta.
  unfold onVideoFrame, setBusy.
  do 4 run_step. rewrite Hidle. unfold processVideoFrame, setBusy.
  run_step. run_step.
  set (s1 := set_processingQueue _ s).
  destruct (updateClientActivity_frame clientId s1) as (s2 & Hrun2 & Hout2 & Hclock2 & Ht2).
  run_step. rewrite Hrun2. cbv beta iota.
  run_step. run_step. rewrite Ho. run_step. run_step. cbv beta iota zeta.
  cbn [recognizedGesture sd_confidence landmarks sd_timestamp sd_sessionId gestureDescription].
  change (knownGesture (Some "hello"%string)) with (Some "hello"%string). cbv beta iota.
  change (SimpleRealisticSignLanguageService.getGestureDescription "hello")
    with "Open palm, fingers extended, gentle wave motion"%string.
  run_step. run_step.
  unfold Services.generateAvatarPose. repeat run_step.
  rewrite generateAvatarPose_hello by reflexivity. run_step. run_step.
  cbn [avatarT0 clock set_outbox]. rewrite Ht2. cbn [s1 set_processingQueue avatarT0].
  split; intros Hc; rewrite (gtb_of_Qeq _ _ 0.7 Hc).
  - change (JS.gtb 0.75 0.7) with true. cbv beta iota.
    edestruct (processSignToVoiceAuto_emits) as (s3 & Hrun3 & Hout3);
      [| rewrite Hrun3]; [reflexivity |].
    cbv beta iota. cbn [fst outbox set_processingQueue].
    rewrite Hout3. cbn [outbox set_outbox clock sd_confidence sd_sessionId].
    rewrite Hout2, Hclock2. cbn [s1 set_processingQueue outbox clock].
    rewrite <- !app_assoc. reflexivity.
  - change (JS.gtb 0.5 0.7) with false. cbv beta iota. run_step.
    cbn [fst outbox set_processingQueue set_outbox].
    rewrite Hout2. cbn [s1 set_processingQueue outbox].
    rewrite <- !app_assoc. reflexivity.
Qed.
End ChainingProperties.

Lemma C2_gesture_auto_chaining_witness :
  let dispatch c :=
    fst (run (answering (Some (helloObservation c)) true)
             (onVideoFrame (ML:=plainMath) "c1" "s1" "frame" (initialState 0))) in
  isBusy (signKey "c1") (initialState 0) = false /\
  map (fun e => eventName (snd e)) (outbox (dispatch 0.75)) =
    [ "sign-detected"; "avatar-pose-update"; "translation-result"; "auto-voice-played" ]%string /\
  map (fun e => eventName (snd e)) (outbox (dispatch 0.5)) =
    [ "sign-detected"; "avatar-pose-update" ]%string.
Proof.
  cbv zeta. split; [reflexivity |]. split.
  - rewrite (proj1 (C2_gesture_auto_chaining (ML:=plainMath)
               (answering (Some (helloObservation 0.75)) true)
               (initialState 0) "c1" "s1" "frame" (helloObservation 0.75)
               eq_refl eq_refl eq_refl)) by reflexivity.
    reflexivity.
  - rewrite (proj2 (C2_gesture_auto_chaining (ML:=plainMath)
               (answering (Some (helloObservation 0.5)) true)
               (initialState 0) "c1" "s1" "frame" (helloObservation 0.5)
               eq_refl eq_refl eq_refl)) by reflexivity.
    reflexivity.
Defined.

(** ** The health check timer *)

Section HealthCheckProperties.
Context {ML : MathLib}.

Lemma emitted_emit (clientId : string) (e : Event) (s : State) :
  emitted clientId (set_outbox (fun l => l ++ [(clientId, e)]) s) =
  emitted clientId s ++ [e].
Proof.
  unfold emitted. cbn [outbox set_outbox].
  rewrite List.filter_app, List.map_app. cbn. now rewrite String.eqb_refl.
Qed.

Lemma healthChecks_app (l1 l2 : list Event) :
  healthChecks (l1 ++ l2) = healthChecks l1 ++ healthChecks l2.
Proof. apply omap_app. Qed.

(** A tick on a registered client: one health check, stamped with the
    clock, and the timer stays. *)
Lemma tick_registered (clientId : string) (w : World) :
  clientId ∈ healthCheckIntervals (state w) ->
  is_Some (connectedClients (state w) !! clientId) ->
  exists e,
    state (step w (IntervalFires clientId)) =
      set_outbox (fun l => l ++ [(clientId, e)]) (state w) /\
    healthChecks [e] = [clock (state w)].
Proof.
  intros Hin Hreg. cbn [step]. rewrite (bool_decide_eq_true_2 _ Hin).
  unfold healthCheck, bind, gets. cbn.
  rewrite (bool_decide_eq_true_2 _ Hreg). cbn.
  eexists. split; reflexivity.
Qed.

(** A tick on a client that is no longer registered: no event, and the
    timer cancels itself. *)
Lemma tick_deregistered (clientId : string) (w : World) :
  connectedClients (state w) !! clientId = None ->
  let w' := step w (IntervalFires clientId) in
  outbox (state w') = outbox (state w) /\
  connectedClients (state w') = connectedClients (state w) /\
  clientId ∉ healthCheckIntervals (state w').
Proof.
  intros Hgone. cbn [step].
  destruct (bool_decide_reflect (clientId ∈ healthCheckIntervals (state w))) as [Hin|Hin].
  - unfold healthCheck, bind, gets. cbn.
    rewrite bool_decide_eq_false_2 by (rewrite Hgone; apply is_Some_None). cbn.
    repeat split. rewrite not_elem_of_difference. right. now apply elem_of_singleton.
  - repeat split. exact Hin.
Qed.

Lemma periods_registered (clientId : string) (n : nat) :
  forall (w : World) (start : Z),
    clientId ∈ healthCheckIntervals (state w) ->
    is_Some (connectedClients (state w) !! clientId) ->
    let w' := steps w (periods clientId start n) in
    healthChecks (emitted clientId (state w')) =
      healthChecks (emitted clientId (state w)) ++ tickTimes start n /\
    clientId ∈ healthCheckIntervals (state w') /\
    connectedClients (state w') = connectedClients (state w).
Proof.
  induction n as [|n IH]; intros w start Hin Hreg.
  - cbn. now rewrite app_nil_r.
  - cbn [periods tickTimes steps fold_left].
    set (w1 := step w (ClockAdvances (start + healthCheckPeriod))).
    assert (Hin1 : clientId ∈ healthCheckIntervals (state w1)) by exact Hin.
    assert (Hreg1 : is_Some (connectedClients (state w1) !! clientId)) by exact Hreg.
    destruct (tick_registered clientId w1 Hin1 Hreg1) as (e & Hstate & Hts).
    set (w2 := step w1 (IntervalFires clientId)) in *.
    assert (Hin2 : clientId ∈ healthCheckIntervals (state w2)) by (rewrite Hstate; exact Hin).
    assert (Hreg2 : is_Some (connectedClients (state w2) !! clientId))
      by (rewrite Hstate; exact Hreg).
    destruct (IH w2 (start + healthCheckPeriod)%Z Hin2 Hreg2) as (Hhc & Hin' & Hreg').
    fold (steps w2 (periods clientId (start + healthCheckPeriod) n)).
    split; [| split; [exact Hin' | rewrite Hreg', Hstate; reflexivity]].
    rewrite Hhc, Hstate, emitted_emit, healthChecks_app, Hts.
    cbn [w1 step state set_clock clock]. rewrite <- app_assoc. reflexivity.
Qed.

Lemma periods_deregistered (clientId : string) (n : nat) :
  forall (w : World) (start : Z),
    connectedClients (state w) !! clientId = None ->
    let w' := steps w (periods clientId start n) in
    outbox (state w') = outbox (state w) /\
    ((0 < n)%nat -> clientId ∉ healthCheckIntervals (state w')).
Proof.
  induction n as [|n IH]; intros w start Hgone.
  - cbn. split; [reflexivity | lia].
  - cbn [periods steps fold_left].
    set (w1 := step w (ClockAdvances (start + healthCheckPeriod))).
    assert (Hgone1 : connectedClients (state w1) !! clientId = None) by exact Hgone.
    destruct (tick_deregistered clientId w1 Hgone1) as (Hout & Hreg & Hnin).
    set (w2 := step w1 (IntervalFires clientId)) in *.
    assert (Hgone2 : connectedClients (state w2) !! clientId = None)
      by (rewrite Hreg; exact Hgone1).
    destruct (IH w2 (start + healthCheckPeriod)%Z Hgone2) as (Hout' & Hnin').
    fold (steps w2 (periods clientId (start + healthCheckPeriod) n)).
    split; [rewrite Hout', Hout; reflexivity |].
    intros _. destruct n as [|n]; [exact Hnin | apply Hnin'; lia].
Qed.

Lemma tickTimes_length (start : Z) (n : nat) : length (tickTimes start n) = n.
Proof. revert start; induction n as [|n IH]; intros start; cbn; [|rewrite IH]; reflexivity. Qed.

Lemma tickTimes_bound (n : nat) :
  forall start, Forall (fun ts => (ts <= start + Z.of_nat n * healthCheckPeriod)%Z)
                       (tickTimes start n).
Proof.
  unfold healthCheckPeriod.
  induction n as [|n IH]; intros start; cbn [tickTimes]; constructor.
  - unfold healthCheckPeriod. lia.
  - eapply List.Forall_impl; [| apply IH]. unfold healthCheckPeriod. cbn beta. intros ts Hts. lia.
Qed.

End HealthCheckProperties.

Section HealthCheckSessions.
Context {ML : MathLib}.

Lemma steps_app (w : World) (l1 l2 : list Input) :
  steps w (l1 ++ l2) = steps (steps w l1) l2.
Proof. apply fold_left_app. Qed.

Lemma periods_sockets (clientId : string) (n : nat) :
  forall (w : World) (start : Z),
    sockets (steps w (periods clientId start n)) = sockets w.
Proof.
  induction n as [|n IH]; intros w start; [reflexivity |].
  cbn [periods steps fold_left].
  fold (steps (step (step w (ClockAdvances (start + healthCheckPeriod)))
                    (IntervalFires clientId))
              (periods clientId (start + healthCheckPeriod) n)).
  rewrite IH. cbn [step].
  destruct (bool_decide _); [| reflexivity].
  unfold healthCheck, bind, gets. cbn.
  destruct (bool_decide _); reflexivity.
Qed.

(** What the connection of a client sets up. *)
Lemma connection_registers (w : World) (clientId sessionId : string) :
  sockets w !! clientId = None ->
  let w0 := step w (Connection clientId sessionId) in
  clientId ∈ healthCheckIntervals (state w0) /\
  is_Some (connectedClients (state w0) !! clientId) /\
  is_Some (sockets w0 !! clientId) /\
  healthChecks (emitted clientId (state w0)) = healthChecks (emitted clientId (state w)).
Proof.
  intros Hnew. cbn [step]. rewrite Hnew.
  unfold onConnection, bind, gets, Date_now, emit, modify. cbn.
  split; [apply elem_of_union_r; now apply elem_of_singleton |].
  split; [rewrite lookup_insert_eq; eauto |].
  split; [rewrite lookup_insert_eq; eauto |].
  unfold emitted. cbn [outbox]. rewrite List.filter_app, List.map_app, healthChecks_app.
  cbn. rewrite String.eqb_refl. cbn. now rewrite app_nil_r.
Qed.

(** What the disconnection of a client leaves. *)
Lemma disconnection_deregisters (w : World) (clientId : string) :
  is_Some (sockets w !! clientId) ->
  let w' := step w (Disconnect clientId) in
  connectedClients (state w') !! clientId = None /\
  outbox (state w') = outbox (state w).
Proof.
  intros [sid Hsock]. cbn [step]. rewrite Hsock.
  unfold onDisconnect, bind, modify. cbn.
  split; [apply lookup_delete_eq | reflexivity].
Qed.

(** C9. Over [N] milliseconds from its connection at time [c], a
    session that stays connected receives one health check per period of
    the timer, [N / healthCheckPeriod] of them, stamped [c + T],
    [c + 2T], ...; a session disconnected at time [t] receives the
    health checks of the periods that ended by [t] and no other, so none
    stamped later than [t + T], and its timer cancels itself at the
    first period that ends after [t]. *)
Theorem C9_health_check_ticks (w : World) (clientId sessionId : string) (N : Z) :
  sockets w !! clientId = None ->
  (0 <= N)%Z ->
  let c := clock (state w) in
  let n := Z.to_nat (N / healthCheckPeriod) in
  let before := healthChecks (emitted clientId (state w)) in
  (healthChecks (emitted clientId (state (steps w (session clientId sessionId c N None)))) =
     before ++ tickTimes c n /\
   Z.of_nat (length (tickTimes c n)) = (N / healthCheckPeriod)%Z) /\
  (forall t, (c <= t <= c + N)%Z ->
     let w' := steps w (session clientId sessionId c N (Some t)) in
     let k := Z.to_nat ((t - c) / healthCheckPeriod) in
     healthChecks (emitted clientId (state w')) = before ++ tickTimes c k /\
     Forall (fun ts => (ts <= t + healthCheckPeriod)%Z) (tickTimes c k) /\
     ((k < n)%nat -> clientId ∉ healthCheckIntervals (state w'))).
Proof.
  intros Hnew HN. cbv zeta.
  destruct (connection_registers w clientId sessionId Hnew) as (Hin & Hreg & Hsock & Hhc).
  set (w0 := step w (Connection clientId sessionId)) in *.
  assert (Hperiod : (0 < healthCheckPeriod)%Z) by reflexivity.
  split.
  - unfold session. cbn [steps fold_left]. fold w0.
    fold (steps w0 (periods clientId (clock (state w)) (Z.to_nat (N / healthCheckPeriod)))).
    destruct (periods_registered clientId (Z.to_nat (N / healthCheckPeriod)) w0
                (clock (state w)) Hin Hreg) as (H & _).
    split; [rewrite H, Hhc; reflexivity |].
    rewrite tickTimes_length, Z2Nat.id; [reflexivity |].
    apply Z.div_pos; lia.
  - intros t [Hct HtN].
    set (k := Z.to_nat ((t - clock (state w)) / healthCheckPeriod)).
    unfold session. fold k. cbn [steps fold_left]. fold w0.
    change (fold_left step ?l w0) with (steps w0 l).
    change (?a ++ ?x :: ?y :: ?l) with (a ++ [x; y] ++ l).
    rewrite !steps_app.
    destruct (periods_registered clientId k w0 (clock (state w)) Hin Hreg) as (H1 & _ & _).
    set (w1 := steps w0 (periods clientId (clock (state w)) k)) in *.
    assert (Hsock1 : is_Some (sockets w1 !! clientId))
      by (unfold w1; rewrite periods_sockets; exact Hsock).
    cbn [steps fold_left].
    set (w2 := step w1 (ClockAdvances t)).
    destruct (disconnection_deregisters w2 clientId Hsock1) as (Hgone & Hout).
    set (w3 := step w2 (Disconnect clientId)) in *.
    destruct (periods_deregistered clientId (Z.to_nat (N / healthCheckPeriod) - k) w3
                (clock (state w) + Z.of_nat k * healthCheckPeriod) Hgone) as (Hout' & Hcancel).
    fold (steps w3 (periods clientId (clock (state w) + Z.of_nat k * healthCheckPeriod)
                      (Z.to_nat (N / healthCheckPeriod) - k))).
    split; [| split].
    + match goal with |- healthChecks (emitted _ (state ?w4)) = _ =>
        assert (Hem : emitted clientId (state w4) = emitted clientId (state w1))
          by (unfold emitted; rewrite Hout', Hout; reflexivity)
      end.
      rewrite Hem, H1, Hhc. reflexivity.
    + eapply List.Forall_impl; [| apply tickTimes_bound]. cbn beta. intros ts Hts.
      assert (Hk : (Z.of_nat k * healthCheckPeriod <= t - clock (state w))%Z).
      { unfold k. rewrite Z2Nat.id by (apply Z.div_pos; lia).
        rewrite Z.mul_comm. apply Z.mul_div_le. exact Hperiod. }
      lia.
    + intros Hlt. apply Hcancel. lia.
Qed.

End HealthCheckSessions.

Lemma C9_health_check_ticks_witness :
  sockets (initialWorld 100) !! "c1"%string = None /\
  (0 <= 35000)%Z /\
  healthChecks (emitted "c1"
    (state (steps (ML:=plainMath) (initialWorld 100) (session "c1" "s1" 100 35000 None)))) =
    [10100; 20100; 30100]%Z /\
  healthChecks (emitted "c1"
    (state (steps (ML:=plainMath) (initialWorld 100) (session "c1" "s1" 100 35000 (Some 12345%Z))))) =
    [10100]%Z.
Proof.
  split; [reflexivity |]. split; [discriminate |].
  pose proof (C9_health_check_ticks (ML:=plainMath) (initialWorld 100) "c1" "s1" 35000
                eq_refl ltac:(discriminate)) as [[Hconnected _] Hdisconnected].
  split; [exact Hconnected |].
  destruct (Hdisconnected 12345%Z ltac:(split; discriminate)) as [H _]. exact H.
Defined.

(** * Further properties of the code *)

(** ** The translation engine, beyond the claims *)

Section TranslationEngine.
Import TranslationService.

Lemma get_In {V} (m : list (string * V)) (k : string) (v : V) :
  JS.get m k = Some v -> In (k, v) m.
Proof.
  induction m as [|[k' v'] m IH]; cbn; [discriminate |].
  destruct (String.eqb k' k) eqn:E.
  - intros [= <-]. apply String.eqb_eq in E as ->. now left.
  - intros H. right. exact (IH H).
Qed.

Lemma findPartialGestureMatch_in_map (word g : string) :
  findPartialGestureMatch word = Some g -> In g (map snd wordToGestureMap).
Proof.
  unfold findPartialGestureMatch.
  destruct (find _ wordToGestureMap) as [[key v]|]; [|discriminate].
  destruct (JS.get wordToGestureMap key) as [g'|] eqn:Hget; [|discriminate].
  destruct (JS.truthy g'); [|discriminate]. intros [= <-].
  apply get_In in Hget. apply (in_map snd) in Hget. exact Hget.
Qed.

Lemma wordToGestureMap_in_dictionary (g : string) :
  In g (map snd wordToGestureMap) -> exists e, JS.get signLanguageDictionary g = Some e.
Proof.
  cbn. intros H.
  repeat (destruct H as [<- | H]; [eexists; reflexivity |]). destruct H.
Qed.

Lemma textToSign_word_cases (acc : Acc) (word : string) :
  exists anims c,
    textToSign_word acc word = Some (push acc anims c) /\
    (c = 0.9 \/ c = 0.6 \/
     (c = 0.4 /\ anims = [createFingerspellingAnimation word] /\
      findPartialGestureMatch word = None)).
Proof.
  unfold textToSign_word.
  destruct (match JS.get wordToGestureMap word with
            | Some gesture =>
                if JS.truthy gesture then JS.get signLanguageDictionary gesture else None
            | None => None
            end) as [e|].
  - exists (de_animations e), 0.9. split; [reflexivity | now left].
  - destruct (findPartialGestureMatch word) as [p|] eqn:Hp.
    + destruct (wordToGestureMap_in_dictionary p (findPartialGestureMatch_in_map _ _ Hp))
        as [e He].
      rewrite He. exists (de_animations e), 0.6. split; [reflexivity | right; now left].
    + exists [createFingerspellingAnimation word], 0.4.
      split; [reflexivity | right; right; repeat split].
Qed.

(** The loop never throws: every gesture the word map can answer,
    exactly or partially, is a key of the dictionary; and every token is
    counted. *)
Lemma textToSign_loop_total (words : list string) (acc : Acc) :
  exists acc',
    textToSign_loop acc words = Some acc' /\
    matchCount acc' = (matchCount acc + length words)%nat.
Proof.
  revert acc. induction words as [|w words IH]; intros acc; cbn [textToSign_loop].
  - exists acc. split; [reflexivity | cbn; lia].
  - destruct (textToSign_word_cases acc w) as (anims & c & -> & _).
    destruct (IH (push acc anims c)) as (acc' & -> & Hn).
    exists acc'. split; [reflexivity |]. rewrite Hn. cbn. lia.
Qed.


Lemma split_ws_nonempty (s cur : string) (inrun : bool) :
  JS.splitSpaces s cur inrun <> [].
Proof.
  revert cur inrun. induction s as [|c s IH]; intros cur inrun; cbn; [discriminate |].
  destruct (JS.isSpace c); [destruct inrun |]; [apply IH | discriminate | apply IH].
Qed.

(** X1. [textToSign] never reaches its [catch]: the loop over the tokens
    always completes, because every gesture the word map can answer,
    exactly or partially, is a key of the dictionary. It counts every
    token, at least one, so that the mean is always taken; and "no
    result" is answered exactly when no animation was collected. *)
Theorem textToSign_never_throws (text : string) :
  let words := JS.split_ws (JS.toLowerCase text) in
  exists acc,
    textToSign_loop {| signAnimations := []; overallConfidence := 0; matchCount := 0 |} words
      = Some acc /\
    matchCount acc = length words /\ (0 < matchCount acc)%nat /\
    (textToSign text = None <-> signAnimations acc = []).
Proof.
  cbv zeta. unfold textToSign.
  set (words := JS.split_ws (JS.toLowerCase text)).
  set (init := {| signAnimations := []; overallConfidence := 0; matchCount := 0 |}).
  destruct (textToSign_loop_total words init) as (acc & Hloop & Hn).
  exists acc. rewrite Hloop. cbn [matchCount init Nat.add] in Hn.
  split; [reflexivity |]. split; [exact Hn |]. split.
  - rewrite Hn. destruct words eqn:E; [|cbn; lia].
    exfalso. exact (split_ws_nonempty _ _ _ E).
  - destruct (signAnimations acc) as [|a l]; cbn [length Nat.eqb].
    + split; reflexivity.
    + split; discriminate.
Qed.



End TranslationEngine.


Section TranslationEngineEdges.
Import TranslationService.

Lemma textToSign_loop_extends (words : list string) :
  forall acc acc',
    textToSign_loop acc words = Some acc' ->
    exists more, signAnimations acc' = signAnimations acc ++ more.
Proof.
  induction words as [|w words IH]; intros acc acc'; cbn [textToSign_loop].
  - intros [= <-]. exists []. now rewrite app_nil_r.
  - destruct (textToSign_word_cases acc w) as (anims & c & -> & _).
    intros Hloop. destruct (IH _ _ Hloop) as [more Hmore].
    exists (anims ++ more). rewrite Hmore. cbn. now rewrite <- app_assoc.
Qed.

Lemma textToSign_loop_fingerspells (words : list string) (w : string) :
  In w words ->
  JS.get wordToGestureMap w = None ->
  findPartialGestureMatch w = None ->
  forall acc acc',
    textToSign_loop acc words = Some acc' ->
    In (createFingerspellingAnimation w) (signAnimations acc').
Proof.
  intros Hin Hexact Hpartial.
  induction words as [|w' words IH]; [destruct Hin |].
  intros acc acc'. cbn [textToSign_loop].
  destruct Hin as [-> | Hin].
  - unfold textToSign_word. rewrite Hexact, Hpartial. intros Hloop.
    destruct (textToSign_loop_extends _ _ _ Hloop) as [more ->].
    cbn [push signAnimations]. apply in_or_app. left. apply in_or_app. right. now left.
  - destruct (textToSign_word_cases acc w') as (anims & c & -> & _).
    intros Hloop. exact (IH Hin _ _ Hloop).
Qed.

(** X3. A token that the word map matches in neither direction always
    gives a result: [textToSign] then answers a result whose animation
    sequence contains the fingerspelling of that token, whatever the
    other tokens are. *)
Theorem textToSign_unmatched_token_gives_result (text w : string) :
  In w (JS.split_ws (JS.toLowerCase text)) ->
  JS.get wordToGestureMap w = None ->
  findPartialGestureMatch w = None ->
  exists r, textToSign text = Some r /\
            In (createFingerspellingAnimation w) (animations r).
Proof.
  intros Hin Hexact Hpartial. unfold textToSign.
  set (words := JS.split_ws (JS.toLowerCase text)) in *.
  set (init := {| signAnimations := []; overallConfidence := 0; matchCount := 0 |}).
  destruct (textToSign_loop_total words init) as (acc & Hloop & _).
  rewrite Hloop.
  pose proof (textToSign_loop_fingerspells words w Hin Hexact Hpartial _ _ Hloop) as Hfs.
  destruct (signAnimations acc) as [|a l] eqn:E; [destruct Hfs |].
  cbn [length Nat.eqb]. eexists. split; [reflexivity |]. exact Hfs.
Qed.

Lemma textToSign_unmatched_token_gives_result_witness :
  exists r, textToSign "Goodbye Xyzzyqq" = Some r /\
            In (createFingerspellingAnimation "xyzzyqq") (animations r).
Proof.
  apply (textToSign_unmatched_token_gives_result "Goodbye Xyzzyqq" "xyzzyqq").
  - vm_compute. right. left. reflexivity.
  - reflexivity.
  - reflexivity.
Defined.

(** X4. A text all of whose tokens are words of the map whose dictionary
    entry has an empty animation list ("goodbye", "please", "stop", ...)
    gets "no result", although every token is known. *)
Theorem textToSign_stub_animations_give_no_result (text : string) :
  Forall (fun w => exists g e,
            JS.get wordToGestureMap w = Some g /\
            JS.get signLanguageDictionary g = Some e /\
            de_animations e = [])
         (JS.split_ws (JS.toLowerCase text)) ->
  textToSign text = None.
Proof.
  intros Hall. unfold textToSign.
  set (words := JS.split_ws (JS.toLowerCase text)) in *.
  assert (Hloop : forall acc, signAnimations acc = [] ->
            exists acc', textToSign_loop acc words = Some acc' /\ signAnimations acc' = []).
  { induction Hall as [|w words (g & e & Hg & He & Hnil) _ IH]; intros acc Hacc.
    - exists acc. split; [reflexivity | exact Hacc].
    - cbn [textToSign_loop]. unfold textToSign_word. rewrite Hg.
      assert (Ht : JS.truthy g = true).
      { unfold JS.truthy. destruct (String.eqb g "") eqn:E; [|reflexivity].
        apply String.eqb_eq in E. subst g. discriminate He. }
      rewrite Ht, He.
      apply IH. cbn [push signAnimations]. rewrite Hacc, Hnil. reflexivity. }
  destruct (Hloop {| signAnimations := []; overallConfidence := 0; matchCount := 0 |} eq_refl)
    as (acc & -> & ->).
  reflexivity.
Qed.

Lemma textToSign_stub_animations_give_no_result_witness :
  textToSign "Goodbye please STOP" = None.
Proof.
  apply textToSign_stub_animations_give_no_result. vm_compute.
  repeat constructor; eexists; eexists; repeat split.
Defined.

Lemma chars_length (word : string) : length (JS.chars word) = String.length word.
Proof. induction word as [|c word IH]; cbn; [|rewrite IH]; reflexivity. Qed.

(** X5. The fingerspelling of a word has one keyframe per character,
    the [i]-th at [800 i] milliseconds, and lasts [800] milliseconds per
    character: every keyframe starts before the animation ends. *)
Theorem createFingerspellingAnimation_keyframes (word : string) :
  let a := createFingerspellingAnimation word in
  length (keyframes a) = String.length word /\
  sa_duration a == 800 * JS.of_nat (String.length word) /\
  forall i kf, keyframes a !! i = Some kf ->
    kf_timestamp kf == 800 * JS.of_nat i /\ kf_timestamp kf < sa_duration a.
Proof.
  cbv zeta. unfold createFingerspellingAnimation. cbn [keyframes sa_duration].
  split; [rewrite length_imap; apply chars_length |].
  split; [apply Qmult_comm |].
  intros i kf. rewrite list_lookup_imap.
  destruct (JS.chars word !! i) as [letter|] eqn:Hi; [|discriminate].
  intros [= <-]. cbn [keyframe kf_timestamp].
  split; [apply Qmult_comm |].
  apply lookup_lt_Some in Hi. rewrite chars_length in Hi.
  apply Qmult_lt_compat_r; [reflexivity |].
  unfold JS.of_nat. rewrite <- Zlt_Qlt. lia.
Qed.

(** X6. When the classifier recognises a hand, [signToText] leaves in
    the buffer only gestures younger than [sequenceTimeoutMs] at the
    time of pruning, whatever the buffer held before; when it recognises
    none, the buffer is not pruned at all and nothing is answered. *)
Theorem signToText_prunes_the_buffer
    (buffer : list BufferedGesture) (signData : SignLanguageData) (tPush tClean : Z) :
  let out := signToText buffer signData tPush tClean in
  match recognizeGestureFromLandmarks (landmarks signData) with
  | Some _ =>
      Forall (fun g => (tClean - bg_timestamp g < sequenceTimeoutMs)%Z) (fst out) /\
      (forall g, In g (fst out) ->
         In g buffer \/ bg_timestamp g = tPush)
  | None => out = (buffer, None)
  end.
Proof.
  cbv zeta. unfold signToText.
  destruct (recognizeGestureFromLandmarks (landmarks signData)) as [g|]; [|reflexivity].
  assert (H : forall l,
    Forall (fun g => (tClean - bg_timestamp g < sequenceTimeoutMs)%Z)
           (cleanGestureBuffer tClean l) /\
    forall e, In e (cleanGestureBuffer tClean l) -> In e l).
  { intros l. unfold cleanGestureBuffer. split.
    - apply List.Forall_forall. intros e He. apply List.filter_In in He as [_ He].
      now apply Z.ltb_lt in He.
    - intros e He. now apply List.filter_In in He as [He _]. }
  destruct (gestureSequenceToText _); cbn [fst];
    (split; [apply H |]); intros e He; apply H in He;
    apply in_app_or in He as [He | [<- | []]]; auto.
Qed.

Lemma gestureToText_truthy (g t : string) :
  JS.get gestureToText g = Some t -> JS.truthy t = true.
Proof.
  intros H. apply get_In in H. cbn in H.
  repeat (destruct H as [[= <- <-] | H]; [reflexivity |]). destruct H.
Qed.

(** X7. When the clock has advanced by less than [sequenceTimeoutMs]
    between the two readings, [signToText] reads the gesture it has just
    buffered: the answer is the phrase of the gesture the classifier
    recognised in this very observation, and there is none when that
    gesture has no phrase, as for "unknown". *)
Theorem signToText_reads_current_gesture
    (buffer : list BufferedGesture) (signData : SignLanguageData) (tPush tClean : Z)
    (g : Classified) :
  recognizeGestureFromLandmarks (landmarks signData) = Some g ->
  (tClean - tPush < sequenceTimeoutMs)%Z ->
  snd (signToText buffer signData tPush tClean) =
    match JS.get gestureToText (cl_gesture g) with
    | Some phrase =>
        Some {| st_text := phrase;
                st_confidence := Qmin (cl_confidence g) (sd_confidence signData);
                st_gesture := cl_gesture g |}
    | None => None
    end /\
  (cl_gesture g = "unknown"%string -> snd (signToText buffer signData tPush tClean) = None).
Proof.
  intros Hg Hfresh.
  assert (Hmain : snd (signToText buffer signData tPush tClean) =
    match JS.get gestureToText (cl_gesture g) with
    | Some phrase =>
        Some {| st_text := phrase;
                st_confidence := Qmin (cl_confidence g) (sd_confidence signData);
                st_gesture := cl_gesture g |}
    | None => None
    end).
  { unfold signToText. rewrite Hg.
    assert (Hlast : last (cleanGestureBuffer tClean
                      (buffer ++ [ {| bg_gesture := cl_gesture g; bg_timestamp := tPush |} ])) =
                    Some {| bg_gesture := cl_gesture g; bg_timestamp := tPush |}).
    { unfold cleanGestureBuffer. rewrite List.filter_app. cbn [List.filter bg_timestamp].
      apply Z.ltb_lt in Hfresh. rewrite Hfresh. apply last_snoc. }
    unfold gestureSequenceToText. rewrite Hlast. cbn [bg_gesture].
    destruct (JS.get gestureToText (cl_gesture g)) as [t|] eqn:Ht; [|reflexivity].
    rewrite (gestureToText_truthy _ _ Ht). reflexivity. }
  split; [exact Hmain |].
  intros Hu. rewrite Hmain, Hu. reflexivity.
Qed.

Lemma signToText_reads_current_gesture_witness :
  snd (signToText [ {| bg_gesture := "stop"; bg_timestamp := 0 |} ]
         {| landmarks := openHand; sd_confidence := 0.5; sd_timestamp := 1000;
            sd_sessionId := "s1"; recognizedGesture := None; gestureDescription := None |}
         1000 1001) =
  Some {| st_text := "Hello"; st_confidence := 0.5; st_gesture := "hello" |}.
Proof.
  exact (proj1 (signToText_reads_current_gesture
    [ {| bg_gesture := "stop"; bg_timestamp := 0 |} ]
    {| landmarks := openHand; sd_confidence := 0.5; sd_timestamp := 1000;
       sd_sessionId := "s1"; recognizedGesture := None; gestureDescription := None |}
    1000 1001 (classified "hello" 0.8) eq_refl eq_refl)).
Defined.

(** X8. The classifier answers nothing exactly when there is no hand or
    the first hand has fewer than 63 coordinates; otherwise it answers
    one of five fixed pairs of gesture and confidence, "unknown" with
    0.3 when no shape fits. *)
Theorem recognizeGestureFromLandmarks_range (lm : list (list JS.number)) :
  (recognizeGestureFromLandmarks lm = None <->
   lm = [] \/ exists row rest, lm = row :: rest /\ (length row < 63)%nat) /\
  (forall g, recognizeGestureFromLandmarks lm = Some g ->
     In (cl_gesture g, cl_confidence g)
        [ ("hello", 0.8); ("yes", 0.85); ("help", 0.7); ("thank_you", 0.75);
          ("unknown", 0.3) ]%string).
Proof.
  unfold recognizeGestureFromLandmarks.
  destruct lm as [|row rest].
  { split; [split; [now left | reflexivity] | discriminate]. }
  change (21 * 3)%nat with 63%nat.
  destruct (length row <? 63)%nat eqn:Hlen.
  { apply Nat.ltb_lt in Hlen.
    split; [split; [intros _; right; eauto | reflexivity] | discriminate]. }
  apply Nat.ltb_ge in Hlen. cbv zeta. split.
  - split.
    + repeat match goal with |- context [if ?b then _ else _] => destruct b end; discriminate.
    + intros [H | (row' & rest' & [= <- <-] & H)]; [discriminate | lia].
  - intros g.
    repeat match goal with |- context [if ?b then _ else _] => destruct b end;
      intros [= <-]; cbn; auto 6.
Qed.

End TranslationEngineEdges.


(** ** Keyword extraction, beyond the claims *)

Section ExtractionEdges.
Import RealisticWebSocketHandler.

Lemma string_append_assoc (a b c : string) : (a +:+ b) +:+ c = a +:+ (b +:+ c).
Proof.
  induction a as [|x a IH]; [reflexivity |].
  change (String x ((a +:+ b) +:+ c) = String x (a +:+ (b +:+ c))). now rewrite IH.
Qed.

(** A text that includes a keyword includes what the keyword includes. *)
Lemma includes_trans (s k j : string) :
  JS.includes s k = true -> JS.includes k j = true -> JS.includes s j = true.
Proof.
  rewrite !includes_spec. intros (a & b & ->) (c & d & ->).
  exists (a +:+ c), (d +:+ b). now rewrite !string_append_assoc.
Qed.

Lemma find_at_or_before {A} (f : A -> bool) (pre post : list A) (x y : A) :
  find f (pre ++ y :: post) = Some x -> f y = true -> In x (pre ++ [y]).
Proof.
  induction pre as [|a pre IH]; cbn; intros Hfind Hy.
  - rewrite Hy in Hfind. injection Hfind as <-. now left.
  - destruct (f a); [injection Hfind as <-; now left | right; auto].
Qed.

Lemma not_In_by_eqb (g : string) (l : list string) :
  forallb (fun x => negb (String.eqb x g)) l = true -> ~ In g l.
Proof.
  intros H Hin. rewrite forallb_forall in H. specialize (H g Hin).
  now rewrite String.eqb_refl in H.
Qed.

Lemma gesture_names_truthy :
  forallb JS.truthy (map snd gestureKeywords ++ map fst numbers ++ letters) = true.
Proof. reflexivity. Qed.

Lemma extractGestureFromText_In (text g : string) :
  extractGestureFromText text = Some g ->
  (exists kw, In (kw, g) gestureKeywords /\ JS.includes (JS.toLowerCase text) kw = true) \/
  (find (fun kv => JS.includes (JS.toLowerCase text) (fst kv)) gestureKeywords = None /\
   (In g (map fst numbers) \/ In g letters)).
Proof.
  unfold extractGestureFromText.
  destruct (find _ gestureKeywords) as [[kw g']|] eqn:Hkw.
  - intros [= <-]. left. exists kw. apply find_some in Hkw. exact Hkw.
  - right. split; [reflexivity |].
    destruct (find _ numbers) as [[word digit]|] eqn:Hnum.
    + injection H as <-. left. apply find_some in Hnum as [Hin _].
      apply (in_map fst) in Hin. exact Hin.
    + right. apply find_some in H as [Hin _]. exact Hin.
Qed.

(** X9. Whatever the text, an extracted gesture is one of the names of
    the three tables (keyword gestures, number words, letters) and is
    never the empty string: testing the result for truthiness is testing
    it for [null]. *)
Theorem extractGestureFromText_range (text g : string) :
  extractGestureFromText text = Some g ->
  In g (map snd gestureKeywords ++ map fst numbers ++ letters) /\ g <> EmptyString.
Proof.
  intros H.
  assert (Hin : In g (map snd gestureKeywords ++ map fst numbers ++ letters)).
  { apply extractGestureFromText_In in H as [(kw & Hin & _) | [_ [Hin | Hin]]].
    - apply in_or_app. left. apply (in_map snd) in Hin. exact Hin.
    - apply in_or_app. right. apply in_or_app. now left.
    - apply in_or_app. right. apply in_or_app. now right. }
  split; [exact Hin |].
  pose proof gesture_names_truthy as Ht. rewrite forallb_forall in Ht.
  specialize (Ht g Hin). intros ->. discriminate Ht.
Qed.

Lemma extractGestureFromText_range_witness :
  In "food"%string (map snd gestureKeywords ++ map fst numbers ++ letters) /\
  "food"%string <> EmptyString.
Proof.
  apply (extractGestureFromText_range "I am HUNGRY" "food"). reflexivity.
Defined.

(** A gesture all of whose keywords include the keyword of an earlier
    entry that answers another gesture is never extracted. *)
Lemma shadowed_gesture (g : string) (pre post : list (string * string)) (y : string * string) :
  gestureKeywords = pre ++ y :: post ->
  forallb (fun kv => negb (String.eqb (snd kv) g) || JS.includes (fst kv) (fst y))
          gestureKeywords = true ->
  forallb (fun x => negb (String.eqb x g))
          (map snd (pre ++ [y]) ++ map fst numbers ++ letters) = true ->
  forall text, extractGestureFromText text <> Some g.
Proof.
  intros Hsplit Hshadow Hfresh text H.
  apply not_In_by_eqb in Hfresh. apply Hfresh. apply in_or_app.
  pose proof H as H'.
  apply extractGestureFromText_In in H' as [(kw & Hin & Hinc) | [_ Hin]].
  - left. rewrite forallb_forall in Hshadow. specialize (Hshadow _ Hin).
    cbn [fst snd] in Hshadow. rewrite String.eqb_refl in Hshadow. cbn in Hshadow.
    pose proof (includes_trans _ _ _ Hinc Hshadow) as Hy.
    unfold extractGestureFromText in H. rewrite Hsplit in H.
    destruct (find _ (pre ++ y :: post)) as [[kw' g']|] eqn:Hfind.
    + injection H as ->.
      apply (find_at_or_before _ pre post (kw', g) y) in Hfind; [|exact Hy].
      apply (in_map snd) in Hfind. exact Hfind.
    + apply find_none with (x := y) in Hfind; [|apply in_or_app; right; now left].
      cbn beta in Hfind. congruence.
  - right. apply in_or_app. exact Hin.
Qed.

(** X10. Three gestures of the keyword table can never be extracted,
    because each of their keywords includes an earlier keyword of another
    gesture: "yesterday" includes "yes", "repeat" includes "eat", and
    both spellings of "dont understand" include "understand". *)
Theorem extractGestureFromText_shadowed_entries (text : string) :
  extractGestureFromText text <> Some "yesterday"%string /\
  extractGestureFromText text <> Some "repeat"%string /\
  extractGestureFromText text <> Some "dont_understand"%string /\
  In ("yesterday", "yesterday")%string gestureKeywords /\
  In ("repeat", "repeat")%string gestureKeywords /\
  In ("dont understand", "dont_understand")%string gestureKeywords.
Proof.
  split; [| split; [| split]].
  - apply (shadowed_gesture "yesterday" (firstn 16 gestureKeywords)
             (skipn 17 gestureKeywords) ("yes", "yes")%string); reflexivity.
  - apply (shadowed_gesture "repeat" (firstn 30 gestureKeywords)
             (skipn 31 gestureKeywords) ("eat", "food")%string); reflexivity.
  - apply (shadowed_gesture "dont_understand" (firstn 51 gestureKeywords)
             (skipn 52 gestureKeywords) ("understand", "understand")%string); reflexivity.
  - cbn. repeat split; auto 60.
Qed.

(** X11. A text that says "thirsty" is answered with "hello", not with
    "water": the keyword includes "hi", which stands earlier in the
    table, and only "hello" stands before "hi". *)
Theorem extractGestureFromText_thirsty_is_hello (text : string) :
  JS.includes (JS.toLowerCase text) "thirsty" = true ->
  extractGestureFromText text = Some "hello"%string /\
  JS.get gestureKeywords "thirsty" = Some "water"%string.
Proof.
  intros Hthirsty. split; [|reflexivity].
  assert (Hhi : JS.includes (JS.toLowerCase text) "hi" = true)
    by (apply (includes_trans _ _ _ Hthirsty); reflexivity).
  unfold extractGestureFromText.
  change gestureKeywords
    with (firstn 1 gestureKeywords ++ ("hi", "hello")%string :: skipn 2 gestureKeywords).
  destruct (find _ (_ ++ _ :: _)) as [[kw g]|] eqn:Hfind.
  - apply find_at_or_before in Hfind; [|exact Hhi].
    cbn in Hfind. destruct Hfind as [[= <- <-] | [[= <- <-] | []]]; reflexivity.
  - apply find_none with (x := ("hi", "hello")%string) in Hfind; [|cbn; auto].
    cbn beta in Hfind. cbn [fst] in Hfind. congruence.
Qed.

Lemma extractGestureFromText_thirsty_is_hello_witness :
  extractGestureFromText "I am very THIRSTY" = Some "hello"%string.
Proof.
  exact (proj1 (extractGestureFromText_thirsty_is_hello "I am very THIRSTY" eq_refl)).
Defined.

(** X12. A text with the digit 0 in it is never read as another number:
    when no keyword matches, the scan of the numbers stops at "zero",
    whose digit every text with a 0 includes; so "10" gives "zero", and
    "ten" is only extracted from the word. *)
Theorem extractGestureFromText_digit_zero_first (text g : string) :
  JS.includes (JS.toLowerCase text) "0" = true ->
  extractGestureFromText text = Some g ->
  g = "zero"%string \/ In g (map snd gestureKeywords).
Proof.
  intros Hzero. unfold extractGestureFromText.
  destruct (find _ gestureKeywords) as [[kw g']|] eqn:Hkw.
  - intros [= <-]. right. apply find_some in Hkw as [Hin _].
    apply (in_map snd) in Hin. exact Hin.
  - unfold numbers. cbn [find fst snd]. rewrite Hzero, orb_true_r.
    intros [= <-]. now left.
Qed.

Lemma extractGestureFromText_digit_zero_first_witness :
  extractGestureFromText "Room 10" = Some "zero"%string /\
  ("zero"%string = "zero"%string \/ In "zero"%string (map snd gestureKeywords)).
Proof.
  split; [reflexivity |].
  apply (extractGestureFromText_digit_zero_first "Room 10" "zero"); reflexivity.
Defined.

End ExtractionEdges.

(** ** The simulated detector *)

Section DetectorProperties.
Import SimpleRealisticSignLanguageService SimulatedDetection.
Context {ML : MathLib}.

Lemma get_of_key {V} (m : list (string * V)) (k : string) :
  In k (map fst m) -> exists v, JS.get m k = Some v /\ In (k, v) m.
Proof.
  induction m as [|[k' v'] m IH]; cbn; [intros [] |].
  destruct (String.eqb k' k) eqn:E.
  - intros _. apply String.eqb_eq in E as ->. eauto.
  - intros [-> | H]; [now rewrite String.eqb_refl in E |].
    destruct (IH H) as (v & Hv & Hin). eauto.
Qed.

Lemma get_of_missing_key {V} (m : list (string * V)) (k : string) :
  ~ In k (map fst m) -> JS.get m k = None.
Proof.
  induction m as [|[k' v'] m IH]; cbn; [reflexivity |].
  intros H. destruct (String.eqb k' k) eqn:E.
  - apply String.eqb_eq in E. tauto.
  - apply IH. tauto.
Qed.

(** X13. [getGestureDescription] answers, for every name of the
    vocabulary, the description of its entry, which is neither empty nor
    the fallback; for every other name it answers "Unknown gesture". *)
Theorem getGestureDescription_vocabulary (gesture : string) :
  (In gesture (map fst aslGestures) ->
   exists p, In (gesture, p) aslGestures /\
             getGestureDescription gesture = gp_description p /\
             getGestureDescription gesture <> EmptyString /\
             getGestureDescription gesture <> "Unknown gesture"%string) /\
  (~ In gesture (map fst aslGestures) ->
   getGestureDescription gesture = "Unknown gesture"%string).
Proof.
  split.
  - intros Hin. destruct (get_of_key aslGestures gesture Hin) as (p & Hget & Hp).
    exists p. unfold getGestureDescription. rewrite Hget.
    split; [exact Hp |]. split; [reflexivity |].
    cbn in Hp.
    repeat (destruct Hp as [[= <- <-] | Hp]; [split; discriminate |]). destruct Hp.
  - intros Hnot. unfold getGestureDescription.
    now rewrite (get_of_missing_key _ _ Hnot).
Qed.

(** The clamp of the simulated confidence. *)
Lemma calculateRealisticConfidence_clamped (random baseConfidence : JS.number) :
  0.1 <= calculateRealisticConfidence random baseConfidence /\
  calculateRealisticConfidence random baseConfidence <= 1.
Proof.
  unfold calculateRealisticConfidence. cbv zeta. split.
  - apply Q.le_max_l.
  - apply Q.max_lub; [apply Qle_bool_iff; reflexivity |].
    eapply Qle_trans; [apply Q.le_min_l | apply Qle_bool_iff; reflexivity].
Qed.

(** X14. The simulated confidence is always between 0.1 and 1; and for
    a draw in [0, 1] and a base confidence between 0.2 and 1 it is
    within 0.1 of the base. *)
Theorem calculateRealisticConfidence_bounds (random baseConfidence : JS.number) :
  (0.1 <= calculateRealisticConfidence random baseConfidence /\
   calculateRealisticConfidence random baseConfidence <= 1) /\
  (0 <= random -> random <= 1 -> 0.2 <= baseConfidence -> baseConfidence <= 1 ->
   baseConfidence - 0.1 <= calculateRealisticConfidence random baseConfidence /\
   calculateRealisticConfidence random baseConfidence <= baseConfidence + 0.1).
Proof.
  unfold calculateRealisticConfidence. cbv zeta.
  destruct (Q.min_spec 1.0 (baseConfidence + (random - 0.5) * 0.2)) as [[H1 E1] | [H1 E1]];
  destruct (Q.max_spec 0.1 (Qmin 1.0 (baseConfidence + (random - 0.5) * 0.2)))
    as [[H2 E2] | [H2 E2]];
  rewrite E2; try rewrite E1; rewrite ?E1 in H2;
  (split; [split; lra | intros; split; lra]).
Qed.

Lemma landmarkPoint_length (bx by_ bz : JS.number) (i : nat) (r : JS.number) :
  length (landmarkPoint bx by_ bz i r) = 3%nat.
Proof.
  unfold landmarkPoint.
  repeat match goal with |- context [if ?b then _ else _] => destruct b end; reflexivity.
Qed.

Lemma flat_map_length3 {A B} (f : A -> list B) (l : list A) :
  (forall a, length (f a) = 3%nat) -> length (flat_map f l) = (3 * length l)%nat.
Proof.
  intros Hf. induction l as [|a l IH]; cbn [flat_map length]; [reflexivity |].
  rewrite length_app, Hf, IH. lia.
Qed.

(** X15. Every detection of the simulated detector, whatever the draws
    of [Math.random()], names a gesture of the vocabulary with the
    description of its entry, has a confidence between 0.1 and 1, and
    carries the landmarks of exactly one hand, 63 coordinates. *)
Theorem processFrame_detection
    (rnd : nat -> JS.number) (gestureBuffer gestureBuffer' : list BufferedFrame)
    (tPush tReturn : Z) (signData : SignLanguageData) :
  processFrame rnd gestureBuffer tPush tReturn = (gestureBuffer', Some signData) ->
  (exists g, recognizedGesture signData = Some g /\
             In g (map fst aslGestures) /\
             gestureDescription signData = Some (getGestureDescription g)) /\
  (0.1 <= sd_confidence signData /\ sd_confidence signData <= 1) /\
  (exists row, landmarks signData = [row] /\ length row = 63%nat).
Proof.
  unfold processFrame.
  destruct (negb (JS.gtb (rnd 0%nat) 0.7)); [discriminate |]. cbv zeta.
  destruct (Qfloor _ <? 0)%Z; [discriminate |].
  destruct (nth_error _ _) as [g|] eqn:Hnth; [|discriminate].
  destruct (JS.get aslGestures g) as [info|] eqn:Hget; [|discriminate].
  intros [= _ <-]. cbn [recognizedGesture gestureDescription sd_confidence landmarks].
  split; [| split].
  - exists g. split; [reflexivity |]. split; [exact (nth_error_In _ _ Hnth) |].
    unfold getGestureDescription. now rewrite Hget.
  - apply calculateRealisticConfidence_clamped.
  - unfold generateRealisticLandmarks. eexists. split; [reflexivity |].
    rewrite flat_map_length3 by (intros; apply landmarkPoint_length). reflexivity.
Qed.

(** X16. The detection happens exactly when the first draw exceeds
    0.7 (for a second draw in [0, 1)), and the frame buffer never grows
    beyond [bufferSize]. *)
Theorem processFrame_buffer_and_rate
    (rnd : nat -> JS.number) (gestureBuffer : list BufferedFrame) (tPush tReturn : Z) :
  0 <= rnd 1%nat -> rnd 1%nat < 1 ->
  (length gestureBuffer <= bufferSize)%nat ->
  let out := processFrame rnd gestureBuffer tPush tReturn in
  (length (fst out) <= bufferSize)%nat /\
  ((exists signData, snd out = Some signData) <-> 0.7 < rnd 0%nat) /\
  (snd out = None -> fst out = gestureBuffer).
Proof.
  intros Hlo Hhi Hlen. cbv zeta. unfold processFrame.
  assert (Hgt : JS.gtb (rnd 0%nat) 0.7 = true <-> 0.7 < rnd 0%nat).
  { unfold JS.gtb, JS.ltb. rewrite negb_true_iff.
    destruct (Qle_bool (rnd 0%nat) 0.7) eqn:E.
    - apply Qle_bool_iff in E. split; [discriminate | intros H; lra].
    - split; [intros _ | reflexivity].
      apply Qnot_le_lt. intros H. apply Qle_bool_iff in H. congruence. }
  destruct (JS.gtb (rnd 0%nat) 0.7) eqn:Egt; cbn [negb].
  2:{ cbn [fst snd]. split; [exact Hlen |]. split; [| reflexivity].
      split; [intros [sd H]; discriminate | intros H; apply Hgt in H; discriminate]. }
  cbv zeta.
  set (names := map fst aslGestures).
  assert (Hidx : (0 <= Qfloor (rnd 1%nat * JS.of_nat (length names)) < 20)%Z).
  { change (JS.of_nat (length names)) with 20. split.
    - change 0%Z with (Qfloor 0). apply Qfloor_resp_le. lra.
    - apply Z.lt_nge. intros H.
      assert (H20 : inject_Z 20 <= rnd 1%nat * 20).
      { eapply Qle_trans; [| apply Qfloor_le]. rewrite <- Zle_Qle. exact H. }
      change (inject_Z 20) with 20 in H20. lra. }
  destruct (Qfloor _ <? 0)%Z eqn:Eneg.
  { apply Z.ltb_lt in Eneg. exfalso. apply (Z.lt_irrefl 0).
    eapply Z.le_lt_trans; [apply Hidx | exact Eneg]. }
  destruct (nth_error names _) as [g|] eqn:Hnth.
  2:{ apply nth_error_None in Hnth. change (length names) with 20%nat in Hnth.
      exfalso. destruct Hidx as [H0 H20]. apply Z2Nat.inj_lt in H20; [|exact H0 | discriminate].
      change (Z.to_nat 20) with 20%nat in H20. apply (Nat.lt_irrefl 20).
      eapply Nat.le_lt_trans; [exact Hnth | exact H20]. }
  destruct (get_of_key aslGestures g (nth_error_In _ _ Hnth)) as (info & -> & _).
  cbn [fst snd]. split; [| split].
  - destruct (bufferSize <? length _)%nat eqn:E.
    + destruct gestureBuffer; cbn in *; [lia | rewrite length_app; cbn; lia].
    + apply Nat.ltb_ge in E. exact E.
  - split; [intros _; now apply Hgt | intros _; eauto].
  - discriminate.
Qed.

End DetectorProperties.


Lemma processFrame_detection_witness :
  exists signData,
    snd (SimulatedDetection.processFrame (ML:=plainMath) (fun _ => 0.8) [] 10 11)
      = Some signData /\
    recognizedGesture signData = Some "five"%string /\
    0.1 <= sd_confidence signData /\ sd_confidence signData <= 1.
Proof.
  eexists. split; [vm_compute; reflexivity |]. split; [reflexivity |].
  refine (proj1 (proj2 (processFrame_detection
                          (ML:=plainMath) (fun _ => 0.8) [] _ 10 11 _ eq_refl))).
Defined.

Lemma processFrame_buffer_and_rate_witness :
  let out := SimulatedDetection.processFrame (ML:=plainMath) (fun _ => 0.8) [] 10 11 in
  (length (fst out) <= SimulatedDetection.bufferSize)%nat /\
  ((exists signData, snd out = Some signData) <-> 0.7 < 0.8).
Proof.
  cbv zeta.
  refine (let H := processFrame_buffer_and_rate
                     (ML:=plainMath) (fun _ => 0.8) [] 10 11 _ _ _ in
          conj (proj1 H) (proj1 (proj2 H)));
    [discriminate | reflexivity | cbn; lia].
Defined.


(** ** What the asynchronous methods guarantee *)

Section OutcomeLemmas.
Import Outcomes.

Lemma completes_bindT {A B} (P : State -> Completion B -> Prop) (t : Task A) (f : A -> M B) :
  always_completes
    (fun s1 c => match c with
                 | Normal a => always_completes P (f a s1)
                 | Throw e => P s1 (Throw e)
                 end) t ->
  always_completes P (bindT t f).
Proof.
  induction 1 as [s [a|e] H | s r k _ IH]; cbn.
  - exact H.
  - constructor. exact H.
  - constructor. exact IH.
Qed.

Lemma completes_catchT {A} (P : State -> Completion A -> Prop) (t : Task A)
    (h : string -> M A) :
  always_completes
    (fun s1 c => match c with
                 | Normal a => P s1 (Normal a)
                 | Throw e => always_completes P (h e s1)
                 end) t ->
  always_completes P (catchT t h).
Proof.
  induction 1 as [s [a|e] H | s r k _ IH]; cbn.
  - constructor. exact H.
  - exact H.
  - constructor. exact IH.
Qed.

Lemma completes_bind {A B} (P : State -> Completion B -> Prop) (m : M A) (f : A -> M B)
    (s : State) :
  always_completes
    (fun s1 c => match c with
                 | Normal a => always_completes P (f a s1)
                 | Throw e => P s1 (Throw e)
                 end) (m s) ->
  always_completes P (bind m f s).
Proof. apply completes_bindT. Qed.

Lemma completes_tryCatch {A} (P : State -> Completion A -> Prop) (m : M A)
    (h : string -> M A) (s : State) :
  always_completes
    (fun s1 c => match c with
                 | Normal a => P s1 (Normal a)
                 | Throw e => always_completes P (h e s1)
                 end) (m s) ->
  always_completes P (tryCatch m h s).
Proof. apply completes_catchT. Qed.

Lemma completes_await {A} (P : State -> Completion A -> Prop) (r : Request)
    (f : Answer r -> M A) (s : State) :
  (forall ans s', always_completes P (f ans s')) ->
  always_completes P (bind (await r) f s).
Proof. intros H. cbn. constructor. exact H. Qed.

Lemma completes_await_only (P : State -> Completion unit -> Prop) (s : State) :
  (forall s', P s' (Normal tt)) -> always_completes P (await WaitForProcessing s).
Proof. intros H. constructor. intros [] s'. constructor. apply H. Qed.

Lemma completes_sleep (P : State -> Completion unit -> Prop) (ms : JS.number) (s : State) :
  (forall s', P s' (Normal tt)) -> always_completes P (await (Sleep ms) s).
Proof. intros H. constructor. intros [] s'. constructor. apply H. Qed.

Lemma keeps_bindT {A B} (Q : State -> Prop) (t : Task A) (f : A -> M B) :
  keeps Q t -> (forall a s1, Q s1 -> keeps Q (f a s1)) -> keeps Q (bindT t f).
Proof.
  intros Ht Hf. induction Ht as [s [a|e] H | s r k H _ IH]; cbn.
  - apply Hf, H.
  - constructor. exact H.
  - constructor; [exact H | exact IH].
Qed.

Lemma keeps_catchT {A} (Q : State -> Prop) (t : Task A) (h : string -> M A) :
  keeps Q t -> (forall e s1, Q s1 -> keeps Q (h e s1)) -> keeps Q (catchT t h).
Proof.
  intros Ht Hh. induction Ht as [s [a|e] H | s r k H _ IH]; cbn.
  - constructor. exact H.
  - apply Hh, H.
  - constructor; [exact H | exact IH].
Qed.

Lemma keeps_finallyT {A} (Q : State -> Prop) (t : Task A) (f : State -> State) :
  keeps Q t -> (forall s1, Q s1 -> Q (f s1)) -> keeps Q (finallyT t (modify f)).
Proof.
  intros Ht Hf. induction Ht as [s c H | s r k H _ IH]; cbn.
  - constructor. apply Hf, H.
  - constructor; [exact H | exact IH].
Qed.

Lemma keeps_bind {A B} (Q : State -> Prop) (m : M A) (f : A -> M B) (s : State) :
  keeps Q (m s) -> (forall a s1, Q s1 -> keeps Q (f a s1)) -> keeps Q (bind m f s).
Proof. apply keeps_bindT. Qed.

Lemma keeps_tryCatch {A} (Q : State -> Prop) (m : M A) (h : string -> M A) (s : State) :
  keeps Q (m s) -> (forall e s1, Q s1 -> keeps Q (h e s1)) -> keeps Q (tryCatch m h s).
Proof. apply keeps_catchT. Qed.

Lemma keeps_tryFinally {A} (Q : State -> Prop) (m : M A) (f : State -> State) (s : State) :
  keeps Q (m s) -> (forall s1, Q s1 -> Q (f s1)) -> keeps Q (tryFinally m (modify f) s).
Proof. apply keeps_finallyT. Qed.

Lemma keeps_await (Q : State -> Prop) (r : Request) (s : State) :
  Q s -> keeps Q (await r s).
Proof. intros H. constructor; [exact H |]. intros ans s' H'. constructor. exact H'. Qed.

Lemma keeps_modify (Q : State -> Prop) (f : State -> State) (s : State) :
  Q (f s) -> keeps Q (modify f s).
Proof. intros H. constructor. exact H. Qed.

Lemma keeps_pure {A} (Q : State -> Prop) (c : Completion A) (s : State) :
  Q s -> keeps Q (Done s c).
Proof. intros H. constructor. exact H. Qed.

End OutcomeLemmas.

Ltac completes_step :=
  lazymatch goal with
  | |- Outcomes.always_completes _ (bind (await _) _ _) =>
      apply completes_await; intros ? ?
  | |- Outcomes.always_completes _ (await WaitForProcessing _) =>
      apply completes_await_only; intros ?
  | |- Outcomes.always_completes _ (await (Sleep _) _) =>
      apply completes_sleep; intros ?
  | |- Outcomes.always_completes _ (bind _ _ _) => apply completes_bind
  | |- Outcomes.always_completes _ (tryCatch _ _ _) => apply completes_tryCatch
  | |- Outcomes.always_completes _ ((if ?b then _ else _) _) => destruct b
  | |- Outcomes.always_completes _ (match ?x with _ => _ end _) => destruct x
  | |- Outcomes.always_completes _ _ => apply Outcomes.completes_done
  end; cbv beta iota.

Section SynthesiserProperties.
Import Outcomes.

(** X17. [textToSpeech] never rejects and always releases the
    synthesiser: however the [say] command, the file check and the
    fallback notification end, and whatever happens to the state while
    it waits, it resolves, and it leaves [isProcessing] false. *)
Theorem textToSpeech_always_resolves (text : string) (voice : option string)
    (speed : option JS.number) (s : State) :
  always_completes
    (fun s' c => (exists path, c = Normal path) /\ isProcessing s' = false)
    (textToSpeech text voice speed s).
Proof.
  unfold textToSpeech, playTextAsSound, playAudioFile.
  repeat completes_step; split; eauto.
Qed.

(** X18. What [textToSpeech] answers, when its requests are answered
    at once by [o] and no options are given: the path of the new file,
    numbered by the counter taken modulo 1000, when both the [say]
    command and the file check succeed, and ['fallback_tts_used']
    otherwise; nothing is emitted, and the counter stays below 1000. *)
Theorem textToSpeech_result (o : Oracle) (text : string) (s : State) :
  let out := run o (textToSpeech text None None s) in
  let path := OutputPath (clock s) ((tempFileCounter s + 1) mod 1000) in
  let said : bool := o (Exec (say text "Samantha" (0.9 * 200) path)) in
  let found : bool := o (FsAccess path) in
  snd out = Normal (if said && found then path else FallbackTtsUsed) /\
  isProcessing (fst out) = false /\
  (tempFileCounter (fst out) < 1000)%nat /\
  outbox (fst out) = outbox s.
Proof.
  cbv zeta. unfold textToSpeech, playTextAsSound, playAudioFile.
  repeat run_step.
  assert (Hlt : ((tempFileCounter s + 1) mod 1000 < 1000)%nat)
    by (apply Nat.mod_upper_bound; discriminate).
  destruct (isProcessing s); repeat run_step;
    cbn [tempFileCounter clock set_isProcessing set_tempFileCounter];
    unfold voiceSettings_voice, voiceSettings_rate;
    destruct (o (Exec (say text "Samantha" (0.9 * 200)
                          (OutputPath (clock s) ((tempFileCounter s + 1) mod 1000)))));
    repeat run_step;
    try (destruct (o (FsAccess (OutputPath (clock s) ((tempFileCounter s + 1) mod 1000))));
         repeat run_step);
    try (destruct (o (Exec (displayNotification text))); repeat run_step);
    cbn; repeat split; exact Hlt.
Qed.

Lemma voiceTable_truthy :
  forallb (fun kv => JS.truthy (snd kv)) RealisticVoiceService.signToVoiceTranslations = true.
Proof. reflexivity. Qed.

(** X19. The text spoken for a gesture is never empty: it is the phrase
    of the table for the gestures the table knows, a fixed sentence for
    "unknown" and for the empty name, and a sentence that starts with
    "I see the gesture: " for every other name. *)
Theorem voiceTextOf_never_empty (gesture : string) :
  RealisticVoiceService.voiceTextOf gesture <> EmptyString /\
  (forall phrase,
     JS.get RealisticVoiceService.signToVoiceTranslations gesture = Some phrase ->
     RealisticVoiceService.voiceTextOf gesture = phrase) /\
  (JS.get RealisticVoiceService.signToVoiceTranslations gesture = None ->
   exists rest,
     RealisticVoiceService.voiceTextOf gesture = ("I " +:+ rest)%string /\
     (gesture = "unknown"%string \/ gesture = EmptyString ->
      rest = "detected a gesture, but I'm not sure what it means."%string)).
Proof.
  unfold RealisticVoiceService.voiceTextOf.
  destruct (JS.get RealisticVoiceService.signToVoiceTranslations gesture) as [t|] eqn:Hget.
  - assert (Ht : JS.truthy t = true).
    { pose proof voiceTable_truthy as H. rewrite forallb_forall in H.
      exact (H _ (get_In _ _ _ Hget)). }
    rewrite Ht. split; [| split].
    + intros ->. discriminate Ht.
    + now intros ? [= <-].
    + discriminate.
  - unfold RealisticVoiceService.generateFallbackVoiceText.
    destruct (String.eqb gesture "unknown") eqn:Eu; cbn [orb].
    + split; [discriminate |]. split; [discriminate |]. intros _.
      eexists. split; [reflexivity | reflexivity].
    + destruct (JS.truthy gesture) eqn:Et; cbn [negb].
      * split; [discriminate |]. split; [discriminate |]. intros _.
        eexists. split; [reflexivity |].
        intros [-> | ->]; discriminate.
      * split; [discriminate |]. split; [discriminate |]. intros _.
        eexists. split; [reflexivity | reflexivity].
Qed.

End SynthesiserProperties.


(** ** The avatar, beyond the claims *)

Section AvatarAnimations.
Import Outcomes Avatar3DService.
Context {ML : MathLib}.

Lemma gestureAnimations_entries (t0 : Z) (g : string) (anims : list AvatarPose) :
  JS.get (gestureAnimations t0) g = Some anims ->
  JS.truthy g = true /\ String.eqb g "unknown" = false /\ anims <> [].
Proof.
  intros H. apply get_In in H. cbn in H.
  repeat (destruct H as [[= <- <-] | H]; [repeat split; discriminate |]). destruct H.
Qed.

(** X20. For every gesture that has an entry in the animation table,
    [generateAvatarPose] answers the middle pose of its animation (pose
    number [length / 2]), whatever the landmarks of the observation are,
    absent ones included. *)
Theorem generateAvatarPose_known_gesture
    (t0 now : Z) (g : string) (anims : list AvatarPose)
    (lm : option (list (option (list JS.number)))) :
  JS.get (gestureAnimations t0) g = Some anims ->
  exists first rest,
    anims = first :: rest /\
    generateAvatarPose t0 now
      (Some {| raw_recognizedGesture := Some g; raw_landmarks := lm |}) =
    Normal (nth (length anims / 2) anims first) /\
    In (nth (length anims / 2) anims first) anims.
Proof.
  intros Hget. destruct (gestureAnimations_entries t0 g anims Hget) as (Ht & Hu & Hne).
  destruct anims as [|first rest]; [congruence |].
  exists first, rest. split; [reflexivity |].
  unfold generateAvatarPose, generateAvatarPose_try. cbn [raw_recognizedGesture].
  rewrite Ht, Hu, Hget. cbn [negb orb]. split; [reflexivity |].
  apply nth_In. apply Nat.div_lt; [cbn; lia | lia].
Qed.

Lemma playPoses_completes (P : State -> Completion unit -> Prop) (poses : list AvatarPose) :
  (forall s', P s' (Normal tt)) -> forall s, always_completes P (playPoses poses s).
Proof.
  intros HP. induction poses as [|pose poses IH]; intros s; cbn [playPoses].
  - constructor. apply HP.
  - repeat completes_step. apply IH.
Qed.

(** X21. [playGestureSequence] never rejects, whatever the gesture and
    whatever happens while it waits between the poses; for a gesture
    without animation it does nothing at all, at once; for a gesture
    with an animation it ends with the avatar back in the default pose
    and [isAnimating] false. *)
Theorem playGestureSequence_always_resolves (gesture : string) (s : State) :
  always_completes (fun _ c => c = Normal tt) (playGestureSequence gesture s) /\
  (JS.get (gestureAnimations (avatarT0 s)) gesture = None ->
   playGestureSequence gesture s = Done s (Normal tt)) /\
  (forall anims,
     JS.get (gestureAnimations (avatarT0 s)) gesture = Some anims ->
     always_completes
       (fun s' c => c = Normal tt /\ isAnimating s' = false /\
                    currentPose s' = Some (createDefaultPose (clock s')))
       (playGestureSequence gesture s)).
Proof.
  split; [| split].
  - unfold playGestureSequence. completes_step. completes_step. completes_step.
    destruct (JS.get _ gesture) as [[|pose poses]|]; try (completes_step; reflexivity).
    repeat completes_step.
    apply playPoses_completes. intros s'. repeat completes_step. reflexivity.
  - intros Hnone. unfold playGestureSequence, tryCatch, bind, gets.
    cbn [bindT catchT]. rewrite Hnone. reflexivity.
  - intros anims Hget.
    destruct (gestureAnimations_entries _ _ _ Hget) as (_ & _ & Hne).
    unfold playGestureSequence. completes_step. completes_step. completes_step.
    rewrite Hget. destruct anims as [|pose poses]; [congruence |].
    repeat completes_step.
    apply playPoses_completes. intros s'. repeat completes_step. repeat split.
Qed.

End AvatarAnimations.

Lemma generateAvatarPose_known_gesture_witness :
  Avatar3DService.generateAvatarPose (M:=plainMath) 0 7
    (Some {| Avatar3DService.raw_recognizedGesture := Some "goodbye"%string; Avatar3DService.raw_landmarks := None |}) =
  Normal (nth 2 (Avatar3DService.createGoodbyeAnimation 0) (Avatar3DService.createDefaultPose 0)).
Proof.
  destruct (generateAvatarPose_known_gesture (ML:=plainMath) 0 7 "goodbye"
              (Avatar3DService.createGoodbyeAnimation 0) None eq_refl)
    as (first & rest & Hanims & Hpose & _).
  rewrite Hpose. injection Hanims as <- <-. reflexivity.
Defined.


(** ** The dispatches, beyond the claims *)

(** Steps through a task for [keeps], given that [Q] only reads the two
    registries ([HQ]). *)
Ltac keeps_leaf HQ :=
  apply Outcomes.keeps_done;
  first [ eassumption | eapply HQ; [| | eassumption]; reflexivity ].

Ltac keeps_step HQ :=
  lazymatch goal with
  | |- Outcomes.keeps _ (bind _ _ _) => apply keeps_bind; [| intros ? ? ?]
  | |- Outcomes.keeps _ (tryCatch _ _ _) => apply keeps_tryCatch; [| intros ? ? ?]
  | |- Outcomes.keeps _ (await _ _) => apply keeps_await; eassumption
  | |- Outcomes.keeps _ ((if ?b then _ else _) _) => destruct b
  | |- Outcomes.keeps _ (match ?x with _ => _ end _) => destruct x
  | |- Outcomes.keeps _ _ => keeps_leaf HQ
  end.

Section DispatchInvariants.
Import Outcomes.
Context {ML : MathLib}.

(** The services keep every property of the state that only reads the
    two registries of the handler. *)
Section RegistriesOnly.
Variable Q : State -> Prop.
Hypothesis HQ : forall s s',
  connectedClients s' = connectedClients s ->
  processingQueue s' = processingQueue s -> Q s -> Q s'.

Lemma textToSpeech_keeps text voice speed s :
  Q s -> keeps Q (textToSpeech text voice speed s).
Proof.
  intros H. unfold textToSpeech, playTextAsSound, playAudioFile.
  repeat keeps_step HQ.
Qed.

Lemma playPoses_keeps poses : forall s, Q s -> keeps Q (playPoses poses s).
Proof.
  induction poses as [|pose poses IH]; intros s H; cbn [playPoses].
  - keeps_leaf HQ.
  - repeat keeps_step HQ. apply IH. assumption.
Qed.

Lemma playGestureSequence_keeps gesture s :
  Q s -> keeps Q (playGestureSequence gesture s).
Proof.
  intros H. unfold playGestureSequence.
  keeps_step HQ; [| keeps_leaf HQ].
  keeps_step HQ; [keeps_leaf HQ |].
  destruct (JS.get _ gesture) as [[|pose poses]|]; try keeps_leaf HQ.
  keeps_step HQ; [keeps_leaf HQ |].
  keeps_step HQ; [keeps_leaf HQ |].
  keeps_step HQ; [apply playPoses_keeps; assumption |].
  repeat keeps_step HQ.
Qed.

Lemma processSignToVoiceAuto_keeps signData socket s :
  Q s -> keeps Q (processSignToVoiceAuto signData socket s).
Proof.
  intros H. unfold processSignToVoiceAuto, generateVoiceFromGesture.
  keeps_step HQ; [| keeps_leaf HQ].
  destruct (knownGesture _); [| keeps_leaf HQ].
  keeps_step HQ.
  - keeps_step HQ; [| keeps_leaf HQ].
    keeps_step HQ; [apply textToSpeech_keeps; assumption | keeps_leaf HQ].
  - repeat keeps_step HQ.
Qed.

Lemma processVoiceToSignAuto_keeps text socket sessionId s :
  Q s -> keeps Q (processVoiceToSignAuto text socket sessionId s).
Proof.
  intros H. unfold processVoiceToSignAuto.
  keeps_step HQ; [| keeps_leaf HQ].
  destruct (extractGestureFromText text).
  - keeps_step HQ; [apply playGestureSequence_keeps; assumption |].
    repeat keeps_step HQ.
  - repeat keeps_step HQ.
Qed.

Lemma onVideoFrame_keeps clientId sessionId frame :
  (forall b s, Q s -> Q (set_processingQueue (fun q => <[signKey clientId := b]> q) s)) ->
  (forall s, Q s -> keeps Q (updateClientActivity clientId s)) ->
  forall s, Q s -> keeps Q (onVideoFrame clientId sessionId frame s).
Proof.
  intros Hset Hact s H. unfold onVideoFrame, setBusy.
  apply keeps_tryFinally; [| intros; now apply Hset].
  keeps_step HQ; [| keeps_leaf HQ].
  keeps_step HQ; [keeps_leaf HQ |].
  match goal with busy : bool |- _ => destruct busy end; [keeps_leaf HQ |].
  unfold processVideoFrame, setBusy.
  keeps_step HQ; [apply keeps_modify; now apply Hset |].
  keeps_step HQ; [now apply Hact |].
  keeps_step HQ; [keeps_step HQ |].
  keeps_step HQ; [keeps_leaf HQ |].
  match goal with r : option SignLanguageData |- _ => destruct r as [signData|] end;
    [| keeps_leaf HQ].
  cbv zeta.
  keeps_step HQ; [keeps_leaf HQ |].
  keeps_step HQ; [unfold Services.generateAvatarPose; repeat keeps_step HQ |].
  keeps_step HQ; [keeps_leaf HQ |].
  cbn [recognizedGesture sd_confidence].
  destruct (knownGesture _); [| keeps_leaf HQ].
  destruct (JS.gtb _ _); [| keeps_leaf HQ].
  apply processSignToVoiceAuto_keeps. assumption.
Qed.

Lemma onAudioData_keeps clientId sessionId data :
  (forall b s, Q s -> Q (set_processingQueue (fun q => <[voiceKey clientId := b]> q) s)) ->
  (forall s, Q s -> keeps Q (updateClientActivity clientId s)) ->
  forall s, Q s -> keeps Q (onAudioData clientId sessionId data s).
Proof.
  intros Hset Hact s H. unfold onAudioData, setBusy.
  apply keeps_tryFinally; [| intros; now apply Hset].
  keeps_step HQ; [| keeps_leaf HQ].
  keeps_step HQ; [keeps_leaf HQ |].
  match goal with busy : bool |- _ => destruct busy end; [keeps_leaf HQ |].
  unfold processAudioData, setBusy.
  keeps_step HQ; [apply keeps_modify; now apply Hset |].
  keeps_step HQ; [now apply Hact |].
  destruct data as [audioData|]; [| keeps_leaf HQ].
  destruct (RealisticVoiceService.validateAudioFormat _); [| keeps_leaf HQ].
  keeps_step HQ; [unfold speechToText; repeat keeps_step HQ |].
  keeps_step HQ; [keeps_leaf HQ |].
  keeps_step HQ; [keeps_leaf HQ |].
  apply processVoiceToSignAuto_keeps. assumption.
Qed.

End RegistriesOnly.

Lemma signKey_inj (a b : string) : signKey a = signKey b -> a = b.
Proof. unfold signKey. intros H. now injection H. Qed.

Lemma voiceKey_inj (a b : string) : voiceKey a = voiceKey b -> a = b.
Proof. unfold voiceKey. intros H. now injection H. Qed.

Lemma signKey_voiceKey (a b : string) : signKey a <> voiceKey b.
Proof. unfold signKey, voiceKey. discriminate. Qed.

Lemma updateClientActivity_keeps_flags clientId key v s :
  processingQueue s !! key = v ->
  keeps (fun s' => processingQueue s' !! key = v) (updateClientActivity clientId s).
Proof.
  intros H. unfold updateClientActivity. apply keeps_modify.
  destruct (connectedClients s !! clientId); exact H.
Qed.

(** X22. A dispatch touches no busy flag but its own: a ['video-frame']
    dispatch of a client keeps the value of every other key of the
    processing queue (the voice flag of the client, and both flags of
    every other client, whose keys are different), and so does an
    ['audio-data'] dispatch, as long as what happens meanwhile keeps it
    too. *)
Theorem dispatch_keeps_other_flags
    (clientId sessionId frame key : string) (data : option VoiceData)
    (v : option bool) (s : State) :
  processingQueue s !! key = v ->
  (key <> signKey clientId ->
   keeps (fun s' => processingQueue s' !! key = v)
         (onVideoFrame clientId sessionId frame s)) /\
  (key <> voiceKey clientId ->
   keeps (fun s' => processingQueue s' !! key = v)
         (onAudioData clientId sessionId data s)) /\
  (forall other, other <> clientId ->
     signKey other <> signKey clientId /\ voiceKey other <> voiceKey clientId /\
     signKey other <> voiceKey clientId /\ voiceKey other <> signKey clientId).
Proof.
  intros H.
  assert (HQ : forall s0 s', connectedClients s' = connectedClients s0 ->
            processingQueue s' = processingQueue s0 ->
            processingQueue s0 !! key = v -> processingQueue s' !! key = v)
    by (intros s0 s' _ -> H0; exact H0).
  split; [| split].
  - intros Hne. apply (onVideoFrame_keeps _ HQ); [| | exact H].
    + intros b s0 H0. cbn [processingQueue set_processingQueue].
      rewrite lookup_insert_ne by congruence. exact H0.
    + intros s0 H0. now apply updateClientActivity_keeps_flags.
  - intros Hne. apply (onAudioData_keeps _ HQ); [| | exact H].
    + intros b s0 H0. cbn [processingQueue set_processingQueue].
      rewrite lookup_insert_ne by congruence. exact H0.
    + intros s0 H0. now apply updateClientActivity_keeps_flags.
  - intros other Hother. repeat split.
    + intros E. apply Hother. now apply signKey_inj.
    + intros E. apply Hother. now apply voiceKey_inj.
    + apply signKey_voiceKey.
    + intros E. symmetry in E. now apply signKey_voiceKey in E.
Qed.

Lemma updateClientActivity_keeps_registry clientId (D : gset string) s :
  dom (connectedClients s) = D ->
  keeps (fun s' => dom (connectedClients s') = D) (updateClientActivity clientId s).
Proof.
  intros H. unfold updateClientActivity. apply keeps_modify.
  destruct (connectedClients s !! clientId) as [client|] eqn:E; [| exact H].
  cbn [connectedClients set_connectedClients].
  rewrite dom_insert_lookup_L by eauto. exact H.
Qed.

(** X23. A dispatch never registers nor deregisters a client: the set
    of the clients in the registry is kept by a ['video-frame'] and by
    an ['audio-data'] dispatch, also for a client that has disconnected
    in the meantime, whose activity is then not recorded. *)
Theorem dispatch_keeps_registry
    (clientId sessionId frame : string) (data : option VoiceData)
    (D : gset string) (s : State) :
  dom (connectedClients s) = D ->
  keeps (fun s' => dom (connectedClients s') = D)
        (onVideoFrame clientId sessionId frame s) /\
  keeps (fun s' => dom (connectedClients s') = D)
        (onAudioData clientId sessionId data s).
Proof.
  intros H.
  assert (HQ : forall s0 s', connectedClients s' = connectedClients s0 ->
            processingQueue s' = processingQueue s0 ->
            dom (connectedClients s0) = D -> dom (connectedClients s') = D)
    by (intros s0 s' -> _ H0; exact H0).
  split.
  - apply (onVideoFrame_keeps _ HQ); [| | exact H].
    + intros b s0 H0. exact H0.
    + intros s0 H0. now apply updateClientActivity_keeps_registry.
  - apply (onAudioData_keeps _ HQ); [| | exact H].
    + intros b s0 H0. exact H0.
    + intros s0 H0. now apply updateClientActivity_keeps_registry.
Qed.

End DispatchInvariants.


Lemma dispatch_keeps_other_flags_witness :
  processingQueue (initialState 0) !! voiceKey "c1" = None /\
  Outcomes.keeps (fun s' => processingQueue s' !! voiceKey "c1" = None)
    (onVideoFrame (ML:=plainMath) "c1" "s1" "frame" (initialState 0)).
Proof.
  split; [reflexivity |].
  apply (proj1 (dispatch_keeps_other_flags (ML:=plainMath) "c1" "s1" "frame"
                  (voiceKey "c1") None None (initialState 0) eq_refl)).
  unfold voiceKey, signKey. discriminate.
Defined.

Lemma dispatch_keeps_registry_witness :
  dom (connectedClients (initialState 0)) = ∅ /\
  Outcomes.keeps (fun s' => dom (connectedClients s') = ∅)
    (onVideoFrame (ML:=plainMath) "c1" "s1" "frame" (initialState 0)).
Proof.
  split; [reflexivity |].
  exact (proj1 (dispatch_keeps_registry (ML:=plainMath) "c1" "s1" "frame" None ∅
                  (initialState 0) eq_refl)).
Defined.

Section ConnectionProperties.

(** X24. The disconnection of a client removes its entry of the
    registry and both its busy flags, leaves the entries and the flags of
    every other client as they are, emits nothing, and does not stop the
    health check timer. *)
Theorem onDisconnect_cleans_the_client (clientId : string) (s : State) :
  exists s',
    onDisconnect clientId s = Done s' (Normal tt) /\
    connectedClients s' !! clientId = None /\
    processingQueue s' !! signKey clientId = None /\
    processingQueue s' !! voiceKey clientId = None /\
    (forall other, other <> clientId ->
       connectedClients s' !! other = connectedClients s !! other /\
       processingQueue s' !! signKey other = processingQueue s !! signKey other /\
       processingQueue s' !! voiceKey other = processingQueue s !! voiceKey other) /\
    outbox s' = outbox s /\
    healthCheckIntervals s' = healthCheckIntervals s.
Proof.
  eexists. split; [reflexivity |].
  cbn [connectedClients processingQueue outbox healthCheckIntervals
       set_connectedClients set_processingQueue].
  split; [apply lookup_delete_eq |].
  split.
  { rewrite lookup_delete_ne by (intros E; symmetry in E; now apply signKey_voiceKey in E).
    apply lookup_delete_eq. }
  split; [apply lookup_delete_eq |].
  split; [| split; reflexivity].
  intros other Hother. split; [| split].
  - now rewrite lookup_delete_ne by congruence.
  - rewrite !lookup_delete_ne; [reflexivity | |]; intros E;
      try (apply signKey_inj in E; congruence);
      symmetry in E; now apply signKey_voiceKey in E.
  - rewrite !lookup_delete_ne; [reflexivity | |]; intros E;
      try (apply voiceKey_inj in E; congruence);
      now apply signKey_voiceKey in E.
Qed.

(** X25. Connecting a client that the registry and the queue do not
    know and disconnecting it at once leaves the registry and the queue
    exactly as they were; what remains is the one [system-ready] event
    and the health check timer, still live until its next period. *)
Theorem connection_then_disconnection (clientId sessionId : string) (s : State) :
  connectedClients s !! clientId = None ->
  processingQueue s !! signKey clientId = None ->
  processingQueue s !! voiceKey clientId = None ->
  exists s1 s2,
    onConnection clientId sessionId s = Done s1 (Normal tt) /\
    onDisconnect clientId s1 = Done s2 (Normal tt) /\
    connectedClients s1 !! clientId =
      Some {| id := clientId; sessionId := sessionId; lastActivity := clock s |} /\
    connectedClients s2 = connectedClients s /\
    processingQueue s2 = processingQueue s /\
    outbox s2 = outbox s ++
      [ (clientId, system_ready SimpleRealisticSignLanguageService.getSupportedGestures
                     sessionId (clock s)) ] /\
    clientId ∈ healthCheckIntervals s2.
Proof.
  intros Hc Hs Hv. eexists. eexists.
  split; [reflexivity |]. split; [reflexivity |].
  cbn [connectedClients processingQueue outbox healthCheckIntervals clock
       set_connectedClients set_processingQueue set_outbox set_healthCheckIntervals].
  split; [apply lookup_insert_eq |].
  split; [now apply delete_insert_id |].
  split; [rewrite (delete_id _ _ Hs); now apply delete_id |].
  split; [reflexivity |].
  apply elem_of_union_r. now apply elem_of_singleton.
Qed.

Lemma connection_then_disconnection_witness :
  exists s2,
    run (answering None true)
        (bind (onConnection "c1" "s1") (fun _ => onDisconnect "c1") (initialState 0)) =
      (s2, Normal tt) /\
    connectedClients s2 = connectedClients (initialState 0) /\
    processingQueue s2 = processingQueue (initialState 0).
Proof.
  destruct (connection_then_disconnection "c1" "s1" (initialState 0) eq_refl eq_refl eq_refl)
    as (s1 & s2 & H1 & H2 & _ & Hc & Hq & _).
  exists s2. split; [| split; assumption].
  unfold bind. rewrite H1. cbn [bindT]. rewrite H2. reflexivity.
Defined.

End ConnectionProperties.

Section SpeechDispatch.
Variable o : Oracle.

Lemma speechToText_run (audioData : VoiceData) (s : State) :
  exists s',
    run o (speechToText audioData s) = (s', Normal (o (SimulatedRecognition audioData))) /\
    outbox s' = outbox s /\ clock s' = clock s.
Proof.
  unfold speechToText. repeat run_step.
  destruct (isProcessing s); repeat run_step; eexists; repeat split.
Qed.

Lemma playPoses_run (poses : list Avatar3DService.AvatarPose) :
  forall s, exists s',
    run o (playPoses poses s) = (s', Normal tt) /\
    outbox s' = outbox s /\ clock s' = clock s.
Proof.
  induction poses as [|pose poses IH]; intros s; cbn [playPoses].
  - exists s. repeat split.
  - repeat run_step.
    destruct (IH (set_currentPose (fun _ => Some pose) s)) as (s' & -> & Hout & Hclock).
    exists s'. repeat split; assumption.
Qed.

Lemma playGestureSequence_run (gesture : string) (s : State) :
  exists s',
    run o (playGestureSequence gesture s) = (s', Normal tt) /\
    outbox s' = outbox s /\ clock s' = clock s.
Proof.
  unfold playGestureSequence. repeat run_step.
  destruct (JS.get _ gesture) as [[|pose poses]|]; repeat run_step;
    [exists s; repeat split | | exists s; repeat split].
  match goal with |- context [run o (playPoses ?l ?s0)] =>
    destruct (playPoses_run l s0) as (s' & -> & Hout & Hclock)
  end.
  repeat run_step. eexists. split; [reflexivity |].
  cbn [outbox clock set_isAnimating set_currentPose]. rewrite Hout, Hclock. split; reflexivity.
Qed.

(** What the speech chain emits after the recognition. *)
Lemma processVoiceToSignAuto_emits (text socket sessionId : string) (s : State) :
  exists s',
    run o (processVoiceToSignAuto text socket sessionId s) = (s', Normal tt) /\
    outbox s' = outbox s ++
      match extractGestureFromText text with
      | Some gesture =>
          [ (socket, translation_result
               {| originalType := voice; translatedText := "Sign gesture: " +:+ gesture;
                  tr_confidence := 0.85; tr_timestamp := clock s;
                  tr_sessionId := sessionId |});
            (socket, auto_avatar_gesture gesture text
               (SimpleRealisticSignLanguageService.getGestureDescription gesture) (clock s)) ]
      | None =>
          [ (socket, translation_result
               {| originalType := voice; translatedText := generateSignDescription text;
                  tr_confidence := 0.6; tr_timestamp := clock s;
                  tr_sessionId := sessionId |});
            (socket, sign_description text (generateSignDescription text) (clock s)) ]
      end.
Proof.
  unfold processVoiceToSignAuto. run_step.
  destruct (extractGestureFromText text) as [gesture|].
  - destruct (playGestureSequence_run gesture s) as (s1 & Hrun & Hout & Hclock).
    run_step. rewrite Hrun. cbv beta iota. repeat run_step.
    eexists. split; [reflexivity |].
    cbn [outbox clock set_outbox]. rewrite Hout, Hclock, <- app_assoc. reflexivity.
  - cbv zeta. repeat run_step. eexists. split; [reflexivity |].
    cbn [outbox clock set_outbox]. rewrite <- app_assoc. reflexivity.
Qed.

(** X26. An ['audio-data'] dispatch on an idle flag: a clip of invalid
    format is refused at once, without any request, with the single
    error [AUDIO_FORMAT_ERROR]; a valid clip yields exactly three
    events, [text-recognized] with the recognised text, a
    [translation-result] of original type [voice], with confidence 0.85
    when the text names a gesture and 0.6 otherwise, and the event that
    goes with it. *)
Theorem audio_dispatch_emits
    (clientId sessionId : string) (data : option VoiceData) (s : State) :
  isBusy (voiceKey clientId) s = false ->
  (RealisticVoiceService.validateAudioFormat data = false ->
   exists s',
     onAudioData clientId sessionId data s = Done s' (Normal tt) /\
     outbox s' = outbox s ++ [ (clientId, error "Invalid audio format" "AUDIO_FORMAT_ERROR") ] /\
     processingQueue s' !! voiceKey clientId = Some false) /\
  (forall audioData,
     data = Some audioData ->
     RealisticVoiceService.validateAudioFormat data = true ->
     let recognised := o (SimulatedRecognition audioData) in
     let text := fst recognised in
     outbox (fst (run o (onAudioData clientId sessionId data s))) =
     outbox s ++
       (clientId, text_recognized text (snd recognised) sessionId (clock s)) ::
       match extractGestureFromText text with
       | Some gesture =>
           [ (clientId, translation_result
                {| originalType := voice; translatedText := "Sign gesture: " +:+ gesture;
                   tr_confidence := 0.85; tr_timestamp := clock s;
                   tr_sessionId := sessionId |});
             (clientId, auto_avatar_gesture gesture text
                (SimpleRealisticSignLanguageService.getGestureDescription gesture) (clock s)) ]
       | None =>
           [ (clientId, translation_result
                {| originalType := voice; translatedText := generateSignDescription text;
                   tr_confidence := 0.6; tr_timestamp := clock s;
                   tr_sessionId := sessionId |});
             (clientId, sign_description text (generateSignDescription text) (clock s)) ]
       end).
Proof.
  intros Hidle. split.
  - intros Hinvalid.
    unfold onAudioData, tryFinally, tryCatch, bind, gets. cbn [bindT catchT finallyT].
    rewrite Hidle. unfold processAudioData, setBusy, updateClientActivity, bind, modify.
    cbn [bindT].
    destruct data as [audioData|]; [rewrite Hinvalid |];
      cbn; eexists; (split; [reflexivity |]); cbn;
      (split; [| apply lookup_insert_eq]);
      destruct (connectedClients s !! clientId); reflexivity.
  - intros audioData -> Hvalid. cbv zeta.
    unfold onAudioData, setBusy. do 4 run_step. rewrite Hidle.
    unfold processAudioData, setBusy. rewrite Hvalid.
    run_step. run_step.
    set (s1 := set_processingQueue _ s).
    destruct (updateClientActivity_frame o clientId s1) as (s2 & Hrun2 & Hout2 & Hclock2 & _).
    run_step. rewrite Hrun2. cbv beta iota.
    destruct (speechToText_run audioData s2) as (s3 & Hrun3 & Hout3 & Hclock3).
    run_step. rewrite Hrun3. cbv beta iota. repeat run_step.
    match goal with |- context [run o (processVoiceToSignAuto ?t ?c ?i ?s0)] =>
      destruct (processVoiceToSignAuto_emits t c i s0) as (s4 & Hrun4 & Hout4)
    end.
    rewrite Hrun4. cbv beta iota. cbn [fst outbox set_processingQueue].
    rewrite Hout4. cbn [outbox clock set_outbox].
    rewrite Hout3, Hout2, Hclock3, Hclock2. cbn [s1 outbox clock set_processingQueue].
    rewrite <- app_assoc. reflexivity.
Qed.

End SpeechDispatch.


Lemma audio_dispatch_emits_witness :
  let clip := {| audioBuffer := Some 3200%nat; vd_duration := 2; sampleRate := 16000;
                 vd_timestamp := 0; vd_sessionId := "s1" |} in
  isBusy (voiceKey "c1") (initialState 0) = false /\
  map (fun e => eventName (snd e))
      (outbox (fst (run (answering None true)
                        (onAudioData "c1" "s1" (Some clip) (initialState 0))))) =
    [ "text-recognized"; "translation-result"; "auto-avatar-gesture" ]%string.
Proof.
  intros clip. split; [reflexivity |].
  rewrite (proj2 (audio_dispatch_emits (answering None true) "c1" "s1" (Some clip)
                    (initialState 0) eq_refl) clip eq_refl eq_refl).
  reflexivity.
Defined.

Section VideoDispatch.
Context {ML : MathLib}.
Variable o : Oracle.

Lemma generateAvatarPose_run (signData : SignLanguageData) (s : State) :
  exists pose, run o (Services.generateAvatarPose signData s) = (s, Normal pose).
Proof.
  unfold Services.generateAvatarPose. repeat run_step.
  unfold Avatar3DService.generateAvatarPose.
  destruct (Avatar3DService.generateAvatarPose_try _ _ _); eauto.
Qed.

(** X27. A ['video-frame'] dispatch on an idle flag, for every outcome
    of the perception call: a rejection yields the single error
    [REALISTIC_SIGN_PROCESSING_ERROR]; [null] yields no event at all; an
    observation yields [sign-detected] (with the session id of the
    socket) and [avatar-pose-update], followed by [translation-result]
    and [auto-voice-played] exactly when the gesture is known and the
    confidence is strictly above 0.7. *)
Theorem video_dispatch_emits (clientId sessionId frame : string) (s : State) :
  isBusy (signKey clientId) s = false ->
  let s' := fst (run o (onVideoFrame clientId sessionId frame s)) in
  match o (ProcessFrame frame) with
  | Throw _ =>
      outbox s' = outbox s ++
        [ (clientId, error "Failed to process video frame" "REALISTIC_SIGN_PROCESSING_ERROR") ]
  | Normal None => outbox s' = outbox s
  | Normal (Some signData) =>
      exists detected pose,
        landmarks detected = landmarks signData /\
        sd_confidence detected = sd_confidence signData /\
        recognizedGesture detected = recognizedGesture signData /\
        sd_sessionId detected = sessionId /\
        outbox s' = outbox s ++
          (clientId, sign_detected detected) :: (clientId, avatar_pose_update pose) ::
          match knownGesture (recognizedGesture signData) with
          | Some gesture =>
              if JS.gtb (sd_confidence signData) 0.7 then
                [ (clientId, translation_result
                     {| originalType := sign;
                        translatedText := RealisticVoiceService.voiceTextOf gesture;
                        tr_confidence := sd_confidence signData; tr_timestamp := clock s;
                        tr_sessionId := sessionId |});
                  (clientId, auto_voice_played gesture
                     (RealisticVoiceService.voiceTextOf gesture)
                     (sd_confidence signData) (clock s)) ]
              else []
          | None => []
          end
  end.
Proof.
  intros Hidle. cbv zeta.
  unfold onVideoFrame, setBusy. do 4 run_step. rewrite Hidle.
  unfold processVideoFrame, setBusy. run_step. run_step.
  set (s1 := set_processingQueue _ s).
  destruct (updateClientActivity_frame o clientId s1) as (s2 & Hrun2 & Hout2 & Hclock2 & _).
  run_step. rewrite Hrun2. cbv beta iota. run_step. run_step.
  destruct (o (ProcessFrame frame)) as [[signData|]|e]; repeat run_step.
  - cbv zeta.
    set (detected := {| landmarks := landmarks signData |}).
    destruct (generateAvatarPose_run detected
                (set_outbox (fun l => l ++ [(clientId, sign_detected detected)]) s2))
      as (pose & Hpose).
    exists detected, pose. repeat (split; [reflexivity |]).
    rewrite Hpose. cbv beta iota. run_step. run_step.
    cbn [recognizedGesture sd_confidence detected].
    destruct (knownGesture (recognizedGesture signData)) as [gesture|] eqn:Hg.
    + destruct (JS.gtb (sd_confidence signData) 0.7).
      * edestruct (processSignToVoiceAuto_emits o detected clientId gesture)
          as (s3 & Hrun3 & Hout3); [exact Hg | rewrite Hrun3].
        cbv beta iota. cbn [fst outbox set_processingQueue]. rewrite Hout3.
        cbn [outbox clock set_outbox sd_confidence sd_sessionId detected].
        rewrite Hout2, Hclock2. cbn [s1 outbox clock set_processingQueue].
        rewrite <- !app_assoc. reflexivity.
      * run_step. cbn [fst outbox set_processingQueue set_outbox].
        rewrite Hout2. cbn [s1 outbox set_processingQueue].
        rewrite <- !app_assoc. reflexivity.
    + run_step. cbn [fst outbox set_processingQueue set_outbox].
      rewrite Hout2. cbn [s1 outbox set_processingQueue].
      rewrite <- !app_assoc. reflexivity.
  - cbn [fst outbox set_processingQueue]. rewrite Hout2. reflexivity.
  - cbn [fst outbox set_processingQueue set_outbox]. rewrite Hout2. reflexivity.
Qed.

End VideoDispatch.

Lemma video_dispatch_emits_witness :
  isBusy (signKey "c1") (initialState 0) = false /\
  outbox (fst (run failing (onVideoFrame (ML:=plainMath) "c1" "s1" "frame" (initialState 0)))) =
    [ ("c1"%string, error "Failed to process video frame" "REALISTIC_SIGN_PROCESSING_ERROR") ] /\
  outbox (fst (run (answering None true)
                   (onVideoFrame (ML:=plainMath) "c1" "s1" "frame" (initialState 0)))) = [].
Proof.
  split; [reflexivity |]. split.
  - exact (video_dispatch_emits (ML:=plainMath) failing "c1" "s1" "frame"
             (initialState 0) eq_refl).
  - exact (video_dispatch_emits (ML:=plainMath) (answering None true) "c1" "s1" "frame"
             (initialState 0) eq_refl).
Defined.

(** ** The error events no dispatch sends *)

Section UntilLemmas.
Import Outcomes.

Lemma until_bindT {A B} (Q : State -> Prop) (P : State -> Completion B -> Prop)
    (t : Task A) (f : A -> M B) :
  keeps_until Q
    (fun s1 c => match c with
                 | Normal a => keeps_until Q P (f a s1)
                 | Throw e => P s1 (Throw e)
                 end) t ->
  keeps_until Q P (bindT t f).
Proof.
  induction 1 as [s [a|e] HQ H | s r k HQ _ IH]; cbn.
  - exact H.
  - constructor; assumption.
  - constructor; assumption.
Qed.

Lemma until_catchT {A} (Q : State -> Prop) (P : State -> Completion A -> Prop)
    (t : Task A) (h : string -> M A) :
  keeps_until Q
    (fun s1 c => match c with
                 | Normal a => P s1 (Normal a)
                 | Throw e => keeps_until Q P (h e s1)
                 end) t ->
  keeps_until Q P (catchT t h).
Proof.
  induction 1 as [s [a|e] HQ H | s r k HQ _ IH]; cbn.
  - constructor; assumption.
  - exact H.
  - constructor; assumption.
Qed.

Lemma until_finallyT {A} (Q : State -> Prop) (P : State -> Completion A -> Prop)
    (t : Task A) (f : State -> State) :
  keeps_until Q (fun s1 c => Q (f s1) /\ P (f s1) c) t ->
  keeps_until Q P (finallyT t (modify f)).
Proof.
  induction 1 as [s c HQ [H1 H2] | s r k HQ _ IH]; cbn.
  - constructor; assumption.
  - constructor; assumption.
Qed.

Lemma until_bind {A B} (Q : State -> Prop) (P : State -> Completion B -> Prop)
    (m : M A) (f : A -> M B) (s : State) :
  keeps_until Q
    (fun s1 c => match c with
                 | Normal a => keeps_until Q P (f a s1)
                 | Throw e => P s1 (Throw e)
                 end) (m s) ->
  keeps_until Q P (bind m f s).
Proof. apply until_bindT. Qed.

Lemma until_tryCatch {A} (Q : State -> Prop) (P : State -> Completion A -> Prop)
    (m : M A) (h : string -> M A) (s : State) :
  keeps_until Q
    (fun s1 c => match c with
                 | Normal a => P s1 (Normal a)
                 | Throw e => keeps_until Q P (h e s1)
                 end) (m s) ->
  keeps_until Q P (tryCatch m h s).
Proof. apply until_catchT. Qed.

Lemma until_tryFinally {A} (Q : State -> Prop) (P : State -> Completion A -> Prop)
    (m : M A) (f : State -> State) (s : State) :
  keeps_until Q (fun s1 c => Q (f s1) /\ P (f s1) c) (m s) ->
  keeps_until Q P (tryFinally m (modify f) s).
Proof. apply until_finallyT. Qed.

Lemma until_awaited {A} (Q : State -> Prop) (P : State -> Completion A -> Prop)
    (r : Request) (f : Answer r -> M A) (s : State) :
  Q s -> (forall ans s', Q s' -> keeps_until Q P (f ans s')) ->
  keeps_until Q P (bind (await r) f s).
Proof. intros HQ H. cbn. constructor; assumption. Qed.

Lemma until_await (Q : State -> Prop) (r : Request)
    (P : State -> Completion (Answer r) -> Prop) (s : State) :
  Q s -> (forall ans s', Q s' -> P s' (Normal ans)) ->
  keeps_until Q P (await r s).
Proof. intros HQ H. constructor; [exact HQ |]. intros ans s' H'. constructor; auto. Qed.

Lemma until_weaken {A} (Q : State -> Prop) (P P' : State -> Completion A -> Prop)
    (t : Task A) :
  keeps_until Q P t -> (forall s c, Q s -> P s c -> P' s c) -> keeps_until Q P' t.
Proof.
  intros Ht HP. induction Ht as [s c HQ H | s r k HQ _ IH].
  - constructor; [exact HQ | now apply HP].
  - constructor; assumption.
Qed.

End UntilLemmas.

Lemma neverSent_other (codes : list string) (s s' : State) :
  outbox s' = outbox s -> neverSent codes s -> neverSent codes s'.
Proof. unfold neverSent. intros ->. auto. Qed.

Lemma neverSent_emit (codes : list string) (cid : string) (e : Event) (s : State) :
  (forall message code, e = error message code -> ~ In code codes) ->
  neverSent codes s ->
  neverSent codes (set_outbox (fun o => o ++ [(cid, e)]) s).
Proof.
  intros He Hs cid' message code. cbn [outbox set_outbox]. rewrite in_app_iff.
  intros [H | [E | []]]; [exact (Hs _ _ _ H) |].
  injection E as _ E. now apply (He message code).
Qed.

Lemma neverSent_updateClientActivity (codes : list string) (clientId : string) (s : State) :
  neverSent codes s ->
  neverSent codes
    match connectedClients s !! clientId with
    | Some client =>
        set_connectedClients
          (fun m => <[clientId := {| id := id client; sessionId := sessionId client;
                                     lastActivity := clock s |}]> m) s
    | None => s
    end.
Proof. intros H. destruct (connectedClients s !! clientId); [| exact H]. exact H. Qed.

(** Steps through a task for [keeps_until] and [neverSent]. *)
Ltac sent_leaf :=
  lazymatch goal with
  | |- neverSent _ (set_outbox _ _) =>
      apply neverSent_emit;
      [ intros ? ? [=]; subst; unfold unreachableErrors; cbn [In];
        intros [? | [? | [? | []]]]; discriminate
      | sent_leaf ]
  | |- neverSent _ (match _ !! _ with _ => _ end) =>
      apply neverSent_updateClientActivity; sent_leaf
  | |- neverSent _ (?f ?s) =>
      first [ eassumption | apply (neverSent_other _ s); [reflexivity | sent_leaf] ]
  | |- _ => eassumption
  end.

Ltac until_step :=
  lazymatch goal with
  | |- Outcomes.keeps_until _ _ (bind (await _) _ _) =>
      apply until_awaited; [sent_leaf | intros ? ? ?]
  | |- Outcomes.keeps_until _ _ (await _ _) =>
      apply until_await; [sent_leaf | intros ? ? ?]
  | |- Outcomes.keeps_until _ _ (bind _ _ _) => apply until_bind
  | |- Outcomes.keeps_until _ _ (tryCatch _ _ _) => apply until_tryCatch
  | |- Outcomes.keeps_until _ _ ((if ?b then _ else _) _) => destruct b
  | |- Outcomes.keeps_until _ _ (match ?x with _ => _ end _) => destruct x
  | |- Outcomes.keeps_until _ _ _ => apply Outcomes.until_done; [sent_leaf |]
  end; cbv beta iota.

Ltac until_case :=
  match goal with
  | |- match ?x with _ => _ end => destruct x; cbv beta iota zeta
  end.

Section UnreachableErrors.
Import Outcomes.
Context {ML : MathLib}.


Lemma playPoses_sends_nothing (poses : list Avatar3DService.AvatarPose) :
  forall s, (neverSent unreachableErrors) s -> keeps_until (neverSent unreachableErrors) (fun _ c => c = Normal tt) (playPoses poses s).
Proof.
  induction poses as [|pose poses IH]; intros s H; cbn [playPoses].
  - until_step. reflexivity.
  - until_step. until_step. until_step. apply IH. assumption.
Qed.

Lemma processSignToVoiceAuto_never_fails signData socket s
    (P : State -> Completion unit -> Prop) :
  (neverSent unreachableErrors) s -> (forall s', (neverSent unreachableErrors) s' -> P s' (Normal tt)) ->
  keeps_until (neverSent unreachableErrors) P (processSignToVoiceAuto signData socket s).
Proof.
  intros H HP.
  unfold processSignToVoiceAuto, generateVoiceFromGesture, textToSpeech,
    playTextAsSound, playAudioFile.
  repeat until_step; apply HP; sent_leaf.
Qed.

Lemma processVoiceToSignAuto_never_fails text socket sessionId s
    (P : State -> Completion unit -> Prop) :
  (neverSent unreachableErrors) s -> (forall s', (neverSent unreachableErrors) s' -> P s' (Normal tt)) ->
  keeps_until (neverSent unreachableErrors) P (processVoiceToSignAuto text socket sessionId s).
Proof.
  intros H HP. unfold processVoiceToSignAuto, playGestureSequence.
  repeat until_step; try (apply HP; sent_leaf).
  eapply until_weaken; [apply playPoses_sends_nothing; sent_leaf |].
  intros s1 c H1 ->. repeat until_step; apply HP; sent_leaf.
Qed.

(** X28. A dispatch never rejects, and three of the error events are
    never sent: the [catch] blocks of the ['audio-data'] handler and of
    the two automatic conversions are unreachable, because speech
    recognition, speech synthesis and the avatar animation never reject.
    This holds for every answer to every request, as long as what runs
    while the dispatch is suspended sends none of the three either. *)
Theorem dispatch_unreachable_errors
    (clientId sessionId frame : string) (data : option VoiceData) (s : State) :
  neverSent unreachableErrors s ->
  keeps_until (neverSent unreachableErrors) (fun _ c => c = Normal tt)
    (onVideoFrame clientId sessionId frame s) /\
  keeps_until (neverSent unreachableErrors) (fun _ c => c = Normal tt)
    (onAudioData clientId sessionId data s).
Proof.
  intros H. split.
  - unfold onVideoFrame, processVideoFrame, Services.generateAvatarPose, setBusy,
      updateClientActivity.
    apply until_tryFinally.
    repeat first [until_step | until_case]; try (split; [sent_leaf | reflexivity]).
    all: apply processSignToVoiceAuto_never_fails; [sent_leaf |];
      intros ? ?; cbv beta iota; split; [sent_leaf | reflexivity].
  - unfold onAudioData, processAudioData, speechToText, setBusy, updateClientActivity.
    apply until_tryFinally.
    repeat first [until_step | until_case]; try (split; [sent_leaf | reflexivity]).
    all: apply processVoiceToSignAuto_never_fails; [sent_leaf |];
      intros ? ?; cbv beta iota; split; [sent_leaf | reflexivity].
Qed.

End UnreachableErrors.

Lemma dispatch_unreachable_errors_witness :
  Outcomes.keeps_until (neverSent unreachableErrors) (fun _ c => c = Normal tt)
    (onAudioData "c1" "s1" None (initialState 0)).
Proof.
  refine (proj2 (dispatch_unreachable_errors (ML:=plainMath) "c1" "s1" "frame" None
                   (initialState 0) _)).
  intros cid message code H. destruct H.
Defined.

(** ** The description of a text without gesture *)

Section SignDescription.

Lemma string_append_nil_r (a : string) : a +:+ EmptyString = a.
Proof.
  induction a as [|x a IH]; [reflexivity |].
  change (String x (a +:+ EmptyString) = String x a). now rewrite IH.
Qed.

Lemma splitChar_nonempty (sep : ascii) (s cur : string) : JS.splitChar sep s cur <> [].
Proof.
  revert cur. induction s as [|c s IH]; intros cur; cbn [JS.splitChar]; [discriminate |].
  destruct (Ascii.eqb c sep); [discriminate | apply IH].
Qed.

Lemma join_cons (sep a : string) (l : list string) :
  l <> [] -> JS.join sep (a :: l) = a +:+ sep +:+ JS.join sep l.
Proof. destruct l; [congruence | reflexivity]. Qed.

(** [s.split(c).join(c)] is [s]. *)
Lemma join_splitChar (sep : ascii) (s cur : string) :
  JS.join (String sep EmptyString) (JS.splitChar sep s cur) = cur +:+ s.
Proof.
  revert cur. induction s as [|c s IH]; intros cur; cbn [JS.splitChar].
  - cbn [JS.join]. now rewrite string_append_nil_r.
  - destruct (Ascii.eqb c sep) eqn:E.
    + apply Ascii.eqb_eq in E. subst c.
      rewrite join_cons by apply splitChar_nonempty. rewrite IH. reflexivity.
    + rewrite IH. now rewrite string_append_assoc.
Qed.

Lemma join_app (sep : string) (l1 l2 : list string) :
  l1 <> [] -> l2 <> [] ->
  JS.join sep (l1 ++ l2) = JS.join sep l1 +:+ sep +:+ JS.join sep l2.
Proof.
  intros H1 H2. induction l1 as [|a l1 IH]; [congruence |].
  destruct l1 as [|b l1].
  - cbn [app]. rewrite join_cons by exact H2. reflexivity.
  - change ((a :: b :: l1) ++ l2) with (a :: ((b :: l1) ++ l2)).
    rewrite join_cons by discriminate. rewrite IH by discriminate.
    rewrite (join_cons sep a (b :: l1)) by discriminate.
    now rewrite !string_append_assoc.
Qed.

(** X29. The description of a recognised text quotes the text itself,
    unchanged, when it has at most six words (the pieces between single
    spaces): as a request to spell it out for at most three words, as a
    "sign language representation" otherwise. A longer text is cut at
    its sixth space: what is quoted is the part before it. *)
Theorem generateSignDescription_quotes_the_text (text : string) :
  let words := JS.splitChar " " text EmptyString in
  ((length words <= 3)%nat ->
   generateSignDescription text =
     "Spell out: " +:+ JS.dquote +:+ text +:+ JS.dquote +:+ " using fingerspelling") /\
  ((3 < length words <= 6)%nat ->
   generateSignDescription text =
     "Sign language representation: " +:+ JS.dquote +:+ text +:+ JS.dquote +:+
     " - Use combination of gestures and fingerspelling") /\
  ((6 < length words)%nat ->
   exists shortText rest,
     text = shortText +:+ " " +:+ rest /\
     shortText = JS.join " " (firstn 6 words) /\
     generateSignDescription text =
       "Sign language representation: " +:+ JS.dquote +:+ shortText +:+ JS.dquote +:+
       " - Use combination of gestures and fingerspelling").
Proof.
  cbv zeta. unfold generateSignDescription.
  set (words := JS.splitChar " " text EmptyString).
  assert (Hjoin : JS.join " " words = text) by apply (join_splitChar " " text EmptyString).
  split; [| split].
  - intros Hlen. apply Nat.leb_le in Hlen as Hb. rewrite Hb.
    rewrite firstn_all2 by lia. now rewrite Hjoin.
  - intros [Hlo Hhi]. apply Nat.leb_gt in Hlo as Hb. rewrite Hb.
    rewrite firstn_all2 by lia. now rewrite Hjoin.
  - intros Hlen. apply Nat.leb_gt in Hlen as Hb.
    assert (Hb3 : (length words <=? 3)%nat = false) by (apply Nat.leb_gt; lia).
    rewrite Hb3. exists (JS.join " " (firstn 6 words)), (JS.join " " (skipn 6 words)).
    split; [| split; reflexivity].
    rewrite <- join_app.
    + now rewrite firstn_skipn.
    + intros E. apply (f_equal (@length string)) in E.
      rewrite length_firstn in E. cbn [length] in E. lia.
    + intros E. apply (f_equal (@length string)) in E.
      rewrite length_skipn in E. cbn [length] in E. lia.
Qed.

End SignDescription.
